(** * Mini chat bot: the topic resolution of [app.py]

    A shallow embedding of the Flask application [app.py]: the derivation of
    a Notion page id from its URL, the keyword selection of topics, the
    relevance check through the language model, the exhaustive search over
    all topics and the [/api/chat] handler that ties them together.

    Python strings are modelled as Rocq strings (sequences of characters
    with code points below 256), Python values coming from JSON as [pyval],
    exceptions as [Raise], and the two remote services (Notion and Groq) as
    functions of an abstract world state, every call being recorded in a
    log. *)

From Stdlib Require Import String Ascii List ZArith QArith Bool Lia.
Import ListNotations.

Local Open Scope list_scope.
Local Open Scope string_scope.

(** ** Python strings *)

Module PyStr.

(** The one-character strings that cannot be typed inside a literal. *)
Definition nl : string := String (ascii_of_nat 10) EmptyString.
Definition dq : string := String (ascii_of_nat 34) EmptyString.

(** [bool(s)] for a string: true unless empty. *)
Definition nonempty (s : string) : bool :=
  match s with
  | EmptyString => false
  | String _ _ => true
  end.

(** [c.lower()] on one character: the upper-case letters below code point
    256 are A..Z, and the Latin-1 capitals 192..222 except the
    multiplication sign 215; each is 32 below its lower-case letter. *)
Definition lower_char (c : ascii) : ascii :=
  let n := nat_of_ascii c in
  if ((65 <=? n) && (n <=? 90))%nat then ascii_of_nat (n + 32)
  else if ((192 <=? n) && (n <=? 222) && negb (n =? 215))%nat
       then ascii_of_nat (n + 32)
  else c.

(** [s.lower()] *)
Fixpoint lower (s : string) : string :=
  match s with
  | EmptyString => EmptyString
  | String c rest => String (lower_char c) (lower rest)
  end.

(** [s.startswith(p)] *)
Fixpoint startswith (p s : string) : bool :=
  match p, s with
  | EmptyString, _ => true
  | String a p', String b s' => Ascii.eqb a b && startswith p' s'
  | String _ _, EmptyString => false
  end.

(** [p in s]: [p] starts at some position of [s]. *)
Fixpoint str_in (p s : string) : bool :=
  startswith p s
  || match s with
     | EmptyString => false
     | String _ rest => str_in p rest
     end.

(** [c in s] for one character. *)
Fixpoint occurs (c : ascii) (s : string) : bool :=
  match s with
  | EmptyString => false
  | String a rest => Ascii.eqb a c || occurs c rest
  end.

(** [s.split(sep)] for a separator of one character: the fields between
    the occurrences of [sep]; never the empty list. *)
Fixpoint split_on (sep : ascii) (s : string) : list string :=
  match s with
  | EmptyString => [EmptyString]
  | String c rest =>
      if Ascii.eqb c sep then EmptyString :: split_on sep rest
      else match split_on sep rest with
           | [] => [String c EmptyString]
           | field :: fields => String c field :: fields
           end
  end.

(** [s[:n]] for a bound [n] that is not negative: the first [n] characters,
    or all of [s] when it is shorter. *)
Fixpoint take (n : Z) (s : string) : string :=
  match s with
  | EmptyString => EmptyString
  | String c rest =>
      if (n <=? 0)%Z then EmptyString else String c (take (n - 1) rest)
  end.

(** [sep.join(l)] *)
Definition join (sep : string) (l : list string) : string :=
  String.concat sep l.

End PyStr.

Import PyStr.

(** [extract_page_id(url)]: [url.split("-")[-1]].  The subscript [-1] raises
    on an empty list only, and [split] never returns one
    ([split_on_not_nil]), so the default of [last] is never used. *)
Definition extract_page_id (url : string) : string :=
  last (split_on "-" url) EmptyString.


(** ** Python values *)

(** The exceptions that the handler can meet. *)
Inductive exn : Type :=
| KeyError | TypeError | AttributeError | JSONDecodeError
| NotionError | GroqError.

Inductive result (A : Type) : Type :=
| Ok (a : A)
| Raise (e : exn).

Arguments Ok {A} a.
Arguments Raise {A} e.

(** A Python number as [json.loads] yields it: an integer or a finite float
    (both exact rationals), an infinity or a NaN. *)
Inductive pynum : Type :=
| Fin (q : Q)
| PosInf
| NegInf
| NaN.

#[local] Set Warnings "-register-all".

(** A value decoded from JSON.  A dict keeps its entries in insertion order
    (its keys are distinct; nothing below depends on that). *)
Inductive pyval : Type :=
| PNone
| PBool (b : bool)
| PNum (n : pynum)
| PStr (s : string)
| PList (items : list pyval)
| PDict (entries : list (string * pyval)).

Definition PInt (z : Z) : pyval := PNum (Fin (inject_Z z)).

Module PyVal.

(** [d.get(k)] on the entries of a dict: the first entry under [k]. *)
Fixpoint lookup {V : Type} (k : string) (d : list (string * V)) : option V :=
  match d with
  | [] => None
  | (k', v) :: rest => if String.eqb k' k then Some v else lookup k rest
  end.

(** [d[k] = v]: replaces the value in place when [k] is present, appends a
    new entry otherwise. *)
Fixpoint dict_set {V : Type} (k : string) (v : V) (d : list (string * V))
  : list (string * V) :=
  match d with
  | [] => [(k, v)]
  | (k', v') :: rest =>
      if String.eqb k' k then (k', v) :: rest else (k', v') :: dict_set k v rest
  end.

(** [d.keys()] *)
Definition keys {V : Type} (d : list (string * V)) : list string :=
  map fst d.

(** [a > b] on numbers; anything compared with a NaN is false. *)
Definition num_gt (a b : pynum) : bool :=
  match a, b with
  | NaN, _ | _, NaN => false
  | PosInf, PosInf => false
  | PosInf, _ => true
  | _, PosInf => false
  | NegInf, _ => false
  | Fin _, NegInf => true
  | Fin x, Fin y => negb (Qle_bool x y)
  end.

(** [bool(v)] *)
Definition truthy (v : pyval) : bool :=
  match v with
  | PNone => false
  | PBool b => b
  | PNum (Fin q) => negb (Qeq_bool q 0)
  | PNum _ => true
  | PStr s => nonempty s
  | PList [] => false
  | PList (_ :: _) => true
  | PDict [] => false
  | PDict (_ :: _) => true
  end.

(** The number a value stands for in a comparison: [True] is 1 and [False]
    is 0. *)
Definition as_number (v : pyval) : option pynum :=
  match v with
  | PBool true => Some (Fin 1)
  | PBool false => Some (Fin 0)
  | PNum n => Some n
  | _ => None
  end.

(** [a > b] where one operand at least is a number: a [TypeError] unless both
    are.  (Python also orders two strings or two lists; the right operand
    here is always 0, 50, 60 or a confidence that compared greater than a
    number, see [best_confidence_number].) *)
Definition py_gt (a b : pyval) : result bool :=
  match as_number a, as_number b with
  | Some x, Some y => Ok (num_gt x y)
  | _, _ => Raise TypeError
  end.

(** [v[k]] for a string key [k]: a dict without [k] raises [KeyError],
    anything that is not a dict raises [TypeError]. *)
Definition py_getitem (v : pyval) (k : string) : result pyval :=
  match v with
  | PDict d =>
      match lookup k d with
      | Some x => Ok x
      | None => Raise KeyError
      end
  | _ => Raise TypeError
  end.

(** [v.get(k)]: [None] when the dict has no [k]; only a dict has [get]. *)
Definition py_get (v : pyval) (k : string) : result pyval :=
  match v with
  | PDict d =>
      match lookup k d with
      | Some x => Ok x
      | None => Ok PNone
      end
  | _ => Raise AttributeError
  end.

End PyVal.

Import PyVal.

(** ** Documents, replies and the remote services *)

(** One image of a page, with its URL and caption as Notion sends them, and
    the dict that [fetch_page_content] returns. *)
Record image : Type := { url : string; caption : string }.

Record content : Type := { text : string; images : list image }.

(** The dict [best_match] of [search_all_topics]. *)
Record match_ : Type :=
  { m_topic : string; m_content : content; m_confidence : pyval }.

(** The JSON object that [chat] answers with on success; [b_topic] is
    [None] and [b_available_topics] is present on the fallback path only. *)
Record body : Type :=
  { b_topic : option string;
    b_response : option string;
    b_confidence : pyval;
    b_source : string;
    b_available_topics : option (list string);
    b_images : list image }.

Inductive payload : Type :=
| ErrorBody (error : string)
| ChatBody (b : body).

(** What a Flask view returns: [jsonify(...)] alone has status 200. *)
Record http : Type := { status : Z; payload_of : payload }.

(** A remote call as it is observed, with what came back: [None] is a raised
    exception; the text of a completion may itself be [None]. *)
Inductive event : Type :=
| Fetched (page_id : string) (r : option content)
| Completed (model : string) (temperature : Q) (prompt : string)
            (r : option (option string))
| Printed (line : string).

(** Everything that the resolution calls and does not define: the state of
    the two services, what the Notion fetch and the Groq completion answer in
    a given state (a service may answer the same call differently later),
    [json.loads], and the catalog read from [notion_sources.json]. *)
Record env : Type :=
  { World : Type;
    notion_page : string -> World -> option content * World;
    groq_chat : string -> Q -> string -> World
                -> option (option string) * World;
    json_loads : string -> option pyval;
    NOTION_PAGES : list (string * string) }.

Record state (E : env) : Type := { world : World E; log : list event }.

Arguments world {E} s.
Arguments log {E} s.

(** ** Computations that call the services and may raise *)

Definition M (E : env) (A : Type) : Type := state E -> result A * state E.

Definition ret {E : env} {A : Type} (a : A) : M E A := fun s => (Ok a, s).

Definition raise {E : env} {A : Type} (e : exn) : M E A :=
  fun s => (Raise e, s).

Definition bind {E : env} {A B : Type} (m : M E A) (k : A -> M E B) : M E B :=
  fun s =>
    match m s with
    | (Ok a, s') => k a s'
    | (Raise e, s') => (Raise e, s')
    end.

Definition lift {E : env} {A : Type} (r : result A) : M E A :=
  fun s => (r, s).

(** [try: m except: handler] with a bare [except]. *)
Definition try_except {E : env} {A : Type} (m handler : M E A) : M E A :=
  fun s =>
    match m s with
    | (Ok a, s') => (Ok a, s')
    | (Raise _, s') => handler s'
    end.

Declare Scope py_scope.
Delimit Scope py_scope with py.
Notation "x <- m ;; k" := (bind m (fun x => k))
  (at level 61, m at next level, right associativity) : py_scope.
Notation "m ;; k" := (bind m (fun _ => k))
  (at level 61, right associativity) : py_scope.
Local Open Scope py_scope.

(** A [for] loop that threads its variables through the body. *)
Fixpoint for_each {E : env} {A B : Type} (loop_body : A -> B -> M E A)
  (items : list B) (acc : A) : M E A :=
  match items with
  | [] => ret acc
  | x :: rest => acc' <- loop_body acc x ;; for_each loop_body rest acc'
  end.

(** ** The application *)

Section App.

Variable E : env.

Definition MODEL : string := "llama-3.1-8b-instant".

(** [fetch_page_content(page_id)].  The list call of the Notion client and
    the flattening of the blocks it returns into the dict with [text] (a
    string) and [images] are taken together as the service [notion_page];
    [None] stands for an exception raised on the way, which nothing
    catches. *)
Definition fetch_page_content (page_id : string) : M E content :=
  fun s =>
    let (r, w) := notion_page E page_id (world s) in
    (match r with Some c => Ok c | None => Raise NotionError end,
     {| world := w; log := (log s ++ [Fetched page_id r])%list |}).

(** [groq_client.chat.completions.create(...)] followed by
    [.choices[0].message.content]. *)
Definition completion (temperature : Q) (prompt : string)
  : M E (option string) :=
  fun s =>
    let (r, w) := groq_chat E MODEL temperature prompt (world s) in
    (match r with Some c => Ok c | None => Raise GroqError end,
     {| world := w;
        log := (log s ++ [Completed MODEL temperature prompt r])%list |}).

Definition print (line : string) : M E unit :=
  fun s => (Ok tt, {| world := world s; log := (log s ++ [Printed line])%list |}).

(** [json.loads(x)]: a [TypeError] on [None], a decoding error on text that
    is not JSON. *)
Definition loads (x : option string) : result pyval :=
  match x with
  | None => Raise TypeError
  | Some txt =>
      match json_loads E txt with
      | Some v => Ok v
      | None => Raise JSONDecodeError
      end
  end.

(** [find_relevant_topics(query)] *)
Definition find_relevant_topics (query : string) : list string :=
  let query_lower := lower query in
  fold_left
    (fun relevant_topics topic =>
       if str_in (lower topic) query_lower
       then (relevant_topics ++ [topic])%list
       else relevant_topics)
    (keys (NOTION_PAGES E)) [].

(** The f-string [relevance_prompt] of [check_content_relevance]. *)
Definition relevance_prompt (query text_preview : string) : string :=
  nl
  ++ "    Analyze if the following documentation content can answer the user's question."
  ++ nl ++ "    " ++ nl
  ++ "    User Question: " ++ query ++ nl
  ++ "    " ++ nl
  ++ "    Documentation Content Preview: " ++ text_preview ++ nl
  ++ "    " ++ nl
  ++ "    Respond with ONLY a JSON object in this exact format:" ++ nl
  ++ "    {" ++ dq ++ "relevant" ++ dq ++ ": true/false, "
  ++ dq ++ "confidence" ++ dq ++ ": 0-100, "
  ++ dq ++ "reason" ++ dq ++ ": " ++ dq ++ "brief explanation" ++ dq ++ "}"
  ++ nl ++ "    ".

(** The dict returned by the [except] branch. *)
Definition failed_relevance : pyval :=
  PDict [("relevant", PBool false);
         ("confidence", PInt 0);
         ("reason", PStr "Failed to parse relevance")].

(** [text_preview] in [check_content_relevance]:
    [text_content[:1500] if text_content else ""]. *)
Definition text_preview (content : content) : string :=
  let text_content := text content in
  if nonempty text_content then take 1500 text_content else EmptyString.

(** [check_content_relevance(query, content)] *)
Definition check_content_relevance (query : string) (content : content)
  : M E pyval :=
  try_except
    (response <- completion (1 # 10)
                   (relevance_prompt query (text_preview content)) ;;
     result <- lift (loads response) ;;
     ret result)
    (ret failed_relevance).

(** The test [relevance["relevant"] and relevance["confidence"] > bound]:
    the confidence is looked up only when [relevant] is true. *)
Definition relevant_above (relevance bound : pyval) : result bool :=
  match py_getitem relevance "relevant" with
  | Raise e => Raise e
  | Ok relevant =>
      if truthy relevant then
        match py_getitem relevance "confidence" with
        | Raise e => Raise e
        | Ok confidence => py_gt confidence bound
        end
      else Ok false
  end.

(** The variables of the loop of [search_all_topics]. *)
Record scan : Type :=
  { best_match : option match_;
    best_confidence : pyval;
    all_contents : list (string * content) }.

Definition scan_start : scan :=
  {| best_match := None; best_confidence := PInt 0; all_contents := [] |}.

(** The body of the loop of [search_all_topics]. *)
Definition search_topic (query : string) (acc : scan) (item : string * string)
  : M E scan :=
  let (topic, url) := item in
  let page_id := extract_page_id url in
  content <- fetch_page_content page_id ;;
  if nonempty (text content) then
    let all_contents' := dict_set topic content (all_contents acc) in
    relevance <- check_content_relevance query content ;;
    better <- lift (relevant_above relevance (best_confidence acc)) ;;
    if better then
      best_confidence' <- lift (py_getitem relevance "confidence") ;;
      confidence <- lift (py_getitem relevance "confidence") ;;
      ret {| best_match :=
               Some {| m_topic := topic; m_content := content;
                       m_confidence := confidence |};
             best_confidence := best_confidence';
             all_contents := all_contents' |}
    else
      ret {| best_match := best_match acc;
             best_confidence := best_confidence acc;
             all_contents := all_contents' |}
  else ret acc.

(** [search_all_topics(query)] *)
Definition search_all_topics (query : string)
  : M E (option match_ * list (string * content)) :=
  acc <- for_each (search_topic query) (NOTION_PAGES E) scan_start ;;
  ret (best_match acc, all_contents acc).

(** [ask_groq(prompt)] *)
Definition ask_groq (prompt : string) : M E (option string) :=
  completion (3 # 10) prompt.

(** The f-string [prompt] of the keyword branch of [chat]. *)
Definition keyword_prompt (topic : string) (content_data : content)
  (query : string) : string :=
  nl
  ++ "You are a helpful assistant for Omnivoltaic's internal documentation."
  ++ nl ++ nl
  ++ "Context from '" ++ topic ++ "' documentation:" ++ nl
  ++ take 7000 (text content_data) ++ nl ++ nl
  ++ "User Question: " ++ query ++ nl ++ nl
  ++ "Instructions:" ++ nl
  ++ "- Answer ONLY if the documentation contains relevant information" ++ nl
  ++ "- If the question cannot be answered from this documentation, clearly state: "
  ++ dq ++ "I don't have information about that in the documentation." ++ dq
  ++ nl
  ++ "- Be specific and cite relevant details from the documentation" ++ nl
  ++ "- Keep responses clear and concise" ++ nl
  ++ "- If procedures or steps are involved, present them clearly" ++ nl
  ++ "- If there are images in the documentation that would help answer the question, mention that visual references are available"
  ++ nl.

(** The f-string [prompt] of the semantic branch of [chat]. *)
Definition semantic_prompt (best : match_) (query : string) : string :=
  nl
  ++ "You are a helpful assistant for Omnivoltaic's internal documentation."
  ++ nl ++ nl
  ++ "Context from '" ++ m_topic best ++ "' documentation:" ++ nl
  ++ take 7000 (text (m_content best)) ++ nl ++ nl
  ++ "User Question: " ++ query ++ nl ++ nl
  ++ "Instructions:" ++ nl
  ++ "- Answer based on the documentation provided" ++ nl
  ++ "- Be specific and cite relevant details" ++ nl
  ++ "- Keep responses clear and concise" ++ nl
  ++ "- If there are images in the documentation that would help answer the question, mention that visual references are available"
  ++ nl.

(** The f-string [fallback_prompt] of [chat]. *)
Definition fallback_prompt (query : string) (available_topics : list string)
  : string :=
  nl
  ++ "The user asked: " ++ dq ++ query ++ dq ++ nl ++ nl
  ++ "Unfortunately, this question cannot be answered from the available documentation topics: "
  ++ join ", " available_topics ++ "." ++ nl ++ nl
  ++ "Provide a helpful response that:" ++ nl
  ++ "1. Acknowledges you don't have documentation about this specific topic"
  ++ nl
  ++ "2. Lists what documentation IS available" ++ nl
  ++ "3. Suggests they contact support or rephrase their question" ++ nl
  ++ "4. Be friendly and professional" ++ nl ++ nl
  ++ "Do NOT make up information or pretend to know the answer." ++ nl.

(** [NOTION_PAGES[topic]] *)
Definition page_url (topic : string) : result string :=
  match lookup topic (NOTION_PAGES E) with
  | Some u => Ok u
  | None => Raise KeyError
  end.

(** The loop over [relevant_topics] in [chat]: [Some] response when the
    loop returns from the handler, [None] when it runs to its end. *)
Fixpoint keyword_loop (query : string) (relevant_topics : list string)
  : M E (option http) :=
  match relevant_topics with
  | [] => ret None
  | topic :: rest =>
      u <- lift (page_url topic) ;;
      let page_id := extract_page_id u in
      content_data <- fetch_page_content page_id ;;
      if nonempty (text content_data) then
        relevance <- check_content_relevance query content_data ;;
        strong <- lift (relevant_above relevance (PInt 60)) ;;
        if strong then
          answer <- ask_groq (keyword_prompt topic content_data query) ;;
          confidence <- lift (py_getitem relevance "confidence") ;;
          ret (Some {| status := 200;
                       payload_of :=
                         ChatBody {| b_topic := Some topic;
                                     b_response := answer;
                                     b_confidence := confidence;
                                     b_source := "keyword_match";
                                     b_available_topics := None;
                                     b_images := images content_data |} |})
        else keyword_loop query rest
      else keyword_loop query rest
  end.

(** The end of [chat]: the fallback when nothing was found. *)
Definition no_match (query : string) : M E http :=
  let available_topics := keys (NOTION_PAGES E) in
  answer <- ask_groq (fallback_prompt query available_topics) ;;
  ret {| status := 200;
         payload_of :=
           ChatBody {| b_topic := None;
                       b_response := answer;
                       b_confidence := PInt 0;
                       b_source := "no_match";
                       b_available_topics := Some available_topics;
                       b_images := [] |} |}.

(** [chat] from the [print] on: the search over all topics. *)
Definition semantic_phase (query : string) : M E http :=
  print "No strong keyword match, searching all topics..." ;;
  found <- search_all_topics query ;;
  match fst found with
  | Some best =>
      above <- lift (py_gt (m_confidence best) (PInt 50)) ;;
      if above then
        answer <- ask_groq (semantic_prompt best query) ;;
        ret {| status := 200;
               payload_of :=
                 ChatBody {| b_topic := Some (m_topic best);
                             b_response := answer;
                             b_confidence := m_confidence best;
                             b_source := "semantic_search";
                             b_available_topics := None;
                             b_images := images (m_content best) |} |}
      else no_match query
  | None => no_match query
  end.

(** [chat()], on the decoded body [data] of the request.  A query that is
    true but not a string fails at [query.lower()] in
    [find_relevant_topics]. *)
Definition chat (data : pyval) : M E http :=
  query <- lift (py_get data "query") ;;
  if negb (truthy query) then
    ret {| status := 400; payload_of := ErrorBody "No query provided" |}
  else
    match query with
    | PStr q =>
        let relevant_topics := find_relevant_topics q in
        returned <-
          match relevant_topics with
          | [] => ret None
          | _ :: _ => keyword_loop q relevant_topics
          end ;;
        match returned with
        | Some response => ret response
        | None => semantic_phase q
        end
    | _ => raise AttributeError
    end.

End App.

(** ** Observations on a run, for the statements below *)

Section Observations.

Variable E : env.

(** A request body that carries [query]. *)
Definition request (query : string) : pyval := PDict [("query", PStr query)].

(** The state reached from [s] when further calls, recorded in [evs], have
    left the services in world [w]. *)
Definition after (s : state E) (w : World E) (evs : list event) : state E :=
  {| world := w; log := (log s ++ evs)%list |}.

(** What [check_content_relevance] returns once the completion call has come
    back with [r]: the decoded reply, or the dict of the [except] branch. *)
Definition verdict_of (r : option (option string)) : pyval :=
  match r with
  | Some x =>
      match loads E x with
      | Ok v => v
      | Raise _ => failed_relevance
      end
  | None => failed_relevance
  end.

(** In world [w] the page [page] is fetched as [c], whose text is not empty,
    and the completion call that asks whether [c] answers [q] comes back
    with [r]; [w'] is the world after the two calls. *)
Definition scores (q page : string) (w : World E) (c : content)
  (r : option (option string)) (w' : World E) : Prop :=
  exists w1,
    notion_page E (extract_page_id page) w = (Some c, w1)
    /\ nonempty (text c) = true
    /\ groq_chat E MODEL (1 # 10) (relevance_prompt q (text_preview c)) w1
       = (r, w').

(** The two events that [scores] leaves in the log. *)
Definition scored_events (q page : string) (c : content)
  (r : option (option string)) : list event :=
  [Fetched (extract_page_id page) (Some c);
   Completed MODEL (1 # 10) (relevance_prompt q (text_preview c)) r].

(** The completion call raised, or its reply is not JSON text. *)
Definition unparseable (r : option (option string)) : Prop :=
  match r with
  | Some (Some txt) => json_loads E txt = None
  | _ => True
  end.

(** A verdict that does not pass the test against [bound]: not relevant, or
    with a confidence that is not greater. *)
Definition not_above (bound v : pyval) : Prop :=
  relevant_above v bound = Ok false.

(** A verdict that is not relevant, or whose confidence is less than
    [bound]. *)
Definition strictly_below (bound v : pyval) : Prop :=
  exists relevant,
    py_getitem v "relevant" = Ok relevant
    /\ (truthy relevant = false
        \/ exists confidence,
             py_getitem v "confidence" = Ok confidence
             /\ py_gt bound confidence = Ok true).

(** One page examined without a match, from world [w] to world [w'] with
    the events [evs]: its text is empty, or it is scored with a verdict
    that satisfies [P]. *)
Definition turn_ok (q : string) (P : pyval -> Prop) (page : string)
  (w : World E) (evs : list event) (w' : World E) : Prop :=
  (exists c,
      notion_page E (extract_page_id page) w = (Some c, w')
      /\ nonempty (text c) = false
      /\ evs = [Fetched (extract_page_id page) (Some c)])
  \/ (exists c r,
         scores q page w c r w'
         /\ P (verdict_of r)
         /\ evs = scored_events q page c r).

(** The same for a list of pages examined one after the other. *)
Fixpoint scan_ok (q : string) (P : pyval -> Prop) (pages : list string)
  (w : World E) (evs : list event) (w' : World E) : Prop :=
  match pages with
  | [] => evs = [] /\ w' = w
  | page :: rest =>
      exists w1 evs1 evs2,
        turn_ok q P page w evs1 w1
        /\ scan_ok q P rest w1 evs2 w'
        /\ evs = (evs1 ++ evs2)%list
  end.

(** The pages of the topics [topics], in the same order. *)
Definition pages_of (topics : list string) : list string :=
  flat_map
    (fun topic =>
       match lookup topic (NOTION_PAGES E) with
       | Some page => [page]
       | None => []
       end)
    topics.

(** Among the events [evs], [c] was fetched from the page behind [url] with
    a text that is not empty, and the model's reply on it decoded to [v]. *)
Definition examined (q url : string) (c : content) (v : pyval)
  (evs : list event) : Prop :=
  In (Fetched (extract_page_id url) (Some c)) evs
  /\ nonempty (text c) = true
  /\ exists r,
       In (Completed MODEL (1 # 10) (relevance_prompt q (text_preview c))
             (Some (Some r))) evs
       /\ json_loads E r = Some v.

(** The prompts sent through [ask_groq] (the calls at temperature 0.3) among
    the events [evs]. *)
Definition ask_prompts (evs : list event) : list string :=
  flat_map
    (fun e =>
       match e with
       | Completed _ temperature prompt _ =>
           if Qeq_bool temperature (3 # 10) then [prompt] else []
       | _ => []
       end)
    evs.

(** What the loop of [search_all_topics] holds after the events [evs]: no
    answer has been asked for, and the best match, when there is one, was
    fetched from a page of the catalog and given a relevant verdict [v] with
    a confidence above 0, which is the confidence on record. *)
Definition tracked (q : string) (acc : scan) (evs : list event) : Prop :=
  ask_prompts evs = []
  /\ match best_match acc with
     | None => best_confidence acc = PInt 0
     | Some m =>
         best_confidence acc = m_confidence m
         /\ exists page v,
              In (m_topic m, page) (NOTION_PAGES E)
              /\ examined q page (m_content m) v evs
              /\ relevant_above v (PInt 0) = Ok true
              /\ py_getitem v "confidence" = Ok (m_confidence m)
     end.

(** The reply [b] names [topic], whose page was fetched as [c] among the
    events [evs] and given a relevant verdict above [bound]; the reply
    carries the confidence of that verdict and the images of [c]. *)
Definition selected (q : string) (bound : Z) (topic : string) (c : content)
  (b : body) (evs : list event) : Prop :=
  b_topic b = Some topic
  /\ b_images b = images c
  /\ exists page v,
       In (topic, page) (NOTION_PAGES E)
       /\ examined q page c v evs
       /\ relevant_above v (PInt bound) = Ok true
       /\ py_getitem v "confidence" = Ok (b_confidence b).

(** The three ways in which [chat] answers a query [q] with a body [b],
    after the events [evs]: a keyword match, a semantic match or the
    fallback; each with the one prompt that went through [ask_groq]. *)
Definition outcome (q : string) (b : body) (evs : list event) : Prop :=
  (b_source b = "keyword_match"
   /\ b_available_topics b = None
   /\ exists topic c,
        selected q 60 topic c b evs
        /\ ask_prompts evs = [keyword_prompt topic c q])
  \/ (b_source b = "semantic_search"
      /\ b_available_topics b = None
      /\ exists m,
           selected q 50 (m_topic m) (m_content m) b evs
           /\ m_confidence m = b_confidence b
           /\ ask_prompts evs = [semantic_prompt m q])
  \/ (b_source b = "no_match"
      /\ b_topic b = None
      /\ b_confidence b = PInt 0
      /\ b_images b = []
      /\ b_available_topics b = Some (keys (NOTION_PAGES E))
      /\ ask_prompts evs = [fallback_prompt q (keys (NOTION_PAGES E))]).

End Observations.

(** ** Scripted services, to run the handler on concrete requests *)

Module Script.

(** The text of a verdict as the model is asked to write it, and the value
    [json.loads] decodes it to. *)
Definition verdict_json (relevant confidence : string) : string :=
  "{" ++ dq ++ "relevant" ++ dq ++ ": " ++ relevant ++ ", "
  ++ dq ++ "confidence" ++ dq ++ ": " ++ confidence ++ ", "
  ++ dq ++ "reason" ++ dq ++ ": " ++ dq ++ "scripted" ++ dq ++ "}".

Definition verdict (relevant : bool) (confidence : Z) : pyval :=
  PDict [("relevant", PBool relevant);
         ("confidence", PInt confidence);
         ("reason", PStr "scripted")].

Definition decode_table : list (string * pyval) :=
  [(verdict_json "true" "75", verdict true 75);
   (verdict_json "true" "80", verdict true 80);
   (verdict_json "true" "0", verdict true 0);
   (verdict_json "false" "10", verdict false 10);
   (dq ++ "yes" ++ dq, PStr "yes")].

(** The reply of the scripted model to a relevance prompt: that of the first
    marker found in the prompt, free text when there is none. *)
Fixpoint first_reply (prompt : string) (oracle : list (string * string))
  : string :=
  match oracle with
  | [] => "I cannot tell."
  | (marker, reply) :: rest =>
      if str_in marker prompt then reply else first_reply prompt rest
  end.

(** Services that always answer; the world counts the calls made. *)
Definition scripted (pages : list (string * string))
  (docs : list (string * content)) (oracle : list (string * string)) : env :=
  {| World := nat;
     notion_page := fun page_id n => (lookup page_id docs, S n);
     groq_chat := fun _ temperature prompt n =>
       (if Qeq_bool temperature (1 # 10)
        then Some (Some (first_reply prompt oracle))
        else Some (Some "Here is what the documentation says."),
        S n);
     json_loads := fun txt => lookup txt decode_table;
     NOTION_PAGES := pages |}.

Definition start (E : env) (w : World E) : state E :=
  {| world := w; log := [] |}.

Definition diagram : image :=
  {| url := "https://example.com/wiring.png"; caption := "Wiring" |}.

Definition battery_doc : content :=
  {| text := "Battery care: keep the pack between 20 and 80 percent.";
     images := [diagram] |}.

Definition charger_doc : content :=
  {| text := "Charger setup: use the supplied cable."; images := [] |}.

(** The catalog of the Battery and Charger scenario. *)
Definition battery_pages : list (string * string) :=
  [("Battery", "url-ending-id1"); ("Charger", "url-ending-id2")].

Definition battery_docs : list (string * content) :=
  [("id1", battery_doc); ("id2", charger_doc)].

(** Battery is scored relevant with confidence 80, Charger not relevant. *)
Definition battery_env : env :=
  scripted battery_pages battery_docs
    [("Battery care", verdict_json "true" "80");
     ("Charger setup", verdict_json "false" "10")].

(** The same catalog with a model that finds nothing relevant. *)
Definition quiet_env : env :=
  scripted battery_pages battery_docs [(EmptyString, verdict_json "false" "10")].

(** The same catalog with a model that never writes JSON. *)
Definition garbled_env : env := scripted battery_pages battery_docs [].

(** The same catalog with a model that writes a JSON string, not an
    object. *)
Definition stringy_env : env :=
  scripted battery_pages battery_docs [(EmptyString, dq ++ "yes" ++ dq)].

(** The catalog [{A: doc1, B: doc2}] with both topics scored 75. *)
Definition tie_env : env :=
  scripted [("A", "doc1"); ("B", "doc2")]
    [("doc1", {| text := "First manual."; images := [] |});
     ("doc2", {| text := "Second manual."; images := [diagram] |})]
    [(EmptyString, verdict_json "true" "75")].

(** The same with both topics scored relevant with confidence 0. *)
Definition zero_env : env :=
  scripted [("A", "doc1"); ("B", "doc2")]
    [("doc1", {| text := "First manual."; images := [] |});
     ("doc2", {| text := "Second manual."; images := [diagram] |})]
    [(EmptyString, verdict_json "true" "0")].

End Script.

(** ** The flattening of a Notion page *)

Module Blocks.

(** Sequencing of steps that may raise, without calls to the services. *)
Definition rbind {A B : Type} (r : result A) (k : A -> result B) : result B :=
  match r with
  | Ok a => k a
  | Raise e => Raise e
  end.

Notation "'let*' x ':=' r 'in' k" := (rbind r (fun x => k))
  (at level 10, x name, r at level 100, k at level 200).

Definition is_true_dec (b : bool) : {b = true} + {b = false} :=
  match b with
  | true => left eq_refl
  | false => right eq_refl
  end.

(** [for x in v]: the items of a list, the keys of a dict, the characters of
    a string; nothing else can be iterated. *)
Definition py_iter (v : pyval) : result (list pyval) :=
  match v with
  | PList items => Ok items
  | PDict entries => Ok (map PStr (keys entries))
  | PStr s =>
      Ok (map (fun c => PStr (String c EmptyString)) (list_ascii_of_string s))
  | _ => Raise TypeError
  end.

(** [d[key]] on the entries of a dict decoded from JSON, whose keys are all
    strings: a list or a dict cannot be a key at all, anything else that is
    not a string is a key that is absent. *)
Definition dict_subscript (d : list (string * pyval)) (key : pyval)
  : result pyval :=
  match key with
  | PStr k =>
      match lookup k d with
      | Some x => Ok x
      | None => Raise KeyError
      end
  | PList _ | PDict _ => Raise TypeError
  | _ => Raise KeyError
  end.

(** [v[0]] for a value [v] that is true.  (On an empty list or string,
    which are false, Python raises [IndexError].) *)
Definition index0 (v : pyval) : truthy v = true -> result pyval :=
  match v as v0 return truthy v0 = true -> result pyval with
  | PList (x :: _) => fun _ => Ok x
  | PList [] => fun H => match Bool.diff_false_true H with end
  | PStr (String c _) => fun _ => Ok (PStr (String c EmptyString))
  | PStr EmptyString => fun H => match Bool.diff_false_true H with end
  | PDict _ => fun _ => Raise KeyError
  | PNone | PBool _ | PNum _ => fun _ => Raise TypeError
  end.

(** [v == s] for a string [s]. *)
Definition py_eq_str (v : pyval) (s : string) : bool :=
  match v with
  | PStr t => String.eqb t s
  | _ => false
  end.

(** The strings of a list of values, when they all are strings. *)
Fixpoint all_strings (l : list pyval) : result (list string) :=
  match l with
  | [] => Ok []
  | PStr s :: rest =>
      let* strings := all_strings rest in Ok (s :: strings)
  | _ :: _ => Raise TypeError
  end.

(** [sep.join(l)]: a [TypeError] unless every item is a string. *)
Definition py_join (sep : string) (l : list pyval) : result string :=
  let* strings := all_strings l in Ok (join sep strings).

(** [[f(x) for x in l]] *)
Fixpoint comprehension (f : pyval -> result pyval) (l : list pyval)
  : result (list pyval) :=
  match l with
  | [] => Ok []
  | x :: rest =>
      let* y := f x in
      let* ys := comprehension f rest in
      Ok (y :: ys)
  end.

(** An entry of [images]: the URL is whatever true value the block holds
    under [url]. *)
Record page_image : Type := { i_url : pyval; i_caption : string }.

(** The dict that [fetch_page_content] builds. *)
Record page : Type := { p_text : string; p_images : list page_image }.

(** The part of the loop body of [fetch_page_content] under
    [if block_type == "image"], from [image_data] on: the entry to append,
    if any. *)
Definition image_entry (image_data : pyval) : result (option page_image) :=
  let* kind := py_get image_data "type" in
  let* image_url :=
    if py_eq_str kind "external" then
      let* hosted := py_getitem image_data "external" in
      py_getitem hosted "url"
    else
      let* kind' := py_get image_data "type" in
      if py_eq_str kind' "file" then
        let* hosted := py_getitem image_data "file" in
        py_getitem hosted "url"
      else Ok PNone in
  let* tested := py_get image_data "caption" in
  let* caption :=
    if truthy tested then
      let* caption_value := py_getitem image_data "caption" in
      let* parts := py_iter caption_value in
      let* plain := comprehension (fun t => py_getitem t "plain_text") parts in
      py_join " " plain
    else Ok EmptyString in
  Ok (if truthy image_url
      then Some {| i_url := image_url; i_caption := caption |}
      else None).

(** The body of the loop of [fetch_page_content] on one block, with the
    lists [texts] and [images] built so far.  The second evaluation of
    [block[block_type]["rich_text"]] gives the value that was just tested. *)
Definition flatten_block (acc : list pyval * list page_image) (block : pyval)
  : result (list pyval * list page_image) :=
  let (texts, images) := acc in
  match block with
  | PDict d =>
      let* block_type := py_get block "type" in
      let* texts' :=
        if truthy block_type then
          let* inner := dict_subscript d block_type in
          let* rich_text := py_get inner "rich_text" in
          match is_true_dec (truthy rich_text) with
          | left is_true =>
              let* first := index0 rich_text is_true in
              let* plain_text := py_getitem first "plain_text" in
              Ok (texts ++ [plain_text])%list
          | right _ => Ok texts
          end
        else Ok texts in
      let* images' :=
        if py_eq_str block_type "image" then
          let* image_data := py_getitem block "image" in
          let* entry := image_entry image_data in
          Ok (match entry with
              | Some img => (images ++ [img])%list
              | None => images
              end)
        else Ok images in
      Ok (texts', images')
  | _ => Raise AttributeError
  end.

(** The loop over the blocks. *)
Fixpoint flatten_loop (blocks : list pyval)
  (acc : list pyval * list page_image)
  : result (list pyval * list page_image) :=
  match blocks with
  | [] => Ok acc
  | block :: rest =>
      let* acc' := flatten_block acc block in flatten_loop rest acc'
  end.

(** [fetch_page_content] once the call of the client has returned
    [blocks]. *)
Definition flatten_blocks (blocks : pyval) : result page :=
  let* results := py_getitem blocks "results" in
  let* items := py_iter results in
  let* acc := flatten_loop items ([], []) in
  let* text := py_join " " (fst acc) in
  Ok {| p_text := text; p_images := snd acc |}.

(** *** Blocks as Notion sends them *)

(** A rich-text segment. *)
Definition segment (plain_text : string) : pyval :=
  PDict [("plain_text", PStr plain_text)].

(** A block of a kind that carries rich text (paragraph, heading, ...), an
    image block, hosted by Notion or not, and a block without content. *)
Inductive block_shape : Type :=
| TextBlock (kind : string) (segments : list string)
| ImageBlock (external : bool) (link : string) (caption_segments : list string)
| BareBlock (kind : string).

Definition hosting (external : bool) : string :=
  if external then "external" else "file".

Definition block_json (b : block_shape) : pyval :=
  match b with
  | TextBlock kind segments =>
      PDict [("type", PStr kind);
             (kind, PDict [("rich_text", PList (map segment segments))])]
  | ImageBlock external link caption_segments =>
      PDict [("type", PStr "image");
             ("image",
              PDict [("type", PStr (hosting external));
                     (hosting external, PDict [("url", PStr link)]);
                     ("caption", PList (map segment caption_segments))])]
  | BareBlock kind => PDict [("type", PStr kind); (kind, PDict [])]
  end.

(** The kinds for which [block_json] is what Notion sends: the key of the
    content is not the key ["type"] itself, and an image is an
    [ImageBlock]. *)
Definition kind_ok (b : block_shape) : bool :=
  match b with
  | TextBlock kind _ | BareBlock kind =>
      nonempty kind && negb (String.eqb kind "type")
      && negb (String.eqb kind "image")
  | ImageBlock _ _ _ => true
  end.

(** What a block is expected to give: the first segment of its rich text,
    and for an image with a link the link and the whole caption. *)
Definition shape_texts (b : block_shape) : list string :=
  match b with
  | TextBlock _ (first :: _) => [first]
  | _ => []
  end.

Definition shape_images (b : block_shape) : list page_image :=
  match b with
  | ImageBlock _ link caption_segments =>
      if nonempty link
      then [{| i_url := PStr link; i_caption := join " " caption_segments |}]
      else []
  | _ => []
  end.

Definition listing (blocks : list pyval) : pyval :=
  PDict [("object", PStr "list"); ("results", PList blocks)].

End Blocks.

(** ** The listing of the topics *)

(** The JSON object of [get_topics]. *)
Record topics_body : Type := { topics : list string; count : Z }.

(** [get_topics()] *)
Definition get_topics (E : env) : topics_body :=
  {| topics := keys (NOTION_PAGES E);
     count := Z.of_nat (length (NOTION_PAGES E)) |}.

(** The ids of the pages fetched among the events [evs], in order. *)
Definition fetched_ids (evs : list event) : list string :=
  flat_map
    (fun e =>
       match e with
       | Fetched page_id _ => [page_id]
       | _ => []
       end)
    evs.

(** The events of one turn of the loop of [search_all_topics] on the page
    [page_id]: the fetch, then, when the page has a text, the one relevance
    call, on the preview of that text. *)
Definition turn_events (q page_id : string) (evs : list event) : Prop :=
  exists c,
    (nonempty (text c) = false /\ evs = [Fetched page_id (Some c)])
    \/ (nonempty (text c) = true
        /\ exists r,
             evs = [Fetched page_id (Some c);
                    Completed MODEL (1 # 10)
                      (relevance_prompt q (text_preview c)) r]).

(** Where an exception [e] that leaves the resolution was raised, as the
    last call [ev] of the request shows: in a fetch ([NotionError] stands
    for whatever [fetch_page_content] raised); in reading [relevant] and
    [confidence] of the verdict that a relevance call (temperature 0.1) has
    just returned and comparing the confidence with a number; or in
    [ask_groq] (temperature 0.3; [GroqError] stands for what it raised). *)
Definition raise_site (E : env) (e : exn) (ev : event) : Prop :=
  match ev with
  | Fetched _ r => r = None /\ e = NotionError
  | Completed _ temperature _ r =>
      if Qeq_bool temperature (3 # 10)
      then r = None /\ e = GroqError
      else (e = KeyError \/ e = TypeError)
           /\ exists bound n,
                as_number bound = Some n
                /\ relevant_above (verdict_of E r) bound = Raise e
  | Printed _ => False
  end.

(** The line that [chat] prints before the search over all topics. *)
Definition search_line : event :=
  Printed "No strong keyword match, searching all topics...".

(** ** Facts on strings *)

Section StringFacts.

Lemma split_on_not_nil (sep : ascii) (s : string) : split_on sep s <> [].
Proof.
  induction s as [|c rest IH]; simpl; [discriminate|].
  destruct (Ascii.eqb c sep); [discriminate|].
  destruct (split_on sep rest); discriminate.
Qed.

Lemma split_on_absent (sep : ascii) (s : string) :
  occurs sep s = false -> split_on sep s = [s].
Proof.
  induction s as [|c rest IH]; simpl; [reflexivity|].
  intros H. apply orb_false_iff in H as [Hc Hrest].
  rewrite Hc, (IH Hrest). reflexivity.
Qed.

Lemma last_split_on_cons (sep c : ascii) (s d : string) :
  Ascii.eqb c sep = false ->
  last (split_on sep (String c s)) d
  = match split_on sep s with
    | [_] => String c (last (split_on sep s) d)
    | _ => last (split_on sep s) d
    end.
Proof.
  intros Hc. simpl split_on. rewrite Hc.
  pose proof (split_on_not_nil sep s) as Hne.
  destruct (split_on sep s) as [|f [|g fs]]; [contradiction| |]; reflexivity.
Qed.

Lemma last_split_on_app (sep : ascii) (pre suf d : string) :
  last (split_on sep (pre ++ String sep suf)) d = last (split_on sep suf) d.
Proof.
  induction pre as [|c pre IH]; simpl append.
  - simpl split_on. rewrite Ascii.eqb_refl.
    pose proof (split_on_not_nil sep suf) as Hne.
    destruct (split_on sep suf); [contradiction|reflexivity].
  - destruct (Ascii.eqb c sep) eqn:Hc.
    + simpl split_on. rewrite Hc.
      pose proof (split_on_not_nil sep (pre ++ String sep suf)) as Hne.
      destruct (split_on sep (pre ++ String sep suf)) eqn:E;
        [contradiction|]. exact IH.
    + rewrite (last_split_on_cons _ _ _ _ Hc).
      assert (Hlen : exists f g fs,
                 split_on sep (pre ++ String sep suf) = f :: g :: fs).
      { clear. induction pre as [|a pre IHp]; simpl.
        - rewrite Ascii.eqb_refl.
          pose proof (split_on_not_nil sep suf) as Hne.
          destruct (split_on sep suf) as [|g fs]; [contradiction|].
          now exists EmptyString, g, fs.
        - destruct IHp as (f & g & fs & E). rewrite E.
          destruct (Ascii.eqb a sep).
          + now exists EmptyString, f, (g :: fs).
          + now exists (String a f), g, fs. }
      destruct Hlen as (f & g & fs & E). rewrite E in *. exact IH.
Qed.

Lemma startswith_iff (p s : string) :
  startswith p s = true <-> exists rest, s = p ++ rest.
Proof.
  revert s. induction p as [|a p IH]; intros s; simpl.
  - split; [intros _; now exists s|reflexivity].
  - destruct s as [|b s].
    + split; [discriminate|intros [rest H]; discriminate].
    + rewrite andb_true_iff, Ascii.eqb_eq, IH. split.
      * intros [-> [rest ->]]. now exists rest.
      * intros [rest H]. injection H as -> ->. split; [reflexivity|].
        now exists rest.
Qed.

(** [p in s] holds exactly when [s] is [p] between two strings. *)
Lemma str_in_iff (p s : string) :
  str_in p s = true <-> exists before after, s = before ++ p ++ after.
Proof.
  induction s as [|c s IH].
  - simpl. rewrite orb_false_r, startswith_iff. split.
    + intros [rest ->]. now exists EmptyString, rest.
    + intros [[|b before] [after H]]; [now exists after|discriminate].
  - simpl str_in. rewrite orb_true_iff, startswith_iff, IH. split.
    + intros [[rest ->]|(before & after & ->)].
      * now exists EmptyString, rest.
      * now exists (String c before), after.
    + intros [[|b before] [after H]].
      * left. now exists after.
      * right. injection H as -> ->. now exists before, after.
Qed.

End StringFacts.

(** C7 (as the code has it): the page id is what follows the last hyphen of
    the URL, so [abc123def456] for the documented example; a URL without a
    hyphen is returned whole. *)
Theorem extract_page_id_trailing :
  extract_page_id "https://example.com/Battery-Guide-abc123def456"
  = "abc123def456"
  /\ (forall pre suf : string,
         occurs "-" suf = false ->
         extract_page_id (pre ++ "-" ++ suf) = suf)
  /\ (forall url : string, occurs "-" url = false -> extract_page_id url = url).
Proof.
  split; [reflexivity|]. split.
  - intros pre suf H. unfold extract_page_id. simpl append.
    rewrite last_split_on_app, (split_on_absent _ _ H). reflexivity.
  - intros url H. unfold extract_page_id.
    rewrite (split_on_absent _ _ H). reflexivity.
Qed.

Lemma extract_page_id_trailing_witness :
  occurs "-" "id1" = false
  /\ extract_page_id ("url-ending" ++ "-" ++ "id1") = "id1"
  /\ extract_page_id "id1" = "id1".
Proof.
  split; [reflexivity|]. split.
  - apply (proj1 (proj2 extract_page_id_trailing)). reflexivity.
  - apply (proj2 (proj2 extract_page_id_trailing)). reflexivity.
Defined.

(** C7 (as the spec states it) fails: without a hyphen the result is the
    input, not the empty string. *)
Lemma extract_page_id_no_hyphen_not_empty :
  occurs "-" "abc123def456" = false
  /\ extract_page_id "abc123def456" = "abc123def456"
  /\ extract_page_id "abc123def456" <> EmptyString.
Proof.
  split; [reflexivity|]. split; [reflexivity|discriminate].
Qed.

(** ** Facts on Python values *)

Section ValueFacts.

Lemma lookup_In {V : Type} (k : string) (d : list (string * V)) (v : V) :
  lookup k d = Some v -> In (k, v) d.
Proof.
  induction d as [|[k' v'] d IH]; simpl; [discriminate|].
  destruct (String.eqb k' k) eqn:Hk.
  - apply String.eqb_eq in Hk. intros H. injection H as ->. subst. now left.
  - intros H. right. now apply IH.
Qed.

Lemma lookup_keys {V : Type} (k : string) (d : list (string * V)) :
  In k (keys d) -> exists v, lookup k d = Some v.
Proof.
  unfold keys. induction d as [|[k' v'] d IH]; simpl; [contradiction|].
  intros [->|H].
  - rewrite String.eqb_refl. now exists v'.
  - destruct (String.eqb k' k); [now exists v'|now apply IH].
Qed.

Lemma num_gt_trans (a b c : pynum) :
  num_gt a b = true -> num_gt b c = true -> num_gt a c = true.
Proof.
  destruct a as [x| | |], b as [y| | |], c as [z| | |]; simpl;
    try discriminate; try reflexivity.
  rewrite !negb_true_iff. intros Hxy Hyz.
  destruct (Qle_bool x z) eqn:Hxz; [|reflexivity].
  apply Qle_bool_iff in Hxz.
  assert (Hle : (y <= z)%Q -> False).
  { intros H. apply Qle_bool_iff in H. congruence. }
  assert (Hle' : (x <= y)%Q -> False).
  { intros H. apply Qle_bool_iff in H. congruence. }
  apply Qnot_le_lt in Hle, Hle'. exfalso. apply (Qlt_irrefl x).
  apply Qle_lt_trans with z; [exact Hxz|].
  apply Qlt_trans with y; assumption.
Qed.

(** What does not exceed a bound does not exceed a larger one. *)
Lemma num_gt_weaken (a : pynum) (x y : Q) :
  (x <= y)%Q -> num_gt a (Fin x) = false -> num_gt a (Fin y) = false.
Proof.
  destruct a as [q| | |]; simpl; try discriminate; try reflexivity.
  rewrite !negb_false_iff, !Qle_bool_iff. intros Hxy Hq.
  now apply Qle_trans with x.
Qed.

Lemma py_gt_trans (a b c : pyval) :
  py_gt a b = Ok true -> py_gt b c = Ok true -> py_gt a c = Ok true.
Proof.
  unfold py_gt.
  destruct (as_number a) as [x|], (as_number b) as [y|], (as_number c) as [z|];
    try discriminate.
  intros Hab Hbc. injection Hab as Hab. injection Hbc as Hbc.
  now rewrite (num_gt_trans x y z).
Qed.

Lemma py_gt_numbers (a b : pyval) (t : bool) :
  py_gt a b = Ok t ->
  exists x y, as_number a = Some x /\ as_number b = Some y /\ t = num_gt x y.
Proof.
  unfold py_gt. destruct (as_number a) as [x|], (as_number b) as [y|];
    try discriminate.
  intros H. injection H as <-. now exists x, y.
Qed.

(** A reply that is JSON but not an object is returned as it is by
    [check_content_relevance], and the test on it raises in the caller. *)
Example relevant_above_not_a_dict :
  relevant_above (PStr "yes") (PInt 60) = Raise TypeError
  /\ relevant_above (PDict [("relevant", PBool true)]) (PInt 60)
     = Raise KeyError.
Proof. split; reflexivity. Qed.

(** The test on a verdict, read backwards. *)
Lemma relevant_above_true (v bound : pyval) :
  relevant_above v bound = Ok true ->
  exists relevant confidence,
    py_getitem v "relevant" = Ok relevant
    /\ truthy relevant = true
    /\ py_getitem v "confidence" = Ok confidence
    /\ py_gt confidence bound = Ok true.
Proof.
  unfold relevant_above.
  destruct (py_getitem v "relevant") as [relevant|]; [|discriminate].
  destruct (truthy relevant) eqn:Ht; [|discriminate].
  destruct (py_getitem v "confidence") as [confidence|]; [|discriminate].
  intros H. now exists relevant, confidence.
Qed.

Lemma relevant_above_eq (v relevant confidence bound : pyval) :
  py_getitem v "relevant" = Ok relevant ->
  truthy relevant = true ->
  py_getitem v "confidence" = Ok confidence ->
  relevant_above v bound = py_gt confidence bound.
Proof. unfold relevant_above. now intros -> -> ->. Qed.

(** A verdict above a bound that is 0 or more is above 0. *)
Lemma relevant_above_zero (v bound : pyval) :
  relevant_above v bound = Ok true ->
  bound = PInt 0 \/ py_gt bound (PInt 0) = Ok true ->
  relevant_above v (PInt 0) = Ok true.
Proof.
  intros H Hb. destruct (relevant_above_true _ _ H) as (rel & c & Hr & Ht & Hc & Hgt).
  rewrite (relevant_above_eq _ _ _ _ Hr Ht Hc).
  destruct Hb as [->|Hb]; [exact Hgt|].
  now apply py_gt_trans with bound.
Qed.

Lemma relevant_above_failed (bound : pyval) :
  relevant_above failed_relevance bound = Ok false.
Proof. reflexivity. Qed.

End ValueFacts.

(** ** One call at a time *)

Section RunFacts.

Variable E : env.

Lemma fetch_page_content_run (page_id : string) (s : state E) :
  fetch_page_content E page_id s
  = (match fst (notion_page E page_id (world s)) with
     | Some c => Ok c
     | None => Raise NotionError
     end,
     {| world := snd (notion_page E page_id (world s));
        log := (log s
                ++ [Fetched page_id (fst (notion_page E page_id (world s)))])%list
     |}).
Proof.
  unfold fetch_page_content. now destruct (notion_page E page_id (world s)).
Qed.

Lemma completion_run (temperature : Q) (prompt : string) (s : state E) :
  completion E temperature prompt s
  = (match fst (groq_chat E MODEL temperature prompt (world s)) with
     | Some c => Ok c
     | None => Raise GroqError
     end,
     {| world := snd (groq_chat E MODEL temperature prompt (world s));
        log := (log s
                ++ [Completed MODEL temperature prompt
                      (fst (groq_chat E MODEL temperature prompt (world s)))])%list
     |}).
Proof.
  unfold completion.
  now destruct (groq_chat E MODEL temperature prompt (world s)).
Qed.

(** [check_content_relevance] makes one completion call and always returns:
    the decoded reply, or the dict of the [except] branch. *)
Lemma check_content_relevance_run (q : string) (c : content) (s : state E) :
  check_content_relevance E q c s
  = (Ok (verdict_of E
           (fst (groq_chat E MODEL (1 # 10)
                   (relevance_prompt q (text_preview c)) (world s)))),
     {| world := snd (groq_chat E MODEL (1 # 10)
                        (relevance_prompt q (text_preview c)) (world s));
        log := (log s
                ++ [Completed MODEL (1 # 10)
                      (relevance_prompt q (text_preview c))
                      (fst (groq_chat E MODEL (1 # 10)
                              (relevance_prompt q (text_preview c))
                              (world s)))])%list |}).
Proof.
  unfold check_content_relevance, try_except, bind. rewrite completion_run.
  destruct (fst (groq_chat E MODEL (1 # 10) _ (world s))) as [x|];
    [|reflexivity].
  unfold lift, ret, verdict_of. now destruct (loads E x).
Qed.

(** A verdict that passes the test was decoded from a reply of the model:
    the dict of the [except] branch never passes. *)
Lemma verdict_of_relevant (r : option (option string)) (bound : pyval) :
  relevant_above (verdict_of E r) bound = Ok true ->
  exists txt, r = Some (Some txt) /\ json_loads E txt = Some (verdict_of E r).
Proof.
  unfold verdict_of. destruct r as [[txt|]|]; simpl; try discriminate.
  destruct (json_loads E txt) as [v|] eqn:Hv; [|discriminate].
  intros _. exists txt. now rewrite Hv.
Qed.

Lemma verdict_of_reply (txt : string) (v : pyval) :
  json_loads E txt = Some v -> verdict_of E (Some (Some txt)) = v.
Proof. unfold verdict_of, loads. intros ->. reflexivity. Qed.

Lemma ask_prompts_app (evs evs' : list event) :
  ask_prompts (evs ++ evs')%list = (ask_prompts evs ++ ask_prompts evs')%list.
Proof. apply flat_map_app. Qed.

End RunFacts.

(** ** One turn of each loop, in explicit state-passing form *)

Section LoopFacts.

Variable E : env.

Lemma bind_run {A B : Type} (m : M E A) (k : A -> M E B) (s : state E) :
  bind m k s
  = match m s with
    | (Ok a, s') => k a s'
    | (Raise e, s') => (Raise e, s')
    end.
Proof. reflexivity. Qed.

Lemma for_each_cons {A B : Type} (loop_body : A -> B -> M E A) (x : B)
  (rest : list B) (acc : A) (s : state E) :
  for_each loop_body (x :: rest) acc s
  = match loop_body acc x s with
    | (Ok acc', s') => for_each loop_body rest acc' s'
    | (Raise e, s') => (Raise e, s')
    end.
Proof. reflexivity. Qed.

Lemma after_after (s : state E) (w w' : World E) (evs evs' : list event) :
  after E (after E s w evs) w' evs' = after E s w' (evs ++ evs')%list.
Proof. unfold after. simpl. now rewrite app_assoc. Qed.

(** One turn of the loop of [search_all_topics]. *)
Lemma search_topic_cases (q : string) (acc : scan) (topic page : string)
  (s : state E) :
  search_topic E q acc (topic, page) s
  = let page_id := extract_page_id page in
    match notion_page E page_id (world s) with
    | (None, w1) => (Raise NotionError, after E s w1 [Fetched page_id None])
    | (Some c, w1) =>
        if nonempty (text c) then
          let p := relevance_prompt q (text_preview c) in
          match groq_chat E MODEL (1 # 10) p w1 with
          | (r, w2) =>
              let v := verdict_of E r in
              let all := dict_set topic c (all_contents acc) in
              (match relevant_above v (best_confidence acc) with
               | Raise e => Raise e
               | Ok false =>
                   Ok {| best_match := best_match acc;
                         best_confidence := best_confidence acc;
                         all_contents := all |}
               | Ok true =>
                   match py_getitem v "confidence" with
                   | Raise e => Raise e
                   | Ok confidence =>
                       Ok {| best_match :=
                               Some {| m_topic := topic; m_content := c;
                                       m_confidence := confidence |};
                             best_confidence := confidence;
                             all_contents := all |}
                   end
               end,
               after E s w2
                 [Fetched page_id (Some c); Completed MODEL (1 # 10) p r])
          end
        else (Ok acc, after E s w1 [Fetched page_id (Some c)])
    end.
Proof.
  cbv zeta. unfold search_topic. rewrite bind_run, fetch_page_content_run.
  destruct (notion_page E (extract_page_id page) (world s)) as [[c|] w1];
    cbn [fst snd]; [|reflexivity].
  destruct (nonempty (text c)); [|reflexivity].
  rewrite bind_run, check_content_relevance_run. cbn [world log].
  destruct (groq_chat E MODEL (1 # 10) _ w1) as [r w2]. cbn [fst snd].
  rewrite bind_run. unfold lift at 1. unfold after. rewrite <- app_assoc.
  simpl app.
  destruct (relevant_above (verdict_of E r) (best_confidence acc)) as [[|]|];
    try reflexivity.
  rewrite !bind_run. unfold lift, ret.
  now destruct (py_getitem (verdict_of E r) "confidence").
Qed.

(** One turn of the loop over the keyword candidates. *)
Lemma keyword_loop_cases (q topic : string) (rest : list string)
  (s : state E) :
  keyword_loop E q (topic :: rest) s
  = match page_url E topic with
    | Raise e => (Raise e, s)
    | Ok page =>
        let page_id := extract_page_id page in
        match notion_page E page_id (world s) with
        | (None, w1) =>
            (Raise NotionError, after E s w1 [Fetched page_id None])
        | (Some c, w1) =>
            if nonempty (text c) then
              let p := relevance_prompt q (text_preview c) in
              match groq_chat E MODEL (1 # 10) p w1 with
              | (r, w2) =>
                  let v := verdict_of E r in
                  let seen :=
                    [Fetched page_id (Some c); Completed MODEL (1 # 10) p r]
                  in
                  match relevant_above v (PInt 60) with
                  | Raise e => (Raise e, after E s w2 seen)
                  | Ok false => keyword_loop E q rest (after E s w2 seen)
                  | Ok true =>
                      let kp := keyword_prompt topic c q in
                      match groq_chat E MODEL (3 # 10) kp w2 with
                      | (a, w3) =>
                          (match a, py_getitem v "confidence" with
                           | None, _ => Raise GroqError
                           | Some _, Raise e => Raise e
                           | Some answer, Ok confidence =>
                               Ok (Some
                                     {| status := 200;
                                        payload_of :=
                                          ChatBody
                                            {| b_topic := Some topic;
                                               b_response := answer;
                                               b_confidence := confidence;
                                               b_source := "keyword_match";
                                               b_available_topics := None;
                                               b_images := images c |} |})
                           end,
                           after E s w3
                             (seen ++ [Completed MODEL (3 # 10) kp a])%list)
                      end
                  end
              end
            else keyword_loop E q rest (after E s w1 [Fetched page_id (Some c)])
        end
    end.
Proof.
  simpl keyword_loop. rewrite bind_run. unfold lift at 1.
  destruct (page_url E topic) as [page|e]; [|reflexivity].
  cbv zeta. rewrite bind_run, fetch_page_content_run.
  destruct (notion_page E (extract_page_id page) (world s)) as [[c|] w1];
    cbn [fst snd]; [|reflexivity].
  destruct (nonempty (text c)); [|reflexivity].
  rewrite bind_run, check_content_relevance_run. cbn [world log].
  destruct (groq_chat E MODEL (1 # 10) _ w1) as [r w2]. cbn [fst snd].
  rewrite bind_run. unfold lift at 1. unfold after.
  rewrite <- app_assoc. simpl app.
  destruct (relevant_above (verdict_of E r) (PInt 60)) as [[|]|];
    try reflexivity.
  rewrite bind_run. unfold ask_groq. rewrite completion_run. cbn [world log].
  destruct (groq_chat E MODEL (3 # 10) _ w2) as [a w3]. cbn [fst snd].
  rewrite <- app_assoc. simpl app.
  destruct a as [answer|]; [|reflexivity].
  rewrite bind_run. unfold lift, ret.
  now destruct (py_getitem (verdict_of E r) "confidence").
Qed.

End LoopFacts.

(** ** What the search over all topics keeps *)

Section SearchFacts.

Variable E : env.

Lemma examined_app (q page : string) (c : content) (v : pyval)
  (evs evs' : list event) :
  examined E q page c v evs -> examined E q page c v (evs ++ evs')%list.
Proof.
  intros (Hf & Hne & r & Hr & Hv). split; [|split; [exact Hne|]].
  - apply in_or_app. now left.
  - exists r. split; [|exact Hv]. apply in_or_app. now left.
Qed.

Lemma examined_app_r (q page : string) (c : content) (v : pyval)
  (evs evs' : list event) :
  examined E q page c v evs' -> examined E q page c v (evs ++ evs')%list.
Proof.
  intros (Hf & Hne & r & Hr & Hv). split; [|split; [exact Hne|]].
  - apply in_or_app. now right.
  - exists r. split; [|exact Hv]. apply in_or_app. now right.
Qed.

(** The two events of a turn in which the model replied with a verdict. *)
Lemma examined_turn (q page : string) (c : content) (txt : string)
  (v : pyval) :
  nonempty (text c) = true ->
  json_loads E txt = Some v ->
  examined E q page c v
    [Fetched (extract_page_id page) (Some c);
     Completed MODEL (1 # 10) (relevance_prompt q (text_preview c))
       (Some (Some txt))].
Proof.
  intros Hne Hv. split; [now left|]. split; [exact Hne|].
  exists txt. split; [right; now left|exact Hv].
Qed.

Lemma tracked_keep (q : string) (acc acc' : scan) (evs evs' : list event) :
  best_match acc' = best_match acc ->
  best_confidence acc' = best_confidence acc ->
  ask_prompts evs' = [] ->
  tracked E q acc evs -> tracked E q acc' (evs ++ evs')%list.
Proof.
  unfold tracked. intros -> -> Hno [Hask Hbest]. split.
  - now rewrite ask_prompts_app, Hask, Hno.
  - destruct (best_match acc) as [m|]; [|exact Hbest].
    destruct Hbest as (Hc & page & v & Hin & Hex & Hrel & Hconf).
    split; [exact Hc|]. exists page, v. split; [exact Hin|].
    split; [now apply examined_app|]. now split.
Qed.

(** One turn of the loop keeps [tracked]. *)
Lemma search_topic_tracked (q : string) (acc acc' : scan)
  (topic page : string) (s s' : state E) :
  In (topic, page) (NOTION_PAGES E) ->
  search_topic E q acc (topic, page) s = (Ok acc', s') ->
  exists evs1,
    log s' = (log s ++ evs1)%list
    /\ forall evs0, tracked E q acc evs0 -> tracked E q acc' (evs0 ++ evs1)%list.
Proof.
  intros Hin. rewrite search_topic_cases. cbv zeta.
  destruct (notion_page E (extract_page_id page) (world s)) as [[c|] w1];
    [|discriminate].
  destruct (nonempty (text c)) eqn:Hne.
  - destruct (groq_chat E MODEL (1 # 10) _ w1) as [r w2].
    destruct (relevant_above (verdict_of E r) (best_confidence acc))
      as [[|]|] eqn:Hrel; [| |discriminate].
    + destruct (py_getitem (verdict_of E r) "confidence") as [conf|] eqn:Hconf;
        [|discriminate].
      intros H. injection H as <- <-. eexists. split; [reflexivity|].
      intros evs0 [Hask Hbest].
      destruct (verdict_of_relevant E _ _ Hrel) as (txt & -> & Hv).
      split; [now rewrite ask_prompts_app, Hask|]. simpl.
      split; [reflexivity|]. exists page, (verdict_of E (Some (Some txt))).
      split; [exact Hin|]. split; [|split; [|exact Hconf]].
      * apply examined_app_r. now apply examined_turn.
      * apply relevant_above_zero with (best_confidence acc); [exact Hrel|].
        destruct (best_match acc) as [m|]; [|now left].
        destruct Hbest as (Hc & page' & v' & _ & _ & Hrel' & Hconf').
        right. rewrite Hc.
        destruct (relevant_above_true _ _ Hrel')
          as (rel & c' & _ & _ & Hc' & Hgt).
        congruence.
    + intros H. injection H as <- <-. eexists. split; [reflexivity|].
      intros evs0. now apply tracked_keep.
  - intros H. injection H as <- <-. eexists. split; [reflexivity|].
    intros evs0. now apply tracked_keep.
Qed.

(** The whole loop keeps [tracked]. *)
Lemma for_each_tracked (q : string) (items : list (string * string)) :
  incl items (NOTION_PAGES E) ->
  forall (acc acc' : scan) (s s' : state E),
    for_each (search_topic E q) items acc s = (Ok acc', s') ->
    exists evs1,
      log s' = (log s ++ evs1)%list
      /\ forall evs0,
          tracked E q acc evs0 -> tracked E q acc' (evs0 ++ evs1)%list.
Proof.
  induction items as [|[topic page] items IH]; intros Hincl acc acc' s s'.
  - simpl. unfold ret. intros H. injection H as <- <-. exists [].
    split; [now rewrite app_nil_r|]. intros evs0. now rewrite app_nil_r.
  - rewrite for_each_cons.
    destruct (search_topic E q acc (topic, page) s) as [[acc1|e] s1] eqn:Hturn.
    2: discriminate.
    intros Hrest.
    destruct (search_topic_tracked q acc acc1 topic page s s1)
      as (evs1 & Hlog1 & Hkeep1); [apply Hincl; now left|exact Hturn|].
    destruct (IH (fun x Hx => Hincl x (or_intror Hx)) acc1 acc' s1 s' Hrest)
      as (evs2 & Hlog2 & Hkeep2).
    exists (evs1 ++ evs2)%list. split.
    + now rewrite Hlog2, Hlog1, app_assoc.
    + intros evs0 Ht. rewrite app_assoc. apply Hkeep2, Hkeep1, Ht.
Qed.

(** The bound that the loop compares with is 0 or a confidence that has
    compared greater than a number: always a number. *)
Lemma best_confidence_number (q : string) (items : list (string * string)) :
  forall (acc acc' : scan) (s s' : state E),
    (exists n, as_number (best_confidence acc) = Some n) ->
    for_each (search_topic E q) items acc s = (Ok acc', s') ->
    exists n, as_number (best_confidence acc') = Some n.
Proof.
  induction items as [|[topic page] items IH]; intros acc acc' s s' Hn.
  - simpl. unfold ret. intros H. now injection H as <- _.
  - rewrite for_each_cons.
    destruct (search_topic E q acc (topic, page) s) as [[acc1|e] s1] eqn:Hturn;
      [|discriminate].
    apply IH. revert Hturn. rewrite search_topic_cases. cbv zeta.
    destruct (notion_page E (extract_page_id page) (world s)) as [[c|] w1];
      [|discriminate].
    destruct (nonempty (text c)); [|intros H; now injection H as <- _].
    destruct (groq_chat E MODEL (1 # 10) _ w1) as [r w2].
    destruct (relevant_above (verdict_of E r) (best_confidence acc))
      as [[|]|] eqn:Hrel; [| |discriminate].
    + destruct (relevant_above_true _ _ Hrel) as (rel & c' & _ & _ & Hc & Hgt).
      rewrite Hc. intros H. injection H as <- _. simpl.
      destruct (py_gt_numbers _ _ _ Hgt) as (x & _ & Hx & _). now exists x.
    + intros H. now injection H as <- _.
Qed.

Lemma tracked_start (q : string) : tracked E q scan_start [].
Proof. split; reflexivity. Qed.

End SearchFacts.

(** ** The handler in explicit state-passing form *)

Section ChatFacts.

Variable E : env.

Lemma no_match_run (q : string) (s : state E) :
  no_match E q s
  = let available_topics := keys (NOTION_PAGES E) in
    let fp := fallback_prompt q available_topics in
    match groq_chat E MODEL (3 # 10) fp (world s) with
    | (a, w) =>
        (match a with
         | None => Raise GroqError
         | Some answer =>
             Ok {| status := 200;
                   payload_of :=
                     ChatBody {| b_topic := None;
                                 b_response := answer;
                                 b_confidence := PInt 0;
                                 b_source := "no_match";
                                 b_available_topics := Some available_topics;
                                 b_images := [] |} |}
         end,
         after E s w [Completed MODEL (3 # 10) fp a])
    end.
Proof.
  cbv zeta. unfold no_match, ask_groq. rewrite bind_run, completion_run.
  destruct (groq_chat E MODEL (3 # 10) _ (world s)) as [[answer|] w];
    reflexivity.
Qed.

Lemma semantic_phase_run (q : string) (s : state E) :
  semantic_phase E q s
  = let s0 :=
      after E s (world s)
        [Printed "No strong keyword match, searching all topics..."] in
    match for_each (search_topic E q) (NOTION_PAGES E) scan_start s0 with
    | (Raise e, s1) => (Raise e, s1)
    | (Ok acc, s1) =>
        match best_match acc with
        | None => no_match E q s1
        | Some best =>
            match py_gt (m_confidence best) (PInt 50) with
            | Raise e => (Raise e, s1)
            | Ok false => no_match E q s1
            | Ok true =>
                let sp := semantic_prompt best q in
                match groq_chat E MODEL (3 # 10) sp (world s1) with
                | (a, w) =>
                    (match a with
                     | None => Raise GroqError
                     | Some answer =>
                         Ok {| status := 200;
                               payload_of :=
                                 ChatBody
                                   {| b_topic := Some (m_topic best);
                                      b_response := answer;
                                      b_confidence := m_confidence best;
                                      b_source := "semantic_search";
                                      b_available_topics := None;
                                      b_images := images (m_content best) |}
                            |}
                     end,
                     after E s1 w [Completed MODEL (3 # 10) sp a])
                end
            end
        end
    end.
Proof.
  cbv zeta. unfold semantic_phase, print. rewrite bind_run. cbv beta iota.
  unfold search_all_topics. rewrite !bind_run. fold (after E s (world s)
    [Printed "No strong keyword match, searching all topics..."]).
  destruct (for_each (search_topic E q) (NOTION_PAGES E) scan_start _)
    as [[acc|e] s1]; [|reflexivity].
  unfold ret at 1. cbn [fst].
  destruct (best_match acc) as [best|]; [|reflexivity].
  rewrite bind_run. unfold lift at 1.
  destruct (py_gt (m_confidence best) (PInt 50)) as [[|]|]; try reflexivity.
  unfold ask_groq. rewrite bind_run, completion_run.
  destruct (groq_chat E MODEL (3 # 10) _ (world s1)) as [[answer|] w];
    reflexivity.
Qed.

(** [chat] on a body whose query is a string that is not empty. *)
Lemma chat_run (data : pyval) (q : string) (s : state E) :
  py_get data "query" = Ok (PStr q) ->
  nonempty q = true ->
  chat E data s
  = match keyword_loop E q (find_relevant_topics E q) s with
    | (Ok (Some response), s1) => (Ok response, s1)
    | (Ok None, s1) => semantic_phase E q s1
    | (Raise e, s1) => (Raise e, s1)
    end.
Proof.
  intros Hq Hne. unfold chat. rewrite bind_run. unfold lift at 1.
  rewrite Hq. cbn [truthy]. rewrite Hne. cbn [negb]. cbv zeta.
  rewrite bind_run.
  destruct (find_relevant_topics E q) as [|t ts]; [reflexivity|].
  destruct (keyword_loop E q (t :: ts) s) as [[[response|]|e] s1];
    reflexivity.
Qed.

(** A query that is missing, or that Python takes for false, is refused
    before anything else happens. *)
Lemma chat_refuses (data query : pyval) (s : state E) :
  py_get data "query" = Ok query ->
  truthy query = false ->
  chat E data s
  = (Ok {| status := 400; payload_of := ErrorBody "No query provided" |}, s).
Proof.
  intros Hq Hf. unfold chat. rewrite bind_run. unfold lift at 1.
  rewrite Hq, Hf. reflexivity.
Qed.

End ChatFacts.

(** ** Every reply of the handler, read backwards *)

Section Inversion.

Variable E : env.

Lemma selected_app_r (q : string) (bound : Z) (topic : string) (c : content)
  (b : body) (evs evs' : list event) :
  selected E q bound topic c b evs' ->
  selected E q bound topic c b (evs ++ evs')%list.
Proof.
  intros (Ht & Hi & page & v & Hin & Hex & Hrel & Hconf).
  split; [exact Ht|]. split; [exact Hi|]. exists page, v.
  split; [exact Hin|]. split; [now apply examined_app_r|]. now split.
Qed.

Lemma selected_app (q : string) (bound : Z) (topic : string) (c : content)
  (b : body) (evs evs' : list event) :
  selected E q bound topic c b evs ->
  selected E q bound topic c b (evs ++ evs')%list.
Proof.
  intros (Ht & Hi & page & v & Hin & Hex & Hrel & Hconf).
  split; [exact Ht|]. split; [exact Hi|]. exists page, v.
  split; [exact Hin|]. split; [now apply examined_app|]. now split.
Qed.

Lemma outcome_app_r (q : string) (b : body) (evs evs' : list event) :
  ask_prompts evs = [] ->
  outcome E q b evs' -> outcome E q b (evs ++ evs')%list.
Proof.
  intros Hno H. unfold outcome. rewrite ask_prompts_app, Hno. simpl app.
  destruct H as [(Hs & Ha & topic & c & Hsel & Hp)
                |[(Hs & Ha & m & Hsel & Hc & Hp)|H]].
  - left. split; [exact Hs|]. split; [exact Ha|]. exists topic, c.
    split; [now apply selected_app_r|exact Hp].
  - right. left. split; [exact Hs|]. split; [exact Ha|]. exists m.
    split; [now apply selected_app_r|now split].
  - right. right. exact H.
Qed.

(** The loop over the keyword candidates, when it does not raise: either it
    returned a keyword match, or it asked for no answer at all. *)
Lemma keyword_loop_inv (q : string) (topics : list string) :
  forall (s s' : state E) (returned : option http),
    keyword_loop E q topics s = (Ok returned, s') ->
    exists evs,
      log s' = (log s ++ evs)%list
      /\ match returned with
         | None => ask_prompts evs = []
         | Some response =>
             exists b,
               response = {| status := 200; payload_of := ChatBody b |}
               /\ b_source b = "keyword_match"
               /\ b_available_topics b = None
               /\ exists topic c,
                    In topic topics
                    /\ selected E q 60 topic c b evs
                    /\ ask_prompts evs = [keyword_prompt topic c q]
         end.
Proof.
  induction topics as [|topic rest IH]; intros s s' returned.
  - simpl. unfold ret. intros H. injection H as <- <-. exists [].
    split; [now rewrite app_nil_r|reflexivity].
  - rewrite keyword_loop_cases.
    destruct (page_url E topic) as [page|e] eqn:Hpage; [|discriminate].
    cbv zeta.
    destruct (notion_page E (extract_page_id page) (world s)) as [[c|] w1];
      [|discriminate].
    assert (Hcont : forall (seen : list event) (w : World E),
               ask_prompts seen = [] ->
               keyword_loop E q rest (after E s w seen) = (Ok returned, s') ->
               exists evs,
                 log s' = (log s ++ evs)%list
                 /\ match returned with
                    | None => ask_prompts evs = []
                    | Some response =>
                        exists b,
                          response
                          = {| status := 200; payload_of := ChatBody b |}
                          /\ b_source b = "keyword_match"
                          /\ b_available_topics b = None
                          /\ exists topic' c',
                               In topic' (topic :: rest)
                               /\ selected E q 60 topic' c' b evs
                               /\ ask_prompts evs
                                  = [keyword_prompt topic' c' q]
                    end).
    { intros seen w Hseen Hrest.
      destruct (IH _ _ _ Hrest) as (evs & Hlog & Hres).
      exists (seen ++ evs)%list. split.
      - rewrite Hlog. unfold after. simpl. now rewrite app_assoc.
      - destruct returned as [response|].
        + destruct Hres as (b & Hb & Hs & Ha & topic' & c' & Hin & Hsel & Hp).
          exists b. split; [exact Hb|]. split; [exact Hs|].
          split; [exact Ha|]. exists topic', c'. split; [now right|].
          split; [now apply selected_app_r|].
          now rewrite ask_prompts_app, Hseen.
        + now rewrite ask_prompts_app, Hseen. }
    destruct (nonempty (text c)) eqn:Hne;
      [|intros H; eapply Hcont; [|exact H]; reflexivity].
    destruct (groq_chat E MODEL (1 # 10) _ w1) as [r w2].
    destruct (relevant_above (verdict_of E r) (PInt 60)) as [[|]|] eqn:Hrel;
      [| intros H; eapply Hcont; [|exact H]; reflexivity | discriminate].
    destruct (groq_chat E MODEL (3 # 10) _ w2) as [[answer|] w3];
      [|discriminate].
    destruct (py_getitem (verdict_of E r) "confidence") as [conf|] eqn:Hconf;
      [|discriminate].
    intros H. injection H as <- <-. eexists. split; [reflexivity|].
    eexists. split; [reflexivity|]. split; [reflexivity|].
    split; [reflexivity|]. exists topic, c. split; [now left|].
    split; [|reflexivity].
    destruct (verdict_of_relevant E _ _ Hrel) as (txt & -> & Hv).
    split; [reflexivity|]. split; [reflexivity|].
    exists page, (verdict_of E (Some (Some txt))).
    split.
    { apply lookup_In. unfold page_url in Hpage.
      destruct (lookup topic (NOTION_PAGES E)); congruence. }
    split; [|now split].
    apply (examined_app E q page c _
             [Fetched (extract_page_id page) (Some c);
              Completed MODEL (1 # 10) (relevance_prompt q (text_preview c))
                (Some (Some txt))]).
    now apply examined_turn.
Qed.

(** The fallback, when it does not raise. *)
Lemma no_match_inv (q : string) (s s' : state E) (response : http) :
  no_match E q s = (Ok response, s') ->
  exists evs b,
    log s' = (log s ++ evs)%list
    /\ (forall pre, ask_prompts pre = [] -> outcome E q b (pre ++ evs)%list)
    /\ response = {| status := 200; payload_of := ChatBody b |}.
Proof.
  rewrite no_match_run. cbv zeta.
  destruct (groq_chat E MODEL (3 # 10) _ (world s)) as [[answer|] w];
    [|discriminate].
  intros H. injection H as <- <-. eexists. eexists.
  split; [reflexivity|]. split; [|reflexivity].
  intros pre Hpre. right. right. cbn.
  repeat (split; [reflexivity|]).
  rewrite ask_prompts_app, Hpre. reflexivity.
Qed.

(** The search over all topics and what follows it, when nothing raises:
    a semantic match or the fallback. *)
Lemma semantic_phase_inv (q : string) (s s' : state E) (response : http) :
  semantic_phase E q s = (Ok response, s') ->
  exists evs b,
    log s' = (log s ++ evs)%list
    /\ outcome E q b evs
    /\ response = {| status := 200; payload_of := ChatBody b |}.
Proof.
  rewrite semantic_phase_run. cbv zeta.
  set (line := Printed "No strong keyword match, searching all topics...").
  destruct (for_each (search_topic E q) (NOTION_PAGES E) scan_start _)
    as [[acc|e] s1] eqn:Hscan; [|discriminate].
  destruct (for_each_tracked E q _ (incl_refl _) _ _ _ _ Hscan)
    as (evs1 & Hlog1 & Hkeep).
  specialize (Hkeep [] (tracked_start E q)). simpl app in Hkeep.
  destruct Hkeep as [Hask Hbest]. cbn in Hlog1.
  assert (Hfall : no_match E q s1 = (Ok response, s') ->
                  exists evs b,
                    log s' = (log s ++ evs)%list
                    /\ outcome E q b evs
                    /\ response
                       = {| status := 200; payload_of := ChatBody b |}).
  { intros H. destruct (no_match_inv _ _ _ _ H) as (evs & b & Hlog & Hout & Hr).
    exists (line :: evs1 ++ evs)%list, b. split.
    - rewrite Hlog, Hlog1, <- !app_assoc. reflexivity.
    - split; [|exact Hr].
      apply (Hout (line :: evs1)). exact Hask. }
  destruct (best_match acc) as [best|]; [|exact Hfall].
  destruct Hbest as (Hbc & page & v & Hin & Hex & Hrel & Hconf).
  destruct (py_gt (m_confidence best) (PInt 50)) as [[|]|] eqn:Hgt;
    [|exact Hfall|discriminate].
  destruct (groq_chat E MODEL (3 # 10) _ (world s1)) as [[answer|] w];
    [|discriminate].
  intros H. injection H as <- <-.
  exists ((line :: evs1)
          ++ [Completed MODEL (3 # 10) (semantic_prompt best q) (Some answer)])%list.
  eexists.
  split; [cbn; rewrite Hlog1, <- !app_assoc; reflexivity|].
  split; [|reflexivity].
  right. left. split; [reflexivity|]. split; [reflexivity|]. exists best.
  split; [|split; [reflexivity|]].
  - split; [reflexivity|]. split; [reflexivity|]. exists page, v.
    split; [exact Hin|]. split; [|split; [|exact Hconf]].
    + apply (examined_app E q page _ v (line :: evs1)).
      apply (examined_app_r E q page _ v [line]). exact Hex.
    + destruct (relevant_above_true _ _ Hrel) as (rel & c & Hr & Ht & Hc & _).
      rewrite (relevant_above_eq _ _ _ _ Hr Ht Hc). congruence.
  - rewrite ask_prompts_app.
    change (ask_prompts (line :: evs1)) with (ask_prompts evs1).
    now rewrite Hask.
Qed.

(** Every reply of [chat]: a refusal that touched nothing, or an answer to
    a query that is a string and not empty. *)
Lemma chat_inv (data : pyval) (s s' : state E) (response : http) :
  chat E data s = (Ok response, s') ->
  (response = {| status := 400; payload_of := ErrorBody "No query provided" |}
   /\ s' = s)
  \/ exists q evs b,
       py_get data "query" = Ok (PStr q)
       /\ nonempty q = true
       /\ log s' = (log s ++ evs)%list
       /\ outcome E q b evs
       /\ response = {| status := 200; payload_of := ChatBody b |}.
Proof.
  destruct (py_get data "query") as [query|e] eqn:Hq.
  2: { unfold chat. rewrite bind_run. unfold lift at 1. rewrite Hq.
       discriminate. }
  destruct (truthy query) eqn:Ht.
  2: { rewrite (chat_refuses E _ _ _ Hq Ht). intros H. injection H as <- <-.
       now left. }
  destruct query as [|b|n|q|items|entries];
    try (unfold chat; rewrite bind_run; unfold lift at 1; rewrite Hq, Ht;
         discriminate).
  rewrite (chat_run E _ _ _ Hq Ht).
  destruct (keyword_loop E q (find_relevant_topics E q) s)
    as [[[found|]|e] s1] eqn:Hloop; [| |discriminate]; intros H; right.
  - injection H as <- <-.
    destruct (keyword_loop_inv _ _ _ _ _ Hloop)
      as (evs & Hlog & b & Hb & Hs & Ha & topic & c & _ & Hsel & Hp).
    exists q, evs, b. split; [reflexivity|]. split; [exact Ht|].
    split; [exact Hlog|]. split; [|exact Hb].
    left. split; [exact Hs|]. split; [exact Ha|]. now exists topic, c.
  - destruct (keyword_loop_inv _ _ _ _ _ Hloop) as (evs1 & Hlog1 & Hno).
    destruct (semantic_phase_inv _ _ _ _ H) as (evs & b & Hlog & Hout & Hr).
    exists q, (evs1 ++ evs)%list, b. split; [reflexivity|].
    split; [exact Ht|]. split; [now rewrite Hlog, Hlog1, app_assoc|].
    split; [now apply outcome_app_r|exact Hr].
Qed.

End Inversion.

(** ** Runs in which the pages are examined as described *)

Section Forward.

Variable E : env.

Lemma after_nil (s : state E) : after E s (world s) [] = s.
Proof. destruct s as [w l]. unfold after. simpl. now rewrite app_nil_r. Qed.

Lemma search_topic_skip (q : string) (acc : scan) (topic page : string)
  (s : state E) (c : content) (w' : World E) :
  notion_page E (extract_page_id page) (world s) = (Some c, w') ->
  nonempty (text c) = false ->
  search_topic E q acc (topic, page) s
  = (Ok acc, after E s w' [Fetched (extract_page_id page) (Some c)]).
Proof.
  intros Hf Hne. rewrite search_topic_cases. cbv zeta. now rewrite Hf, Hne.
Qed.

Lemma search_topic_scores (q : string) (acc : scan) (topic page : string)
  (s : state E) (c : content) (r : option (option string)) (w' : World E) :
  scores E q page (world s) c r w' ->
  search_topic E q acc (topic, page) s
  = (match relevant_above (verdict_of E r) (best_confidence acc) with
     | Raise e => Raise e
     | Ok false =>
         Ok {| best_match := best_match acc;
               best_confidence := best_confidence acc;
               all_contents := dict_set topic c (all_contents acc) |}
     | Ok true =>
         match py_getitem (verdict_of E r) "confidence" with
         | Raise e => Raise e
         | Ok confidence =>
             Ok {| best_match :=
                     Some {| m_topic := topic; m_content := c;
                             m_confidence := confidence |};
                   best_confidence := confidence;
                   all_contents := dict_set topic c (all_contents acc) |}
         end
     end,
     after E s w' (scored_events q page c r)).
Proof.
  intros (w1 & Hf & Hne & Hg). rewrite search_topic_cases. cbv zeta.
  now rewrite Hf, Hne, Hg.
Qed.

(** A scan in which every verdict satisfies [P] does not raise and keeps any
    property [Inv] of the best match that verdicts satisfying [P] keep. *)
Lemma for_each_scan (q : string) (P : pyval -> Prop)
  (Inv : option match_ -> pyval -> Prop) :
  (forall best bound v,
      Inv best bound -> P v ->
      relevant_above v bound = Ok false
      \/ (relevant_above v bound = Ok true
          /\ exists confidence,
               py_getitem v "confidence" = Ok confidence
               /\ forall topic c,
                    Inv (Some {| m_topic := topic; m_content := c;
                                 m_confidence := confidence |}) confidence)) ->
  forall (items : list (string * string)) (acc : scan) (s : state E)
         (evs : list event) (w' : World E),
    scan_ok E q P (map snd items) (world s) evs w' ->
    Inv (best_match acc) (best_confidence acc) ->
    exists acc',
      for_each (search_topic E q) items acc s = (Ok acc', after E s w' evs)
      /\ Inv (best_match acc') (best_confidence acc').
Proof.
  intros Hstep. induction items as [|[topic page] items IH];
    intros acc s evs w'.
  - simpl. intros [-> ->] Hinv. exists acc. split; [|exact Hinv].
    unfold ret. now rewrite after_nil.
  - simpl map. simpl scan_ok.
    intros (w1 & evs1 & evs2 & Hturn & Hrest & ->) Hinv.
    rewrite for_each_cons.
    assert (Hnext : exists acc1,
               search_topic E q acc (topic, page) s
               = (Ok acc1, after E s w1 evs1)
               /\ Inv (best_match acc1) (best_confidence acc1)).
    { destruct Hturn as [(c & Hf & Hne & ->)|(c & r & Hsc & HP & ->)].
      - exists acc. split; [|exact Hinv]. now apply search_topic_skip.
      - rewrite (search_topic_scores _ _ _ _ _ _ _ _ Hsc).
        destruct (Hstep _ _ _ Hinv HP)
          as [Hno|(Hyes & conf & Hconf & Hnew)].
        + rewrite Hno. eexists. split; [reflexivity|exact Hinv].
        + rewrite Hyes, Hconf. eexists. split; [reflexivity|apply Hnew]. }
    destruct Hnext as (acc1 & -> & Hinv1).
    destruct (IH acc1 (after E s w1 evs1) evs2 w' Hrest Hinv1)
      as (acc' & Hrun & Hinv').
    exists acc'. split; [|exact Hinv'].
    now rewrite Hrun, after_after.
Qed.

Lemma keyword_loop_app (q : string) (pre rest : list string) :
  forall s : state E,
    keyword_loop E q (pre ++ rest)%list s
    = match keyword_loop E q pre s with
      | (Ok None, s1) => keyword_loop E q rest s1
      | other => other
      end.
Proof.
  induction pre as [|topic pre IH]; intros s; [reflexivity|].
  simpl app. rewrite !keyword_loop_cases.
  destruct (page_url E topic) as [page|e]; [|reflexivity].
  cbv zeta.
  destruct (notion_page E (extract_page_id page) (world s)) as [[c|] w1];
    [|reflexivity].
  destruct (nonempty (text c)); [|apply IH].
  destruct (groq_chat E MODEL (1 # 10) _ w1) as [r w2].
  destruct (relevant_above (verdict_of E r) (PInt 60)) as [[|]|];
    [|apply IH|reflexivity].
  destruct (groq_chat E MODEL (3 # 10) _ w2) as [[answer|] w3];
    [|reflexivity].
  now destruct (py_getitem (verdict_of E r) "confidence").
Qed.

(** Candidates that are all examined without a verdict above 60 leave the
    loop at its end. *)
Lemma keyword_loop_scan (q : string) (topics : list string) :
  (forall t, In t topics -> In t (keys (NOTION_PAGES E))) ->
  forall (s : state E) (evs : list event) (w' : World E),
    scan_ok E q (not_above (PInt 60)) (pages_of E topics) (world s) evs w' ->
    keyword_loop E q topics s = (Ok None, after E s w' evs).
Proof.
  induction topics as [|topic rest IH]; intros Hkeys s evs w'.
  - simpl. intros [-> ->]. unfold ret. now rewrite after_nil.
  - destruct (lookup_keys topic (NOTION_PAGES E) (Hkeys topic (or_introl eq_refl)))
      as [page Hpage].
    unfold pages_of. simpl flat_map. rewrite Hpage. simpl app.
    fold (pages_of E rest). simpl scan_ok.
    intros (w1 & evs1 & evs2 & Hturn & Hrest & ->).
    rewrite keyword_loop_cases. unfold page_url. rewrite Hpage. cbv zeta.
    specialize (IH (fun t Ht => Hkeys t (or_intror Ht))).
    destruct Hturn as [(c & Hf & Hne & ->)|(c & r & (w0 & Hf & Hne & Hg) & HP & ->)].
    + rewrite Hf, Hne, (IH (after E s w1 _) _ _ Hrest).
      now rewrite after_after.
    + rewrite Hf, Hne, Hg. unfold not_above in HP. rewrite HP.
      rewrite (IH (after E s w1 _) _ _ Hrest). now rewrite after_after.
Qed.

(** A candidate that is scored above 60 is answered at once. *)
Lemma keyword_loop_accept (q topic page : string) (rest : list string)
  (s : state E) (c : content) (r : option (option string))
  (confidence : pyval) (answer : option string) (w1 w2 : World E) :
  page_url E topic = Ok page ->
  scores E q page (world s) c r w1 ->
  relevant_above (verdict_of E r) (PInt 60) = Ok true ->
  py_getitem (verdict_of E r) "confidence" = Ok confidence ->
  groq_chat E MODEL (3 # 10) (keyword_prompt topic c q) w1 = (Some answer, w2) ->
  keyword_loop E q (topic :: rest) s
  = (Ok (Some {| status := 200;
                 payload_of :=
                   ChatBody {| b_topic := Some topic;
                               b_response := answer;
                               b_confidence := confidence;
                               b_source := "keyword_match";
                               b_available_topics := None;
                               b_images := images c |} |}),
     after E s w2
       (scored_events q page c r
        ++ [Completed MODEL (3 # 10) (keyword_prompt topic c q) (Some answer)])%list).
Proof.
  intros Hpage (w0 & Hf & Hne & Hg) Hrel Hconf Hans.
  rewrite keyword_loop_cases, Hpage. cbv zeta.
  now rewrite Hf, Hne, Hg, Hrel, Hans, Hconf.
Qed.

End Forward.

(** ** The candidates of the keyword search *)

Section Candidates.

Variable E : env.

Lemma fold_left_select (p : string -> bool) (l acc : list string) :
  fold_left
    (fun relevant_topics topic =>
       if p topic then (relevant_topics ++ [topic])%list else relevant_topics)
    l acc
  = (acc ++ filter p l)%list.
Proof.
  revert acc. induction l as [|t l IH]; intros acc; simpl.
  - now rewrite app_nil_r.
  - rewrite IH. destruct (p t); [|reflexivity].
    now rewrite <- app_assoc.
Qed.

Lemma find_relevant_topics_filter (q : string) :
  find_relevant_topics E q
  = filter (fun topic => str_in (lower topic) (lower q))
      (keys (NOTION_PAGES E)).
Proof. unfold find_relevant_topics. now rewrite fold_left_select. Qed.

Lemma find_relevant_topics_keys (q t : string) :
  In t (find_relevant_topics E q) -> In t (keys (NOTION_PAGES E)).
Proof.
  rewrite find_relevant_topics_filter, filter_In. now intros [H _].
Qed.

End Candidates.

(** ** The claims *)



(** A body that is not a JSON object has no [get]: the handler raises, here
    too before any call. *)
Example chat_body_not_an_object (E : env) (s : state E) :
  chat E PNone s = (Raise AttributeError, s)
  /\ chat E (PList []) s = (Raise AttributeError, s).
Proof. split; reflexivity. Qed.


(** C4: the candidates are exactly the topics of the catalog whose
    lower-cased name occurs inside the lower-cased query, in the order of the
    catalog; when no name occurs there are none, and the handler goes
    straight to the search over all topics. *)
Theorem find_relevant_topics_selects (E : env) (q : string) :
  find_relevant_topics E q
  = filter (fun topic => str_in (lower topic) (lower q))
      (keys (NOTION_PAGES E))
  /\ (forall t,
         In t (find_relevant_topics E q)
         <-> In t (keys (NOTION_PAGES E))
             /\ exists before after, lower q = before ++ lower t ++ after)
  /\ ((forall t,
          In t (keys (NOTION_PAGES E)) ->
          ~ exists before after, lower q = before ++ lower t ++ after) ->
      find_relevant_topics E q = []
      /\ forall data s,
           py_get data "query" = Ok (PStr q) ->
           nonempty q = true ->
           chat E data s = semantic_phase E q s).
Proof.
  split; [apply find_relevant_topics_filter|]. split.
  - intros t. rewrite find_relevant_topics_filter, filter_In, str_in_iff.
    reflexivity.
  - intros Hnone.
    assert (Hnil : find_relevant_topics E q = []).
    { rewrite find_relevant_topics_filter.
      induction (keys (NOTION_PAGES E)) as [|t l IH]; [reflexivity|].
      simpl. destruct (str_in (lower t) (lower q)) eqn:Hin.
      - exfalso. apply (Hnone t); [now left|]. now apply str_in_iff.
      - apply IH. intros t' Ht'. apply Hnone. now right. }
    split; [exact Hnil|]. intros data s Hq Hne.
    rewrite (chat_run E _ _ _ Hq Hne), Hnil. reflexivity.
Qed.

Lemma find_relevant_topics_selects_witness :
  find_relevant_topics Script.battery_env "What is the warranty?" = []
  /\ chat Script.battery_env (request "What is the warranty?")
       (Script.start Script.battery_env 0%nat)
     = semantic_phase Script.battery_env "What is the warranty?"
         (Script.start Script.battery_env 0%nat).
Proof.
  assert (Hnone : forall t,
             In t (keys (NOTION_PAGES Script.battery_env)) ->
             ~ exists before after,
                 lower "What is the warranty?" = before ++ lower t ++ after).
  { intros t Ht Hex. apply str_in_iff in Hex.
    destruct Ht as [<-|[<-|[]]]; vm_compute in Hex; discriminate. }
  destruct (proj2 (proj2 (find_relevant_topics_selects Script.battery_env
                            "What is the warranty?")) Hnone) as [Hnil Hgo].
  split; [exact Hnil|]. apply Hgo; reflexivity.
Defined.

Lemma verdict_of_unparseable (E : env) (r : option (option string)) :
  unparseable E r -> verdict_of E r = failed_relevance.
Proof.
  unfold unparseable, verdict_of, loads. destruct r as [[txt|]|]; try reflexivity.
  now intros ->.
Qed.

(** C5 (as the code has it): [check_content_relevance] never raises; when
    the completion call fails or its reply is not JSON it returns the dict
    [{"relevant": False, "confidence": 0, "reason": "Failed to parse
    relevance"}], and both loops then pass on to the next topic: the loop
    over the candidates continues with the rest, the search over all topics
    keeps its best match. *)
Theorem check_content_relevance_degrades (E : env) (q : string) (c : content) :
  (forall s, exists v, fst (check_content_relevance E q c s) = Ok v)
  /\ (forall s,
         unparseable E
           (fst (groq_chat E MODEL (1 # 10)
                   (relevance_prompt q (text_preview c)) (world s))) ->
         fst (check_content_relevance E q c s) = Ok failed_relevance)
  /\ (forall s topic page rest acc r w',
         scores E q page (world s) c r w' ->
         unparseable E r ->
         (page_url E topic = Ok page ->
          keyword_loop E q (topic :: rest) s
          = keyword_loop E q rest (after E s w' (scored_events q page c r)))
         /\ search_topic E q acc (topic, page) s
            = (Ok {| best_match := best_match acc;
                     best_confidence := best_confidence acc;
                     all_contents := dict_set topic c (all_contents acc) |},
               after E s w' (scored_events q page c r))).
Proof.
  split; [|split].
  - intros s. rewrite check_content_relevance_run. eexists. reflexivity.
  - intros s Hr. rewrite check_content_relevance_run. simpl fst.
    now rewrite (verdict_of_unparseable E _ Hr).
  - intros s topic page rest acc r w' Hsc Hr. split.
    + intros Hpage. destruct Hsc as (w1 & Hf & Hne & Hg).
      rewrite keyword_loop_cases, Hpage. cbv zeta.
      rewrite Hf, Hne, Hg, (verdict_of_unparseable E _ Hr). reflexivity.
    + rewrite (search_topic_scores E _ _ _ _ _ _ _ _ Hsc).
      rewrite (verdict_of_unparseable E _ Hr). reflexivity.
Qed.

Lemma check_content_relevance_degrades_witness :
  unparseable Script.garbled_env (Some (Some "I cannot tell."))
  /\ fst (check_content_relevance Script.garbled_env
            "How do I maintain my battery?" Script.battery_doc
            (Script.start Script.garbled_env 0%nat))
     = Ok failed_relevance
  /\ keyword_loop Script.garbled_env "How do I maintain my battery?"
       ["Battery"] (Script.start Script.garbled_env 0%nat)
     = (Ok None,
        after Script.garbled_env (Script.start Script.garbled_env 0%nat) 2%nat
          (scored_events "How do I maintain my battery?" "url-ending-id1"
             Script.battery_doc (Some (Some "I cannot tell.")))).
Proof.
  split; [reflexivity|]. split.
  - apply (proj1 (proj2 (check_content_relevance_degrades Script.garbled_env
                           "How do I maintain my battery?" Script.battery_doc))).
    reflexivity.
  - apply (proj1 (proj2 (proj2 (check_content_relevance_degrades
                                  Script.garbled_env
                                  "How do I maintain my battery?"
                                  Script.battery_doc))
                   (Script.start Script.garbled_env 0%nat) "Battery"
                   "url-ending-id1" [] scan_start
                   (Some (Some "I cannot tell.")) 2%nat
                   (ex_intro _ 1%nat (conj eq_refl (conj eq_refl eq_refl)))
                   eq_refl)).
    reflexivity.
Defined.

(** C5 (as the spec states it) fails: the reason of the degraded verdict is
    not ["unparseable"]. *)
Lemma degraded_verdict_reason_differs :
  json_loads Script.garbled_env "I cannot tell." = None
  /\ fst (check_content_relevance Script.garbled_env
            "How do I maintain my battery?" Script.battery_doc
            (Script.start Script.garbled_env 0%nat))
     = Ok (PDict [("relevant", PBool false);
                  ("confidence", PInt 0);
                  ("reason", PStr "Failed to parse relevance")])
  /\ fst (check_content_relevance Script.garbled_env
            "How do I maintain my battery?" Script.battery_doc
            (Script.start Script.garbled_env 0%nat))
     <> Ok (PDict [("relevant", PBool false);
                   ("confidence", PInt 0);
                   ("reason", PStr "unparseable")]).
Proof.
  split; [reflexivity|]. split; [reflexivity|].
  vm_compute. discriminate.
Qed.

(** A reply that is JSON but not an object is not caught by the [except]
    branch: [check_content_relevance] returns it and the handler raises at
    [relevance["relevant"]]. *)
Example wrong_shape_verdict_raises :
  fst (check_content_relevance Script.stringy_env
         "How do I maintain my battery?" Script.battery_doc
         (Script.start Script.stringy_env 0%nat))
  = Ok (PStr "yes")
  /\ fst (chat Script.stringy_env (request "How do I maintain my battery?")
            (Script.start Script.stringy_env 0%nat))
     = Raise TypeError.
Proof. split; reflexivity. Qed.

(** C3: the keyword search stops at the first candidate that is scored
    relevant with a confidence above 60.  When the candidates before [t] are
    examined without such a verdict and [t] gets one, [chat] answers with the
    keyword match on [t]; the calls made are those for the candidates before
    [t], the fetch and the scoring of [t] and the one completion for the
    answer, and the services are left in the world [w2] right after that
    completion: the candidates after [t] and the rest of the catalog are
    neither fetched nor scored. *)
Theorem keyword_match_short_circuits (E : env) (q : string)
  (pre post : list string) (t page : string) (s : state E)
  (evs0 : list event) (w0 w1 w2 : World E) (c : content)
  (r : option (option string)) (confidence : pyval) (answer : option string) :
  nonempty q = true ->
  find_relevant_topics E q = (pre ++ t :: post)%list ->
  scan_ok E q (not_above (PInt 60)) (pages_of E pre) (world s) evs0 w0 ->
  page_url E t = Ok page ->
  scores E q page w0 c r w1 ->
  relevant_above (verdict_of E r) (PInt 60) = Ok true ->
  py_getitem (verdict_of E r) "confidence" = Ok confidence ->
  groq_chat E MODEL (3 # 10) (keyword_prompt t c q) w1 = (Some answer, w2) ->
  chat E (request q) s
  = (Ok {| status := 200;
           payload_of :=
             ChatBody {| b_topic := Some t;
                         b_response := answer;
                         b_confidence := confidence;
                         b_source := "keyword_match";
                         b_available_topics := None;
                         b_images := images c |} |},
     after E s w2
       (evs0 ++ scored_events q page c r
        ++ [Completed MODEL (3 # 10) (keyword_prompt t c q) (Some answer)])%list).
Proof.
  intros Hq Hcand Hpre Hpage Hsc Hrel Hconf Hans.
  rewrite (chat_run E (request q) q s eq_refl Hq), Hcand, keyword_loop_app.
  rewrite (keyword_loop_scan E q pre) with (evs := evs0) (w' := w0);
    [|intros t' Ht'; apply (find_relevant_topics_keys E q); rewrite Hcand;
      apply in_or_app; now left|exact Hpre].
  rewrite (keyword_loop_accept E q t page post (after E s w0 evs0) c r
             confidence answer w1 w2 Hpage Hsc Hrel Hconf Hans).
  now rewrite after_after.
Qed.

(** The scenario of the Battery and Charger catalog: Battery is scored 80,
    the answer is the keyword match on Battery, and the log holds the fetch
    and the scoring of Battery and the completion of the answer only. *)
Lemma keyword_match_short_circuits_witness :
  find_relevant_topics Script.battery_env "How do I maintain my battery?"
  = ["Battery"]
  /\ chat Script.battery_env (request "How do I maintain my battery?")
       (Script.start Script.battery_env 0%nat)
     = (Ok {| status := 200;
              payload_of :=
                ChatBody
                  {| b_topic := Some "Battery";
                     b_response := Some "Here is what the documentation says.";
                     b_confidence := PInt 80;
                     b_source := "keyword_match";
                     b_available_topics := None;
                     b_images := [Script.diagram] |} |},
        Build_state Script.battery_env 3%nat
          [Fetched "id1" (Some Script.battery_doc);
           Completed MODEL (1 # 10)
             (relevance_prompt "How do I maintain my battery?"
                (text Script.battery_doc))
             (Some (Some (Script.verdict_json "true" "80")));
           Completed MODEL (3 # 10)
             (keyword_prompt "Battery" Script.battery_doc
                "How do I maintain my battery?")
             (Some (Some "Here is what the documentation says."))]).
Proof.
  split; [reflexivity|].
  apply (keyword_match_short_circuits Script.battery_env
           "How do I maintain my battery?" [] [] "Battery" "url-ending-id1"
           (Script.start Script.battery_env 0%nat) [] 0%nat 2%nat 3%nat
           Script.battery_doc
           (Some (Some (Script.verdict_json "true" "80"))) (PInt 80)
           (Some "Here is what the documentation says.")).
  - reflexivity.
  - reflexivity.
  - split; reflexivity.
  - reflexivity.
  - exists 1%nat. repeat split; reflexivity.
  - reflexivity.
  - reflexivity.
  - reflexivity.
Defined.

Lemma for_each_app (E : env) {A B : Type} (loop_body : A -> B -> M E A)
  (l1 l2 : list B) :
  forall (acc : A) (s : state E),
    for_each loop_body (l1 ++ l2)%list acc s
    = match for_each loop_body l1 acc s with
      | (Ok acc1, s1) => for_each loop_body l2 acc1 s1
      | (Raise e, s1) => (Raise e, s1)
      end.
Proof.
  induction l1 as [|x l1 IH]; intros acc s; [reflexivity|].
  simpl app. rewrite !for_each_cons.
  destruct (loop_body acc x s) as [[acc1|e] s1]; [apply IH|reflexivity].
Qed.

(** A relevant verdict whose confidence is the same number as the bound does
    not pass the test against it: a tie is not an improvement. *)
Lemma equal_confidence_not_above (v relevant : pyval) (a b : Q) :
  py_getitem v "relevant" = Ok relevant ->
  py_getitem v "confidence" = Ok (PNum (Fin a)) ->
  (a == b)%Q ->
  not_above (PNum (Fin b)) v.
Proof.
  intros Hr Hc Hab. unfold not_above, relevant_above. rewrite Hr, Hc.
  destruct (truthy relevant); [|reflexivity].
  unfold py_gt. simpl. f_equal. apply negb_false_iff, Qle_bool_iff.
  rewrite Hab. apply Qle_refl.
Qed.

(** C1: the search over all topics keeps the earliest of the best verdicts.
    Let the catalog be [pre], then topic [A], then [post].  When every topic
    of [pre] has an empty text or a verdict that is not relevant or is
    strictly below the confidence of [A], the verdict of [A] is relevant
    above 50, and every topic of [post] has an empty text or a verdict that
    does not pass the strict test against the confidence of [A] (not
    relevant, lower, or equal: [equal_confidence_not_above]), the search
    answers with the semantic match on [A].  For the catalog [{A: doc1, B:
    doc2}] with both scored 75 this is [A]. *)
Theorem earliest_best_wins (E : env) (q : string)
  (pre post : list (string * string)) (A pageA : string) (s : state E)
  (evs0 evs1 : list event) (w0 wA wB wZ : World E) (cA : content)
  (rA : option (option string)) (confA : pyval) (answer : option string) :
  let best := {| m_topic := A; m_content := cA; m_confidence := confA |} in
  NOTION_PAGES E = (pre ++ (A, pageA) :: post)%list ->
  scan_ok E q (strictly_below confA) (map snd pre) (world s) evs0 w0 ->
  scores E q pageA w0 cA rA wA ->
  relevant_above (verdict_of E rA) (PInt 50) = Ok true ->
  py_getitem (verdict_of E rA) "confidence" = Ok confA ->
  scan_ok E q (not_above confA) (map snd post) wA evs1 wB ->
  groq_chat E MODEL (3 # 10) (semantic_prompt best q) wB = (Some answer, wZ) ->
  semantic_phase E q s
  = (Ok {| status := 200;
           payload_of :=
             ChatBody {| b_topic := Some A;
                         b_response := answer;
                         b_confidence := confA;
                         b_source := "semantic_search";
                         b_available_topics := None;
                         b_images := images cA |} |},
     after E s wZ
       (Printed "No strong keyword match, searching all topics..."
        :: evs0 ++ scored_events q pageA cA rA ++ evs1
        ++ [Completed MODEL (3 # 10) (semantic_prompt best q) (Some answer)])%list).
Proof.
  intros best Hcat Hpre HA Hrel Hconf Hpost Hans.
  destruct (relevant_above_true _ _ Hrel) as (rel & c & Hr & Ht & Hc & Hgt50).
  assert (c = confA) as -> by congruence.
  assert (Hgt0 : py_gt confA (PInt 0) = Ok true).
  { now apply py_gt_trans with (PInt 50). }
  rewrite semantic_phase_run. cbv zeta. rewrite Hcat, for_each_app.
  set (s0 := after E s (world s)
               [Printed "No strong keyword match, searching all topics..."]).
  (* the topics before A *)
  destruct (for_each_scan E q (strictly_below confA)
              (fun _ bound => py_gt confA bound = Ok true))
    with (items := pre) (acc := scan_start) (s := s0) (evs := evs0) (w' := w0)
    as (acc0 & -> & Hinv0); [|exact Hpre|exact Hgt0|].
  { intros _ bound v Hb (rel' & Hr' & [Hf|(c' & Hc' & Hlt)]).
    - left. unfold relevant_above. now rewrite Hr', Hf.
    - destruct (truthy rel') eqn:Ht'.
      + rewrite (relevant_above_eq _ _ _ _ Hr' Ht' Hc').
        destruct (py_gt_numbers _ _ _ Hlt) as (x & y & _ & Hy & _).
        destruct (py_gt_numbers _ _ _ Hb) as (x' & z & _ & Hz & _).
        unfold py_gt. rewrite Hy, Hz.
        destruct (num_gt y z); [right|now left].
        split; [reflexivity|]. exists c'. split; [exact Hc'|].
        intros _ _. exact Hlt.
      + left. unfold relevant_above. now rewrite Hr', Ht'. }
  (* A itself *)
  rewrite for_each_cons.
  rewrite (search_topic_scores E q acc0 A pageA (after E s0 w0 evs0) cA rA wA HA).
  rewrite (relevant_above_eq _ _ _ _ Hr Ht Hc), Hinv0, Hc.
  (* the topics after A *)
  match goal with
  | |- context [for_each _ post ?acc1 ?s1] =>
      destruct (for_each_scan E q (not_above confA)
                  (fun b bound => b = Some best /\ bound = confA))
        with (items := post) (acc := acc1) (s := s1) (evs := evs1) (w' := wB)
        as (acc2 & -> & Hbest2 & Hbound2);
        [|exact Hpost|split; reflexivity|]
  end.
  { intros b bound v [_ ->] Hv. now left. }
  rewrite Hbest2. cbn [m_confidence best]. rewrite Hgt50.
  cbn [world after]. rewrite Hans. unfold s0. rewrite !after_after.
  reflexivity.
Qed.

(** The catalog [{A: doc1, B: doc2}] with both topics scored relevant with
    confidence 75: the semantic match is on [A]. *)
Lemma earliest_best_wins_witness :
  not_above (PInt 75) (Script.verdict true 75)
  /\ fst (semantic_phase Script.tie_env "help me"
            (Script.start Script.tie_env 0%nat))
     = Ok {| status := 200;
             payload_of :=
               ChatBody
                 {| b_topic := Some "A";
                    b_response := Some "Here is what the documentation says.";
                    b_confidence := PInt 75;
                    b_source := "semantic_search";
                    b_available_topics := None;
                    b_images := [] |} |}
  /\ chat Script.tie_env (request "help me") (Script.start Script.tie_env 0%nat)
     = semantic_phase Script.tie_env "help me"
         (Script.start Script.tie_env 0%nat).
Proof.
  split; [|split; [|reflexivity]].
  - apply (equal_confidence_not_above _ (PBool true) 75 75); reflexivity.
  - rewrite (earliest_best_wins Script.tie_env "help me" [] [("B", "doc2")]
               "A" "doc1" (Script.start Script.tie_env 0%nat) []
               (scored_events "help me" "doc2"
                  {| text := "Second manual."; images := [Script.diagram] |}
                  (Some (Some (Script.verdict_json "true" "75"))) ++ [])%list
               0%nat 2%nat 4%nat 5%nat
               {| text := "First manual."; images := [] |}
               (Some (Some (Script.verdict_json "true" "75"))) (PInt 75)
               (Some "Here is what the documentation says.")).
    + reflexivity.
    + reflexivity.
    + split; reflexivity.
    + exists 1%nat. repeat split; reflexivity.
    + reflexivity.
    + reflexivity.
    + exists 4%nat. eexists. exists []. split; [|split; [split|]; reflexivity].
      right. eexists. eexists. split; [|split; [|reflexivity]].
      * exists 3%nat. repeat split; reflexivity.
      * reflexivity.
    + reflexivity.
Defined.

Lemma scan_ok_weaken (E : env) (q : string) (P Q' : pyval -> Prop) :
  (forall v, P v -> Q' v) ->
  forall pages w evs w',
    scan_ok E q P pages w evs w' -> scan_ok E q Q' pages w evs w'.
Proof.
  intros HPQ. induction pages as [|page pages IH]; intros w evs w';
    [trivial|].
  simpl. intros (w1 & evs1 & evs2 & Hturn & Hrest & ->).
  exists w1, evs1, evs2. split; [|split; [now apply IH|reflexivity]].
  destruct Hturn as [Hskip|(c & r & Hsc & HP & He)]; [now left|].
  right. exists c, r. split; [exact Hsc|]. split; [now apply HPQ|exact He].
Qed.

(** What is not above 50 is not above 60. *)
Lemma not_above_50_60 (v : pyval) :
  not_above (PInt 50) v -> not_above (PInt 60) v.
Proof.
  unfold not_above, relevant_above.
  destruct (py_getitem v "relevant") as [rel|]; [|discriminate].
  destruct (truthy rel); [|reflexivity].
  destruct (py_getitem v "confidence") as [conf|]; [|discriminate].
  unfold py_gt. destruct (as_number conf) as [x|]; [|discriminate].
  simpl. intros H. injection H as H. f_equal.
  apply num_gt_weaken with (inject_Z 50); [|exact H].
  now apply Qle_bool_iff.
Qed.

(** C6: when every topic examined, in the keyword search and in the search
    over all topics, has an empty text or a verdict that is not relevant
    above 50, and the completion for the fallback comes back, [chat] answers
    with status 200, no topic, confidence 0, source [no_match], the names of
    all topics in the order of the catalog, no image, and the text that the
    model returned for the fallback prompt. *)
Theorem no_match_when_nothing_relevant (E : env) (q : string) (s : state E)
  (evs1 evs2 : list event) (w1 w2 w3 : World E) (answer : option string) :
  let available_topics := keys (NOTION_PAGES E) in
  nonempty q = true ->
  scan_ok E q (not_above (PInt 50)) (pages_of E (find_relevant_topics E q))
    (world s) evs1 w1 ->
  scan_ok E q (not_above (PInt 50)) (map snd (NOTION_PAGES E)) w1 evs2 w2 ->
  groq_chat E MODEL (3 # 10) (fallback_prompt q available_topics) w2
  = (Some answer, w3) ->
  chat E (request q) s
  = (Ok {| status := 200;
           payload_of :=
             ChatBody {| b_topic := None;
                         b_response := answer;
                         b_confidence := PInt 0;
                         b_source := "no_match";
                         b_available_topics := Some available_topics;
                         b_images := [] |} |},
     after E s w3
       (evs1
        ++ Printed "No strong keyword match, searching all topics..."
        :: evs2
        ++ [Completed MODEL (3 # 10) (fallback_prompt q available_topics)
              (Some answer)])%list).
Proof.
  intros available_topics Hq Hkw Hall Hans.
  rewrite (chat_run E (request q) q s eq_refl Hq).
  rewrite (keyword_loop_scan E q (find_relevant_topics E q)
             (find_relevant_topics_keys E q) s evs1 w1
             (scan_ok_weaken E q _ _ not_above_50_60 _ _ _ _ Hkw)).
  rewrite semantic_phase_run. cbv zeta.
  set (line := Printed "No strong keyword match, searching all topics...").
  set (s1 := after E s w1 evs1). change (world s1) with w1.
  destruct (for_each_scan E q (not_above (PInt 50))
              (fun b bound =>
                 (exists n, as_number bound = Some n)
                 /\ match b with
                    | None => True
                    | Some m => py_gt (m_confidence m) (PInt 50) = Ok false
                    end))
    with (items := NOTION_PAGES E) (acc := scan_start)
         (s := after E s1 w1 [line]) (evs := evs2) (w' := w2)
    as (acc & Hrun & _ & Hbest); [|exact Hall|split; [now eexists|exact I]|].
  { intros b bound v [[n Hn] _] Hv. unfold not_above, relevant_above in Hv.
    unfold relevant_above.
    destruct (py_getitem v "relevant") as [rel|]; [|discriminate].
    destruct (truthy rel); [|now left].
    destruct (py_getitem v "confidence") as [conf|]; [|discriminate].
    destruct (py_gt_numbers _ _ _ Hv) as (x & y & Hx & _ & _).
    unfold py_gt at 1 2. rewrite Hx, Hn.
    destruct (num_gt x n); [right|now left].
    split; [reflexivity|]. exists conf. split; [reflexivity|].
    intros topic c. split; [now exists x|exact Hv]. }
  rewrite Hrun. unfold s1. rewrite !after_after.
  assert (Hfall : no_match E q (after E s w2 (evs1 ++ [line] ++ evs2)%list)
                  = (Ok {| status := 200;
                           payload_of :=
                             ChatBody {| b_topic := None;
                                         b_response := answer;
                                         b_confidence := PInt 0;
                                         b_source := "no_match";
                                         b_available_topics :=
                                           Some available_topics;
                                         b_images := [] |} |},
                     after E s w3
                       (evs1 ++ line :: evs2
                        ++ [Completed MODEL (3 # 10)
                              (fallback_prompt q available_topics)
                              (Some answer)])%list)).
  { rewrite no_match_run. cbv zeta. cbn [world after]. fold available_topics.
    rewrite Hans. unfold after. cbn [world log]. f_equal. f_equal.
    rewrite <- !app_assoc. reflexivity. }
  destruct (best_match acc) as [m|]; [|exact Hfall].
  rewrite Hbest. exact Hfall.
Qed.

(** With a model that finds nothing relevant, the Battery question gets the
    fallback, with both topics listed. *)
Lemma no_match_when_nothing_relevant_witness :
  fst (chat Script.quiet_env (request "How do I maintain my battery?")
         (Script.start Script.quiet_env 0%nat))
  = Ok {| status := 200;
          payload_of :=
            ChatBody
              {| b_topic := None;
                 b_response := Some "Here is what the documentation says.";
                 b_confidence := PInt 0;
                 b_source := "no_match";
                 b_available_topics := Some ["Battery"; "Charger"];
                 b_images := [] |} |}.
Proof.
  rewrite (no_match_when_nothing_relevant Script.quiet_env
             "How do I maintain my battery?"
             (Script.start Script.quiet_env 0%nat)
             (scored_events "How do I maintain my battery?" "url-ending-id1"
                Script.battery_doc
                (Some (Some (Script.verdict_json "false" "10"))) ++ [])%list
             (scored_events "How do I maintain my battery?" "url-ending-id1"
                Script.battery_doc
                (Some (Some (Script.verdict_json "false" "10")))
              ++ scored_events "How do I maintain my battery?"
                   "url-ending-id2" Script.charger_doc
                   (Some (Some (Script.verdict_json "false" "10"))) ++ [])%list
             2%nat 6%nat 7%nat (Some "Here is what the documentation says.")).
  - reflexivity.
  - reflexivity.
  - exists 2%nat. eexists. exists []. split; [|split; [split|]; reflexivity].
    right. eexists. eexists.
    split; [exists 1%nat; repeat split; reflexivity|split; reflexivity].
  - exists 4%nat. eexists. eexists. split; [|split; [|reflexivity]].
    + right. eexists. eexists.
      split; [exists 3%nat; repeat split; reflexivity|split; reflexivity].
    + exists 6%nat. eexists. exists [].
      split; [|split; [split|]; reflexivity].
      right. eexists. eexists.
      split; [exists 5%nat; repeat split; reflexivity|split; reflexivity].
  - reflexivity.
Defined.

Lemma selected_confidence (E : env) (q : string) (bound : Z) (topic : string)
  (c : content) (b : body) (evs : list event) :
  selected E q bound topic c b evs ->
  nonempty (text c) = true /\ py_gt (b_confidence b) (PInt bound) = Ok true.
Proof.
  intros (_ & _ & page & v & _ & (_ & Hne & _) & Hrel & Hconf).
  split; [exact Hne|].
  destruct (relevant_above_true _ _ Hrel) as (rel & conf & _ & _ & Hc & Hgt).
  congruence.
Qed.

(** C2: every answer of [chat] that names a topic comes from a page of the
    catalog that was fetched during the request with a text that is not
    empty, and carries the confidence of a relevant verdict on that text:
    above 60 for a keyword match, above 50 for a semantic match.  The only
    other answer is the fallback, which names no topic and has no image. *)
Theorem match_has_text_and_confidence (E : env) (data : pyval)
  (s s' : state E) (st : Z) (b : body) :
  chat E data s = (Ok {| status := st; payload_of := ChatBody b |}, s') ->
  exists q evs,
    py_get data "query" = Ok (PStr q)
    /\ log s' = (log s ++ evs)%list
    /\ ((b_source b = "keyword_match"
         /\ exists topic c,
              selected E q 60 topic c b evs
              /\ nonempty (text c) = true
              /\ py_gt (b_confidence b) (PInt 60) = Ok true)
        \/ (b_source b = "semantic_search"
            /\ exists topic c,
                 selected E q 50 topic c b evs
                 /\ nonempty (text c) = true
                 /\ py_gt (b_confidence b) (PInt 50) = Ok true)
        \/ (b_source b = "no_match"
            /\ b_topic b = None
            /\ b_images b = [])).
Proof.
  intros Hrun.
  destruct (chat_inv E _ _ _ _ Hrun)
    as [[Hbad _]|(q & evs & b' & Hq & _ & Hlog & Hout & Hb)];
    [discriminate|].
  injection Hb as _ <-. exists q, evs. split; [exact Hq|].
  split; [exact Hlog|].
  destruct Hout as [(Hs & _ & topic & c & Hsel & _)
                   |[(Hs & _ & m & Hsel & _)|(Hs & Ht & _ & Hi & _)]].
  - left. split; [exact Hs|]. exists topic, c. split; [exact Hsel|].
    exact (selected_confidence E _ _ _ _ _ _ Hsel).
  - right. left. split; [exact Hs|]. exists (m_topic m), (m_content m).
    split; [exact Hsel|]. exact (selected_confidence E _ _ _ _ _ _ Hsel).
  - right. right. now split.
Qed.

Lemma match_has_text_and_confidence_witness :
  chat Script.battery_env (request "How do I maintain my battery?")
    (Script.start Script.battery_env 0%nat)
  = (Ok {| status := 200;
           payload_of :=
             ChatBody
               {| b_topic := Some "Battery";
                  b_response := Some "Here is what the documentation says.";
                  b_confidence := PInt 80;
                  b_source := "keyword_match";
                  b_available_topics := None;
                  b_images := [Script.diagram] |} |},
     snd (chat Script.battery_env (request "How do I maintain my battery?")
            (Script.start Script.battery_env 0%nat)))
  /\ nonempty (text Script.battery_doc) = true
  /\ py_gt (PInt 80) (PInt 60) = Ok true.
Proof.
  split; [reflexivity|].
  destruct (match_has_text_and_confidence Script.battery_env
              (request "How do I maintain my battery?")
              (Script.start Script.battery_env 0%nat)
              (snd (chat Script.battery_env
                      (request "How do I maintain my battery?")
                      (Script.start Script.battery_env 0%nat)))
              200
              {| b_topic := Some "Battery";
                 b_response := Some "Here is what the documentation says.";
                 b_confidence := PInt 80;
                 b_source := "keyword_match";
                 b_available_topics := None;
                 b_images := [Script.diagram] |} eq_refl)
    as (q & evs & _ & Hlog
        & [(_ & topic & c & Hsel & Hne & Hgt)|[(Hs & _)|(Hs & _)]]);
    [|discriminate|discriminate].
  split; [|exact Hgt].
  destruct Hsel as (_ & _ & page & v & _ & (Hf & _) & _).
  vm_compute in Hlog. subst evs.
  destruct Hf as [Hf|[Hf|[Hf|[]]]]; try discriminate.
  injection Hf as _ <-. exact Hne.
Defined.

Lemma keyword_prompt_excerpt (topic q : string) (c c' : content) :
  take 7000 (text c') = take 7000 (text c) ->
  keyword_prompt topic c' q = keyword_prompt topic c q.
Proof. unfold keyword_prompt. now intros ->. Qed.

Lemma semantic_prompt_excerpt (topic q : string) (c c' : content)
  (confidence confidence' : pyval) :
  take 7000 (text c') = take 7000 (text c) ->
  semantic_prompt {| m_topic := topic; m_content := c';
                     m_confidence := confidence' |} q
  = semantic_prompt {| m_topic := topic; m_content := c;
                       m_confidence := confidence |} q.
Proof. unfold semantic_prompt. simpl. now intros ->. Qed.

(** C9: when [chat] answers with a keyword or a semantic match, exactly one
    prompt went through [ask_groq] during the request, and that prompt is
    the one built from the name of the winning topic, the query and any
    document whose first 7000 characters are those of the winning document,
    with any confidence: the images, the rest of the text and the confidence
    of the verdict do not enter it. *)
Theorem grounding_prompt_depends_on_excerpt_only (E : env) (data : pyval)
  (s s' : state E) (st : Z) (b : body) :
  chat E data s = (Ok {| status := st; payload_of := ChatBody b |}, s') ->
  b_source b <> "no_match" ->
  exists q evs topic c,
    py_get data "query" = Ok (PStr q)
    /\ log s' = (log s ++ evs)%list
    /\ b_topic b = Some topic
    /\ b_images b = images c
    /\ (exists page,
           In (topic, page) (NOTION_PAGES E)
           /\ In (Fetched (extract_page_id page) (Some c)) evs)
    /\ forall (c' : content) (confidence' : pyval),
         take 7000 (text c') = take 7000 (text c) ->
         ask_prompts evs
         = [if String.eqb (b_source b) "keyword_match"
            then keyword_prompt topic c' q
            else semantic_prompt {| m_topic := topic; m_content := c';
                                    m_confidence := confidence' |} q].
Proof.
  intros Hrun Hsrc.
  destruct (chat_inv E _ _ _ _ Hrun)
    as [[Hbad _]|(q & evs & b' & Hq & _ & Hlog & Hout & Hb)];
    [discriminate|].
  injection Hb as _ <-.
  destruct Hout as [(Hs & _ & topic & c & Hsel & Hp)
                   |[(Hs & _ & m & Hsel & _ & Hp)|(Hs & _)]];
    [| |contradiction].
  - exists q, evs, topic, c. split; [exact Hq|]. split; [exact Hlog|].
    destruct Hsel as (Ht & Hi & page & v & Hin & (Hf & _) & _).
    split; [exact Ht|]. split; [exact Hi|].
    split; [now exists page|].
    intros c' confidence' Hex. rewrite Hs, Hp. simpl String.eqb.
    now rewrite (keyword_prompt_excerpt topic q c c' Hex).
  - exists q, evs, (m_topic m), (m_content m). split; [exact Hq|].
    split; [exact Hlog|].
    destruct Hsel as (Ht & Hi & page & v & Hin & (Hf & _) & _).
    split; [exact Ht|]. split; [exact Hi|].
    split; [now exists page|].
    intros c' confidence' Hex. rewrite Hs, Hp. simpl String.eqb.
    rewrite (semantic_prompt_excerpt (m_topic m) q (m_content m) c'
               (m_confidence m) confidence' Hex).
    now destruct m.
Qed.

Lemma grounding_prompt_depends_on_excerpt_only_witness :
  ask_prompts
    (log (snd (chat Script.tie_env (request "help me")
                 (Script.start Script.tie_env 0%nat))))
  = [semantic_prompt
       {| m_topic := "A";
          m_content :=
            {| text := "First manual."; images := [Script.diagram] |};
          m_confidence := PInt 99 |} "help me"].
Proof.
  destruct (grounding_prompt_depends_on_excerpt_only Script.tie_env
              (request "help me") (Script.start Script.tie_env 0%nat)
              (snd (chat Script.tie_env (request "help me")
                      (Script.start Script.tie_env 0%nat)))
              200
              {| b_topic := Some "A";
                 b_response := Some "Here is what the documentation says.";
                 b_confidence := PInt 75;
                 b_source := "semantic_search";
                 b_available_topics := None;
                 b_images := [] |} eq_refl)
    as (q & evs & topic & c & Hq & Hlog & Ht & Hi & (page & _ & Hf) & Hp);
    [discriminate|].
  injection Hq as <-. injection Ht as <-.
  change (log (Script.start Script.tie_env 0%nat) ++ evs)%list with evs
    in Hlog.
  rewrite Hlog. apply Hp. vm_compute in Hlog. subst evs. simpl in Hi.
  destruct Hf as [Hf|[Hf|[Hf|[Hf|[Hf|[Hf|[]]]]]]]; try discriminate;
    injection Hf as _ <-; [reflexivity|discriminate].
Defined.

(** C10: when [search_all_topics] returns a best match, its confidence is
    greater than 0, in particular it is not 0, and it is the confidence of a
    verdict that the model gave on the text of that match during the search
    and whose [relevant] is true. *)
Theorem best_match_confidence_positive (E : env) (q : string)
  (s s' : state E) (m : match_) (all : list (string * content)) :
  search_all_topics E q s = (Ok (Some m, all), s') ->
  py_gt (m_confidence m) (PInt 0) = Ok true
  /\ m_confidence m <> PInt 0
  /\ exists evs page v relevant,
       log s' = (log s ++ evs)%list
       /\ In (m_topic m, page) (NOTION_PAGES E)
       /\ examined E q page (m_content m) v evs
       /\ py_getitem v "relevant" = Ok relevant
       /\ truthy relevant = true
       /\ py_getitem v "confidence" = Ok (m_confidence m).
Proof.
  unfold search_all_topics. rewrite bind_run.
  destruct (for_each (search_topic E q) (NOTION_PAGES E) scan_start s)
    as [[acc|e] s1] eqn:Hscan; [|discriminate].
  unfold ret. intros H. injection H as Hbest _ <-.
  destruct (for_each_tracked E q _ (incl_refl _) _ _ _ _ Hscan)
    as (evs & Hlog & Hkeep).
  destruct (Hkeep [] (tracked_start E q)) as [_ Ht]. rewrite Hbest in Ht.
  destruct Ht as (_ & page & v & Hin & Hex & Hrel & Hconf).
  destruct (relevant_above_true _ _ Hrel) as (rel & c & Hr & Htr & Hc & Hgt).
  assert (c = m_confidence m) as -> by congruence.
  split; [exact Hgt|]. split.
  - intros Hzero. rewrite Hzero in Hgt. discriminate.
  - exists evs, page, v, rel. repeat (split; [assumption|]). exact Hconf.
Qed.

Lemma best_match_confidence_positive_witness :
  py_gt (PInt 75) (PInt 0) = Ok true
  /\ PInt 75 <> PInt 0
  /\ fst (search_all_topics Script.zero_env "help me"
            (Script.start Script.zero_env 0%nat))
     = Ok (None,
           [("A", {| text := "First manual."; images := [] |});
            ("B", {| text := "Second manual.";
                     images := [Script.diagram] |})]).
Proof.
  destruct (best_match_confidence_positive Script.tie_env "help me"
              (Script.start Script.tie_env 0%nat)
              (snd (search_all_topics Script.tie_env "help me"
                      (Script.start Script.tie_env 0%nat)))
              {| m_topic := "A";
                 m_content := {| text := "First manual."; images := [] |};
                 m_confidence := PInt 75 |}
              [("A", {| text := "First manual."; images := [] |});
               ("B", {| text := "Second manual.";
                        images := [Script.diagram] |})]
              eq_refl) as (Hgt & Hnz & _).
  split; [exact Hgt|]. split; [exact Hnz|reflexivity].
Defined.


(** ** More on the code: the flattening of a page *)

Section BlockFacts.

Import Blocks.

Lemma all_strings_map (l : list string) : all_strings (map PStr l) = Ok l.
Proof. induction l as [|s l IH]; simpl; [reflexivity|now rewrite IH]. Qed.

Lemma py_join_map (sep : string) (l : list string) :
  py_join sep (map PStr l) = Ok (join sep l).
Proof. unfold py_join. now rewrite all_strings_map. Qed.

Lemma comprehension_segments (l : list string) :
  comprehension (fun t => py_getitem t "plain_text") (map segment l)
  = Ok (map PStr l).
Proof. induction l as [|s l IH]; simpl; [reflexivity|now rewrite IH]. Qed.

Lemma flatten_loop_app (l1 l2 : list pyval) :
  forall acc,
    flatten_loop (l1 ++ l2)%list acc
    = match flatten_loop l1 acc with
      | Ok acc1 => flatten_loop l2 acc1
      | Raise e => Raise e
      end.
Proof.
  induction l1 as [|b l1 IH]; intros acc; [reflexivity|].
  simpl. destruct (flatten_block acc b) as [acc1|e]; [apply IH|reflexivity].
Qed.

Lemma flatten_blocks_listing (items : list pyval) :
  flatten_blocks (listing items)
  = match flatten_loop items ([], []) with
    | Ok acc =>
        match py_join " " (fst acc) with
        | Ok t => Ok {| p_text := t; p_images := snd acc |}
        | Raise e => Raise e
        end
    | Raise e => Raise e
    end.
Proof. reflexivity. Qed.

Lemma lookup_type_first (kind : string) (v : pyval) :
  String.eqb kind "type" = false ->
  lookup kind [("type", PStr kind); (kind, v)] = Some v.
Proof.
  intros H. cbn [lookup]. rewrite (String.eqb_sym "type" kind), H.
  now rewrite String.eqb_refl.
Qed.

Lemma image_entry_json (external : bool) (link : string) (caps : list string) :
  image_entry
    (PDict [("type", PStr (hosting external));
            (hosting external, PDict [("url", PStr link)]);
            ("caption", PList (map segment caps))])
  = Ok (if nonempty link
        then Some {| i_url := PStr link; i_caption := join " " caps |}
        else None).
Proof.
  assert (Hcap : forall l,
             (let* plain :=
                comprehension (fun t => py_getitem t "plain_text")
                  (map segment l) in
              py_join " " plain)
             = Ok (join " " l)).
  { intros l. rewrite comprehension_segments. cbn [rbind].
    apply py_join_map. }
  destruct external; unfold image_entry, hosting;
    cbn [py_get py_getitem lookup String.eqb Ascii.eqb Bool.eqb rbind
         py_eq_str truthy];
    (destruct caps as [|cap caps];
     [reflexivity
     |change (map segment (cap :: caps))
        with (segment cap :: map segment caps);
      cbn [truthy py_iter rbind];
      change (segment cap :: map segment caps)
        with (map segment (cap :: caps));
      rewrite Hcap; reflexivity]).
Qed.

(** One block as Notion sends it adds what [shape_texts] and [shape_images]
    tell. *)
Lemma flatten_block_json (b : block_shape) (texts : list pyval)
  (imgs : list page_image) :
  kind_ok b = true ->
  flatten_block (texts, imgs) (block_json b)
  = Ok ((texts ++ map PStr (shape_texts b))%list,
        (imgs ++ shape_images b)%list).
Proof.
  assert (Hget : forall (k : string) (v : pyval) rest,
             py_get (PDict ((k, v) :: rest)) k = Ok v).
  { intros k v rest. simpl. now rewrite String.eqb_refl. }
  destruct b as [kind segments|external link caps|kind]; simpl kind_ok.
  - intros H. apply andb_true_iff in H as [H Himg].
    apply andb_true_iff in H as [Hne Hty].
    apply negb_true_iff in Himg, Hty.
    unfold block_json, flatten_block. rewrite Hget. cbn [rbind truthy].
    rewrite Hne. unfold dict_subscript.
    rewrite (lookup_type_first _ _ Hty). cbn [rbind]. rewrite Hget.
    cbn [rbind py_eq_str]. rewrite Himg.
    destruct segments as [|first rest]; simpl; now rewrite ?app_nil_r.
  - intros _. pose proof (image_entry_json external link caps) as Himage.
    unfold block_json, flatten_block. rewrite Hget.
    destruct external; unfold hosting in *;
      cbn [rbind truthy nonempty dict_subscript py_get py_getitem lookup
           String.eqb Ascii.eqb Bool.eqb is_true_dec py_eq_str];
      rewrite Himage; cbn [rbind shape_texts shape_images map];
      rewrite app_nil_r; now destruct (nonempty link); rewrite ?app_nil_r.
  - intros H. apply andb_true_iff in H as [H Himg].
    apply andb_true_iff in H as [Hne Hty].
    apply negb_true_iff in Himg, Hty.
    unfold block_json, flatten_block. rewrite Hget. cbn [rbind truthy].
    rewrite Hne. unfold dict_subscript.
    rewrite (lookup_type_first _ _ Hty). cbn [rbind py_get lookup].
    cbn [py_eq_str]. rewrite Himg. simpl. now rewrite !app_nil_r.
Qed.

Lemma flatten_loop_json (shapes : list block_shape) :
  forallb kind_ok shapes = true ->
  forall texts imgs,
    flatten_loop (map block_json shapes) (texts, imgs)
    = Ok ((texts ++ map PStr (flat_map shape_texts shapes))%list,
          (imgs ++ flat_map shape_images shapes)%list).
Proof.
  induction shapes as [|b shapes IH]; intros Hok texts imgs.
  - simpl. now rewrite !app_nil_r.
  - simpl in Hok. apply andb_true_iff in Hok as [Hb Hrest].
    cbn [map flatten_loop]. rewrite (flatten_block_json _ _ _ Hb).
    cbn [rbind]. rewrite (IH Hrest). simpl flat_map.
    now rewrite map_app, !app_assoc.
Qed.

End BlockFacts.

(** X1: on blocks that hold what the code reads of a Notion block
    ([block_json]), [fetch_page_content] keeps the first rich-text segment
    of every block that has one, joined by single spaces in the order of
    the page (the segments after the first are dropped), and one image per
    image block whose link is not empty, with the segments of its caption
    joined by spaces. *)
Theorem flatten_blocks_of_shapes (shapes : list Blocks.block_shape) :
  forallb Blocks.kind_ok shapes = true ->
  Blocks.flatten_blocks (Blocks.listing (map Blocks.block_json shapes))
  = Ok {| Blocks.p_text := join " " (flat_map Blocks.shape_texts shapes);
          Blocks.p_images := flat_map Blocks.shape_images shapes |}.
Proof.
  intros Hok. rewrite flatten_blocks_listing, (flatten_loop_json _ Hok).
  cbn [fst snd app]. now rewrite py_join_map.
Qed.

Lemma flatten_blocks_of_shapes_witness :
  Blocks.flatten_blocks
    (Blocks.listing
       (map Blocks.block_json
          [Blocks.TextBlock "paragraph" ["Keep the pack cool."; " Always."];
           Blocks.ImageBlock true "https://example.com/wiring.png"
             ["Wiring"; "diagram"];
           Blocks.BareBlock "divider";
           Blocks.ImageBlock false EmptyString ["lost"];
           Blocks.TextBlock "heading_1" [];
           Blocks.TextBlock "quote" ["Charge weekly."]]))
  = Ok {| Blocks.p_text := "Keep the pack cool. Charge weekly.";
          Blocks.p_images :=
            [{| Blocks.i_url := PStr "https://example.com/wiring.png";
                Blocks.i_caption := "Wiring diagram" |}] |}.
Proof.
  apply (flatten_blocks_of_shapes
           [Blocks.TextBlock "paragraph" ["Keep the pack cool."; " Always."];
            Blocks.ImageBlock true "https://example.com/wiring.png"
              ["Wiring"; "diagram"];
            Blocks.BareBlock "divider";
            Blocks.ImageBlock false EmptyString ["lost"];
            Blocks.TextBlock "heading_1" [];
            Blocks.TextBlock "quote" ["Charge weekly."]]).
  reflexivity.
Defined.

Lemma falsy_not_image (t : pyval) :
  truthy t = false -> Blocks.py_eq_str t "image" = false.
Proof. destruct t as [| | |[|c s]| |]; simpl; congruence. Qed.

(** X2: a block without a type, or whose type is null, empty or otherwise
    false, is passed over: the page reads the same with or without it. *)
Theorem flatten_blocks_skips_untyped (before rest : list pyval)
  (d : list (string * pyval)) (t : pyval) :
  py_get (PDict d) "type" = Ok t ->
  truthy t = false ->
  Blocks.flatten_blocks (Blocks.listing (before ++ PDict d :: rest)%list)
  = Blocks.flatten_blocks (Blocks.listing (before ++ rest)%list).
Proof.
  intros Hty Hfalse. rewrite !flatten_blocks_listing, !flatten_loop_app.
  destruct (Blocks.flatten_loop before ([], [])) as [[texts imgs]|e];
    [|reflexivity].
  cbn [Blocks.flatten_loop]. unfold Blocks.flatten_block at 1.
  rewrite Hty. cbn [Blocks.rbind]. rewrite Hfalse, (falsy_not_image _ Hfalse).
  reflexivity.
Qed.

Lemma flatten_blocks_skips_untyped_witness :
  Blocks.flatten_blocks
    (Blocks.listing
       ([Blocks.block_json (Blocks.TextBlock "paragraph" ["One"])]
        ++ PDict [("id", PStr "b2"); ("type", PNone)]
        :: [Blocks.block_json (Blocks.TextBlock "paragraph" ["Two"])])%list)
  = Blocks.flatten_blocks
      (Blocks.listing
         ([Blocks.block_json (Blocks.TextBlock "paragraph" ["One"])]
          ++ [Blocks.block_json (Blocks.TextBlock "paragraph" ["Two"])])%list).
Proof.
  apply (flatten_blocks_skips_untyped _ _ _ PNone); reflexivity.
Defined.

(** X3: a block whose type names a key that the block does not have makes
    [fetch_page_content] raise [KeyError], whatever comes after it: no
    partial page is returned. *)
Theorem flatten_blocks_missing_content (before rest : list pyval)
  (d : list (string * pyval)) (k : string)
  (acc : list pyval * list Blocks.page_image) :
  Blocks.flatten_loop before ([], []) = Ok acc ->
  lookup "type" d = Some (PStr k) ->
  nonempty k = true ->
  lookup k d = None ->
  Blocks.flatten_blocks (Blocks.listing (before ++ PDict d :: rest)%list)
  = Raise KeyError.
Proof.
  intros Hbefore Hty Hne Hk. rewrite flatten_blocks_listing, flatten_loop_app.
  rewrite Hbefore. cbn [Blocks.flatten_loop]. destruct acc as [texts imgs].
  unfold Blocks.flatten_block. cbn [py_get]. rewrite Hty.
  cbn [Blocks.rbind truthy]. rewrite Hne. cbn [Blocks.dict_subscript].
  rewrite Hk. reflexivity.
Qed.

Lemma flatten_blocks_missing_content_witness :
  Blocks.flatten_blocks
    (Blocks.listing
       ([Blocks.block_json (Blocks.TextBlock "paragraph" ["One"])]
        ++ PDict [("type", PStr "paragraph")]
        :: [Blocks.block_json (Blocks.TextBlock "paragraph" ["Two"])])%list)
  = Raise KeyError.
Proof.
  apply (flatten_blocks_missing_content _ _ _ "paragraph" ([PStr "One"], []));
    reflexivity.
Defined.

Ltac rbind_cases :=
  repeat match goal with
    | |- context [Blocks.rbind ?r _] =>
        let x := fresh "x" in
        let Hx := fresh "Hx" in
        destruct r as [x|] eqn:Hx; cbn [Blocks.rbind]; [|discriminate]
    end.

Lemma image_entry_true_url (image_data : pyval) (img : Blocks.page_image) :
  Blocks.image_entry image_data = Ok (Some img) ->
  truthy (Blocks.i_url img) = true.
Proof.
  unfold Blocks.image_entry. rbind_cases.
  destruct (truthy x0) eqn:Hurl; [|discriminate].
  intros H. injection H as <-. exact Hurl.
Qed.

Lemma flatten_block_true_urls (acc acc' : list pyval * list Blocks.page_image)
  (block : pyval) :
  Blocks.flatten_block acc block = Ok acc' ->
  Forall (fun img => truthy (Blocks.i_url img) = true) (snd acc) ->
  Forall (fun img => truthy (Blocks.i_url img) = true) (snd acc')
  /\ (length (snd acc') <= S (length (snd acc)))%nat.
Proof.
  destruct acc as [texts imgs]. unfold Blocks.flatten_block.
  destruct block as [| | | | |d]; try discriminate.
  rbind_cases. intros H. injection H as <-. cbn [snd]. intros Hall.
  revert Hx1. destruct (Blocks.py_eq_str x "image").
  - rbind_cases. intros H. injection H as <-.
    destruct x3 as [img|]; [|split; [exact Hall|apply Nat.le_succ_diag_r]].
    split.
    + apply Forall_app. split; [exact Hall|].
      constructor; [|constructor]. now apply image_entry_true_url with x2.
    + rewrite length_app. simpl. rewrite Nat.add_1_r. apply le_n.
  - intros H. injection H as <-. split; [exact Hall|apply Nat.le_succ_diag_r].
Qed.

(** X4: whatever JSON the Notion client returns, when [fetch_page_content]
    returns a page every image of it has a URL that is true in Python's
    sense (never null, never the empty string), and there is at most one
    image per item of [results]. *)
Theorem flatten_blocks_images_have_urls (blocks : pyval) (p : Blocks.page) :
  Blocks.flatten_blocks blocks = Ok p ->
  Forall (fun img => truthy (Blocks.i_url img) = true) (Blocks.p_images p)
  /\ forall items,
       py_getitem blocks "results" = Ok (PList items) ->
       (length (Blocks.p_images p) <= length items)%nat.
Proof.
  unfold Blocks.flatten_blocks.
  destruct (py_getitem blocks "results") as [results|]; [|discriminate].
  cbn [Blocks.rbind].
  destruct (Blocks.py_iter results) as [items|] eqn:Hiter; [|discriminate].
  cbn [Blocks.rbind].
  assert (Hloop : forall l acc acc',
             Blocks.flatten_loop l acc = Ok acc' ->
             Forall (fun img => truthy (Blocks.i_url img) = true) (snd acc) ->
             Forall (fun img => truthy (Blocks.i_url img) = true) (snd acc')
             /\ (length (snd acc') <= length l + length (snd acc))%nat).
  { induction l as [|b l IH]; intros acc acc'.
    - simpl. intros H. injection H as <-. intros Hall. split; [exact Hall|].
      apply le_n.
    - cbn [Blocks.flatten_loop].
      destruct (Blocks.flatten_block acc b) as [acc1|] eqn:Hb; [|discriminate].
      cbn [Blocks.rbind]. intros Hrest Hall.
      destruct (flatten_block_true_urls _ _ _ Hb Hall) as [Hall1 Hlen1].
      destruct (IH _ _ Hrest Hall1) as [Hall' Hlen'].
      split; [exact Hall'|]. simpl. lia. }
  destruct (Blocks.flatten_loop items ([], [])) as [acc|] eqn:Hrun;
    [|discriminate].
  cbn [Blocks.rbind].
  destruct (Blocks.py_join " " (fst acc)) as [t|]; [|discriminate].
  cbn [Blocks.rbind]. intros H. injection H as <-. cbn [Blocks.p_images].
  destruct (Hloop _ _ _ Hrun (Forall_nil _)) as [Hall Hlen].
  split; [exact Hall|]. intros items' Hitems. injection Hitems as ->.
  simpl in Hiter. injection Hiter as <-. simpl in Hlen. lia.
Qed.

Lemma flatten_blocks_images_have_urls_witness :
  Forall (fun img => truthy (Blocks.i_url img) = true)
    [{| Blocks.i_url := PStr "https://example.com/wiring.png";
        Blocks.i_caption := "Wiring" |}].
Proof.
  apply (flatten_blocks_images_have_urls
           (Blocks.listing
              [Blocks.block_json
                 (Blocks.ImageBlock true "https://example.com/wiring.png"
                    ["Wiring"]);
               Blocks.block_json (Blocks.ImageBlock false EmptyString [])])
           {| Blocks.p_text := EmptyString;
              Blocks.p_images :=
                [{| Blocks.i_url := PStr "https://example.com/wiring.png";
                    Blocks.i_caption := "Wiring" |}] |} eq_refl).
Defined.

(** ** More on the code: page ids and candidates *)

Lemma split_on_single (sep : ascii) (s f : string) :
  split_on sep s = [f] -> s = f /\ occurs sep s = false.
Proof.
  revert f. induction s as [|c s IH]; intros f; simpl.
  - intros H. injection H as <-. now split.
  - destruct (Ascii.eqb c sep) eqn:Hc.
    + pose proof (split_on_not_nil sep s) as Hne.
      destruct (split_on sep s); [contradiction|discriminate].
    + destruct (split_on sep s) as [|g fs] eqn:Hs;
        [now destruct (split_on_not_nil sep s)|].
      intros H. injection H as <- ->.
      destruct (IH g eq_refl) as [-> Hocc]. now split.
Qed.

Lemma last_split_on_suffix (sep : ascii) (s : string) :
  occurs sep (last (split_on sep s) EmptyString) = false
  /\ (s = last (split_on sep s) EmptyString
      \/ exists pre,
           s = pre ++ String sep (last (split_on sep s) EmptyString)).
Proof.
  induction s as [|c s [IHocc IHsuf]]; [now split; [|left]|].
  destruct (Ascii.eqb c sep) eqn:Hc.
  - apply Ascii.eqb_eq in Hc as ->.
    assert (Hlast : last (split_on sep (String sep s)) EmptyString
                    = last (split_on sep s) EmptyString).
    { simpl. rewrite Ascii.eqb_refl.
      pose proof (split_on_not_nil sep s) as Hne.
      now destruct (split_on sep s). }
    rewrite Hlast. split; [exact IHocc|]. right.
    destruct IHsuf as [Hs|[pre Hs]].
    + exists EmptyString. simpl. now f_equal.
    + exists (String sep pre). simpl. now f_equal.
  - rewrite (last_split_on_cons _ _ _ _ Hc).
    destruct (split_on sep s) as [|f [|g fs]] eqn:Hs.
    + now destruct (split_on_not_nil sep s).
    + destruct (split_on_single _ _ _ Hs) as [-> Hocc]. simpl.
      rewrite Hc. split; [exact Hocc|now left].
    + split; [exact IHocc|]. right. destruct IHsuf as [Heq|[pre Heq]].
      * exfalso. rewrite <- Heq in IHocc.
        rewrite (split_on_absent _ _ IHocc) in Hs. discriminate.
      * exists (String c pre). simpl. now f_equal.
Qed.

(** X5: the page id never contains a hyphen, and the URL is the page id
    alone or something, a hyphen and the page id: the id is the longest
    suffix of the URL without a hyphen.  Taking the id of an id changes
    nothing. *)
Theorem extract_page_id_longest_suffix (url : string) :
  occurs "-" (extract_page_id url) = false
  /\ (url = extract_page_id url
      \/ exists pre, url = pre ++ "-" ++ extract_page_id url)
  /\ extract_page_id (extract_page_id url) = extract_page_id url.
Proof.
  destruct (last_split_on_suffix "-" url) as [Hocc Hsuf].
  split; [exact Hocc|]. split; [exact Hsuf|].
  clear Hsuf. fold (extract_page_id url) in Hocc. revert Hocc.
  generalize (extract_page_id url). intros id Hocc.
  unfold extract_page_id. now rewrite (split_on_absent _ _ Hocc).
Qed.

Lemma filter_incl_pred {A : Type} (f g : A -> bool) (l : list A) :
  (forall x, f x = true -> g x = true) ->
  incl (filter f l) (filter g l).
Proof.
  intros Hfg x Hx. apply filter_In in Hx as [Hin Hf].
  apply filter_In. split; [exact Hin|now apply Hfg].
Qed.

(** X6: the candidates depend on the query through its lower-cased form
    only, and when the lower-cased form of [q] occurs inside the lower-cased
    form of [q'], every candidate of [q] is a candidate of [q']. *)
Theorem find_relevant_topics_monotone (E : env) (q q' : string) :
  (lower q = lower q' ->
   find_relevant_topics E q = find_relevant_topics E q')
  /\ (forall before after,
         lower q' = before ++ lower q ++ after ->
         incl (find_relevant_topics E q) (find_relevant_topics E q')).
Proof.
  split.
  - intros H. now rewrite !find_relevant_topics_filter, H.
  - intros before after Hq'. rewrite !find_relevant_topics_filter.
    apply filter_incl_pred. intros t Ht.
    apply str_in_iff in Ht as (b & a & Hq). apply str_in_iff.
    exists (before ++ b), (a ++ after). rewrite Hq', Hq. clear.
    induction before as [|c s IH]; simpl.
    + induction b as [|c b IHb]; simpl; [|now rewrite IHb].
      induction (lower t) as [|c l IHl]; simpl; [reflexivity|now rewrite IHl].
    + now rewrite IH.
Qed.

Lemma find_relevant_topics_monotone_witness :
  find_relevant_topics Script.battery_env "BATTERY"
  = find_relevant_topics Script.battery_env "battery"
  /\ incl (find_relevant_topics Script.battery_env "battery")
       (find_relevant_topics Script.battery_env
          "Is my BATTERY charger broken?").
Proof.
  split.
  - apply (proj1 (find_relevant_topics_monotone Script.battery_env
                    "BATTERY" "battery")). reflexivity.
  - apply (proj2 (find_relevant_topics_monotone Script.battery_env
                    "battery" "Is my BATTERY charger broken?")
             "is my " " charger broken?"). reflexivity.
Defined.

(** ** More on the code: the relevance check and the search *)

Lemma text_preview_take (c : content) : text_preview c = take 1500 (text c).
Proof. unfold text_preview. now destruct (text c). Qed.

(** X7: [check_content_relevance] reads the query and the first 1500
    characters of the text only: two documents that agree on them get the
    same call, the same verdict and the same state afterwards, whatever
    their images and the rest of their text. *)
Theorem check_content_relevance_reads_preview (E : env) (q : string)
  (c c' : content) (s : state E) :
  take 1500 (text c) = take 1500 (text c') ->
  check_content_relevance E q c s = check_content_relevance E q c' s.
Proof.
  intros H. rewrite !check_content_relevance_run, !text_preview_take, H.
  reflexivity.
Qed.

Lemma check_content_relevance_reads_preview_witness :
  check_content_relevance Script.battery_env "How do I maintain my battery?"
    Script.battery_doc (Script.start Script.battery_env 0%nat)
  = check_content_relevance Script.battery_env "How do I maintain my battery?"
      {| text := text Script.battery_doc; images := [] |}
      (Script.start Script.battery_env 0%nat).
Proof.
  apply check_content_relevance_reads_preview. reflexivity.
Defined.

Lemma fetched_ids_app (evs evs' : list event) :
  fetched_ids (evs ++ evs')%list = (fetched_ids evs ++ fetched_ids evs')%list.
Proof. apply flat_map_app. Qed.

Lemma search_loop_fetches (E : env) (q : string)
  (items : list (string * string)) :
  forall (acc acc' : scan) (s s' : state E),
    for_each (search_topic E q) items acc s = (Ok acc', s') ->
    exists evs,
      log s' = (log s ++ evs)%list
      /\ fetched_ids evs = map (fun item => extract_page_id (snd item)) items
      /\ ask_prompts evs = []
      /\ (length evs <= 2 * length items)%nat.
Proof.
  induction items as [|[topic page] items IH]; intros acc acc' s s'.
  - simpl. unfold ret. intros H. injection H as _ <-. exists [].
    now rewrite app_nil_r.
  - rewrite for_each_cons.
    destruct (search_topic E q acc (topic, page) s) as [[acc1|e] s1] eqn:Hturn;
      [|discriminate].
    intros Hrest. destruct (IH _ _ _ _ Hrest) as (evs2 & Hlog2 & Hf2 & Ha2 & Hl2).
    assert (Hturn' : exists evs1,
               log s1 = (log s ++ evs1)%list
               /\ fetched_ids evs1 = [extract_page_id page]
               /\ ask_prompts evs1 = []
               /\ (length evs1 <= 2)%nat).
    { revert Hturn. rewrite search_topic_cases. cbv zeta.
      destruct (notion_page E (extract_page_id page) (world s))
        as [[c|] w1]; [|discriminate].
      destruct (nonempty (text c)).
      - destruct (groq_chat E MODEL (1 # 10) _ w1) as [r w2].
        intros H. injection H as _ <-. eexists. split; [reflexivity|].
        repeat split. simpl. lia.
      - intros H. injection H as _ <-. eexists. split; [reflexivity|].
        repeat split. simpl. lia. }
    destruct Hturn' as (evs1 & Hlog1 & Hf1 & Ha1 & Hl1).
    exists (evs1 ++ evs2)%list. split; [now rewrite Hlog2, Hlog1, app_assoc|].
    split; [now rewrite fetched_ids_app, Hf1, Hf2|].
    split; [now rewrite ask_prompts_app, Ha1, Ha2|].
    rewrite length_app. simpl length in *. lia.
Qed.

Lemma search_loop_turns (E : env) (q : string)
  (items : list (string * string)) :
  forall (acc acc' : scan) (s s' : state E),
    for_each (search_topic E q) items acc s = (Ok acc', s') ->
    exists turns,
      log s' = (log s ++ concat turns)%list
      /\ Forall2
           (fun item evs => turn_events q (extract_page_id (snd item)) evs)
           items turns.
Proof.
  induction items as [|[topic page] items IH]; intros acc acc' s s'.
  - simpl. unfold ret. intros H. injection H as _ <-. exists [].
    split; [simpl; now rewrite app_nil_r|constructor].
  - rewrite for_each_cons.
    destruct (search_topic E q acc (topic, page) s) as [[acc1|e] s1] eqn:Hturn;
      [|discriminate].
    intros Hrest. destruct (IH _ _ _ _ Hrest) as (turns & Hlog2 & Hall).
    assert (Hturn' : exists evs1,
               log s1 = (log s ++ evs1)%list
               /\ turn_events q (extract_page_id page) evs1).
    { revert Hturn. rewrite search_topic_cases. cbv zeta.
      destruct (notion_page E (extract_page_id page) (world s))
        as [[c|] w1]; [|discriminate].
      destruct (nonempty (text c)) eqn:Hne.
      - destruct (groq_chat E MODEL (1 # 10) _ w1) as [r w2].
        intros H. injection H as _ <-. eexists. split; [reflexivity|].
        exists c. right. split; [exact Hne|]. now exists r.
      - intros H. injection H as _ <-. eexists. split; [reflexivity|].
        exists c. left. now split. }
    destruct Hturn' as (evs1 & Hlog1 & Ht).
    exists (evs1 :: turns). split.
    + simpl concat. now rewrite Hlog2, Hlog1, app_assoc.
    + now constructor.
Qed.

(** X8: when [search_all_topics] returns, the calls that it has made are,
    page after page in the order of the catalog, one fetch of the page
    followed, when the page has a text, by one relevance call on the preview
    of that text, and by nothing when it has none: every page is fetched
    exactly once, there is at most one completion call per page, and none of
    them goes through [ask_groq]. *)
Theorem search_all_topics_fetches_every_page (E : env) (q : string)
  (s s' : state E) (found : option match_ * list (string * content)) :
  search_all_topics E q s = (Ok found, s') ->
  exists turns,
    log s' = (log s ++ concat turns)%list
    /\ Forall2
         (fun item evs => turn_events q (extract_page_id (snd item)) evs)
         (NOTION_PAGES E) turns
    /\ fetched_ids (concat turns)
       = map (fun item => extract_page_id (snd item)) (NOTION_PAGES E)
    /\ ask_prompts (concat turns) = [].
Proof.
  unfold search_all_topics. rewrite bind_run.
  destruct (for_each (search_topic E q) (NOTION_PAGES E) scan_start s)
    as [[acc|e] s1] eqn:Hscan; [|discriminate].
  unfold ret. intros H. injection H as _ <-.
  destruct (search_loop_turns E q _ _ _ _ _ Hscan) as (turns & Hlog & Hall).
  destruct (search_loop_fetches E q _ _ _ _ _ Hscan)
    as (evs & Hlog' & Hf & Ha & _).
  rewrite Hlog in Hlog'. apply app_inv_head in Hlog'. subst evs.
  exists turns. now repeat split.
Qed.

Lemma search_all_topics_fetches_every_page_witness :
  exists turns,
    log (snd (search_all_topics Script.tie_env "help me"
                (Script.start Script.tie_env 0%nat)))
    = concat turns
    /\ Forall2
         (fun item evs => turn_events "help me" (extract_page_id (snd item)) evs)
         [("A", "doc1"); ("B", "doc2")] turns
    /\ fetched_ids (concat turns) = ["doc1"; "doc2"].
Proof.
  destruct (search_all_topics_fetches_every_page Script.tie_env "help me"
              (Script.start Script.tie_env 0%nat)
              (snd (search_all_topics Script.tie_env "help me"
                      (Script.start Script.tie_env 0%nat)))
              (Some {| m_topic := "A";
                       m_content :=
                         {| text := "First manual."; images := [] |};
                       m_confidence := PInt 75 |},
               [("A", {| text := "First manual."; images := [] |});
                ("B", {| text := "Second manual.";
                         images := [Script.diagram] |})])
              eq_refl) as (turns & Hlog & Hall & Hf & _).
  exists turns. split; [exact Hlog|]. split; [exact Hall|exact Hf].
Defined.

Lemma num_gt_irrefl (x : pynum) : num_gt x x = false.
Proof.
  destruct x as [q| | |]; simpl; try reflexivity.
  apply negb_false_iff, Qle_bool_iff, Qle_refl.
Qed.

(** A verdict that does not pass against a bound does not pass against a
    greater one. *)
Lemma relevant_above_raise_bound (v bound bound' : pyval) :
  relevant_above v bound = Ok false ->
  py_gt bound' bound = Ok true ->
  relevant_above v bound' = Ok false.
Proof.
  unfold relevant_above.
  destruct (py_getitem v "relevant") as [rel|]; [|discriminate].
  destruct (truthy rel); [|reflexivity].
  destruct (py_getitem v "confidence") as [conf|]; [|discriminate].
  intros Hv Hb.
  destruct (py_gt_numbers _ _ _ Hv) as (x & y & Hx & Hy & Hxy).
  destruct (py_gt_numbers _ _ _ Hb) as (z & y' & Hz & Hy' & Hzy).
  assert (y' = y) as -> by congruence.
  unfold py_gt. rewrite Hx, Hz. f_equal.
  destruct (num_gt x z) eqn:Hxz; [|reflexivity].
  rewrite (num_gt_trans x z y Hxz (eq_sym Hzy)) in Hxy. discriminate.
Qed.

Lemma search_loop_maximal (E : env) (q : string)
  (items : list (string * string)) :
  forall (acc acc' : scan) (s s' : state E),
    for_each (search_topic E q) items acc s = (Ok acc', s') ->
    exists evs,
      log s' = (log s ++ evs)%list
      /\ (best_confidence acc' = best_confidence acc
          \/ py_gt (best_confidence acc') (best_confidence acc) = Ok true)
      /\ (match best_match acc with
          | Some m => best_confidence acc = m_confidence m
          | None => best_confidence acc = PInt 0
          end ->
          match best_match acc' with
          | Some m => best_confidence acc' = m_confidence m
          | None => best_confidence acc' = PInt 0
          end)
      /\ forall p r,
           In (Completed MODEL (1 # 10) p r) evs ->
           relevant_above (verdict_of E r) (best_confidence acc') = Ok false.
Proof.
  induction items as [|[topic page] items IH]; intros acc acc' s s'.
  - simpl. unfold ret. intros H. injection H as <- <-. exists [].
    rewrite app_nil_r. split; [reflexivity|]. split; [now left|].
    split; [trivial|]. intros p r [].
  - rewrite for_each_cons.
    destruct (search_topic E q acc (topic, page) s) as [[acc1|e] s1] eqn:Hturn;
      [|discriminate].
    intros Hrest.
    destruct (IH _ _ _ _ Hrest) as (evs2 & Hlog2 & Hup2 & Hrec2 & Hmax2).
    assert (Hturn' : exists evs1,
               log s1 = (log s ++ evs1)%list
               /\ (best_confidence acc1 = best_confidence acc
                   \/ py_gt (best_confidence acc1) (best_confidence acc)
                      = Ok true)
               /\ (match best_match acc with
                   | Some m => best_confidence acc = m_confidence m
                   | None => best_confidence acc = PInt 0
                   end ->
                   match best_match acc1 with
                   | Some m => best_confidence acc1 = m_confidence m
                   | None => best_confidence acc1 = PInt 0
                   end)
               /\ forall p r,
                    In (Completed MODEL (1 # 10) p r) evs1 ->
                    relevant_above (verdict_of E r) (best_confidence acc1)
                    = Ok false).
    { revert Hturn. rewrite search_topic_cases. cbv zeta.
      destruct (notion_page E (extract_page_id page) (world s))
        as [[c|] w1]; [|discriminate].
      destruct (nonempty (text c)).
      - destruct (groq_chat E MODEL (1 # 10) _ w1) as [r w2].
        destruct (relevant_above (verdict_of E r) (best_confidence acc))
          as [[|]|] eqn:Hrel; [| |discriminate].
        + destruct (py_getitem (verdict_of E r) "confidence") as [conf|]
            eqn:Hconf; [|discriminate].
          intros H. injection H as <- <-. eexists. split; [reflexivity|].
          destruct (relevant_above_true _ _ Hrel)
            as (rel & conf' & Hr & Ht & Hc & Hgt).
          assert (conf' = conf) as -> by congruence.
          cbn [best_confidence best_match]. split; [now right|].
          split; [reflexivity|].
          intros p r' [H|[H|[]]]; [discriminate|]. injection H as _ <-.
          rewrite (relevant_above_eq _ _ _ _ Hr Ht Hc).
          destruct (py_gt_numbers _ _ _ Hgt) as (x & _ & Hx & _).
          unfold py_gt. rewrite Hx. now rewrite num_gt_irrefl.
        + intros H. injection H as <- <-. eexists. split; [reflexivity|].
          cbn [best_confidence best_match]. split; [now left|].
          split; [trivial|].
          intros p r' [H|[H|[]]]; [discriminate|]. now injection H as _ <-.
      - intros H. injection H as <- <-. eexists. split; [reflexivity|].
        split; [now left|]. split; [trivial|].
        intros p r' [H|[]]. discriminate. }
    destruct Hturn' as (evs1 & Hlog1 & Hup1 & Hrec1 & Hmax1).
    exists (evs1 ++ evs2)%list. split; [now rewrite Hlog2, Hlog1, app_assoc|].
    split.
    { destruct Hup2 as [->|Hup2]; [exact Hup1|].
      destruct Hup1 as [<-|Hup1]; [now right|].
      right. now apply py_gt_trans with (best_confidence acc1). }
    split; [intros H; apply Hrec2, Hrec1, H|].
    intros p r Hin. apply in_app_or in Hin as [Hin|Hin]; [|exact (Hmax2 _ _ Hin)].
    specialize (Hmax1 _ _ Hin).
    destruct Hup2 as [->|Hup2]; [exact Hmax1|].
    now apply relevant_above_raise_bound with (best_confidence acc1).
Qed.

(** X9: the best match that [search_all_topics] returns is not beaten: no
    verdict received during the search is relevant with a confidence greater
    than that of the best match, or greater than 0 when there is no best
    match. *)
Theorem search_all_topics_best_is_maximal (E : env) (q : string)
  (s s' : state E) (best : option match_) (all : list (string * content)) :
  search_all_topics E q s = (Ok (best, all), s') ->
  exists evs,
    log s' = (log s ++ evs)%list
    /\ forall p r,
         In (Completed MODEL (1 # 10) p r) evs ->
         relevant_above (verdict_of E r)
           match best with
           | Some m => m_confidence m
           | None => PInt 0
           end
         = Ok false.
Proof.
  unfold search_all_topics. rewrite bind_run.
  destruct (for_each (search_topic E q) (NOTION_PAGES E) scan_start s)
    as [[acc|e] s1] eqn:Hscan; [|discriminate].
  unfold ret. intros H. injection H as <- _ <-.
  destruct (search_loop_maximal E q _ _ _ _ _ Hscan)
    as (evs & Hlog & _ & Hrec & Hmax).
  exists evs. split; [exact Hlog|]. intros p r Hin.
  specialize (Hrec eq_refl). specialize (Hmax _ _ Hin).
  destruct (best_match acc); now rewrite <- Hrec.
Qed.

Lemma search_all_topics_best_is_maximal_witness :
  relevant_above
    (verdict_of Script.tie_env (Some (Some (Script.verdict_json "true" "75"))))
    (PInt 75)
  = Ok false.
Proof.
  destruct (search_all_topics_best_is_maximal Script.tie_env "help me"
              (Script.start Script.tie_env 0%nat)
              (snd (search_all_topics Script.tie_env "help me"
                      (Script.start Script.tie_env 0%nat)))
              (Some {| m_topic := "A";
                       m_content :=
                         {| text := "First manual."; images := [] |};
                       m_confidence := PInt 75 |})
              [("A", {| text := "First manual."; images := [] |});
               ("B", {| text := "Second manual.";
                        images := [Script.diagram] |})]
              eq_refl) as (evs & Hlog & Hmax).
  change (log (Script.start Script.tie_env 0%nat) ++ evs)%list with evs
    in Hlog.
  apply (Hmax (relevance_prompt "help me"
                 (text_preview {| text := "Second manual.";
                                  images := [Script.diagram] |}))).
  rewrite <- Hlog. vm_compute. right. right. right. left. reflexivity.
Defined.

Lemma lookup_dict_set_same {V : Type} (k : string) (v : V)
  (d : list (string * V)) :
  lookup k (dict_set k v d) = Some v.
Proof.
  induction d as [|[k' v'] d IH]; simpl.
  - now rewrite String.eqb_refl.
  - destruct (String.eqb k' k) eqn:Hk; simpl; now rewrite Hk.
Qed.

Lemma lookup_dict_set_other {V : Type} (k k' : string) (v : V)
  (d : list (string * V)) :
  k' <> k -> lookup k' (dict_set k v d) = lookup k' d.
Proof.
  intros Hne. induction d as [|[k0 v0] d IH]; simpl.
  - destruct (String.eqb k k') eqn:Hk; [|reflexivity].
    apply String.eqb_eq in Hk. congruence.
  - destruct (String.eqb k0 k) eqn:Hk; simpl.
    + apply String.eqb_eq in Hk as ->.
      destruct (String.eqb k k') eqn:Hk'; [|reflexivity].
      apply String.eqb_eq in Hk'. congruence.
    + now rewrite IH.
Qed.

Lemma In_dict_set {V : Type} (k t : string) (v c : V) (d : list (string * V)) :
  In (t, c) (dict_set k v d) -> (t = k /\ c = v) \/ In (t, c) d.
Proof.
  induction d as [|[k0 v0] d IH]; simpl.
  - intros [H|[]]. injection H as <- <-. now left.
  - destruct (String.eqb k0 k) eqn:Hk; simpl.
    + apply String.eqb_eq in Hk as ->. intros [H|H].
      * injection H as <- <-. now left.
      * right. now right.
    + intros [H|H]; [right; now left|].
      destruct (IH H) as [Heq|Hin]; [now left|right; now right].
Qed.

Lemma keys_dict_set {V : Type} (k : string) (v : V) (d : list (string * V)) :
  keys (dict_set k v d)
  = if existsb (String.eqb k) (keys d) then keys d else (keys d ++ [k])%list.
Proof.
  unfold keys. induction d as [|[k0 v0] d IH]; simpl; [reflexivity|].
  rewrite (String.eqb_sym k k0).
  destruct (String.eqb k0 k); simpl; [reflexivity|].
  rewrite IH. now destruct (existsb (String.eqb k) (map fst d)).
Qed.

Lemma NoDup_keys_dict_set {V : Type} (k : string) (v : V)
  (d : list (string * V)) :
  NoDup (keys d) -> NoDup (keys (dict_set k v d)).
Proof.
  intros Hd. rewrite keys_dict_set.
  destruct (existsb (String.eqb k) (keys d)) eqn:Hex; [exact Hd|].
  apply NoDup_app; [exact Hd|constructor; [intros []|constructor]|].
  intros x Hx [Heq|[]]. subst x.
  assert (existsb (String.eqb k) (keys d) = true); [|congruence].
  apply existsb_exists. exists k. split; [exact Hx|apply String.eqb_refl].
Qed.

(** What one turn of the loop of [search_all_topics] does to its
    variables. *)
Lemma search_topic_shape (E : env) (q : string) (acc acc1 : scan)
  (topic page : string) (s s1 : state E) :
  search_topic E q acc (topic, page) s = (Ok acc1, s1) ->
  acc1 = acc
  \/ exists c,
       nonempty (text c) = true
       /\ all_contents acc1 = dict_set topic c (all_contents acc)
       /\ (best_match acc1 = best_match acc
           \/ exists confidence,
                best_match acc1
                = Some {| m_topic := topic; m_content := c;
                          m_confidence := confidence |}).
Proof.
  rewrite search_topic_cases. cbv zeta.
  destruct (notion_page E (extract_page_id page) (world s)) as [[c|] w1];
    [|discriminate].
  destruct (nonempty (text c)) eqn:Hne;
    [|intros H; injection H as <- _; now left].
  destruct (groq_chat E MODEL (1 # 10) _ w1) as [r w2].
  destruct (relevant_above (verdict_of E r) (best_confidence acc))
    as [[|]|]; [| |discriminate].
  - destruct (py_getitem (verdict_of E r) "confidence") as [conf|];
      [|discriminate].
    intros H. injection H as <- _. right. exists c. split; [exact Hne|].
    split; [reflexivity|]. right. now exists conf.
  - intros H. injection H as <- _. right. exists c. split; [exact Hne|].
    split; [reflexivity|]. now left.
Qed.

Lemma search_loop_contents (E : env) (q : string) (catalog : list string)
  (items : list (string * string)) :
  forall (acc acc' : scan) (s s' : state E),
    for_each (search_topic E q) items acc s = (Ok acc', s') ->
    incl (keys items) catalog ->
    (forall t c,
        In (t, c) (all_contents acc) ->
        nonempty (text c) = true /\ In t catalog) ->
    NoDup (keys (all_contents acc)) ->
    ((forall t c,
         In (t, c) (all_contents acc') ->
         nonempty (text c) = true /\ In t catalog)
     /\ NoDup (keys (all_contents acc')))
    /\ (NoDup (keys items) ->
        (forall m,
            best_match acc = Some m ->
            lookup (m_topic m) (all_contents acc) = Some (m_content m)
            /\ ~ In (m_topic m) (keys items)) ->
        forall m,
          best_match acc' = Some m ->
          lookup (m_topic m) (all_contents acc') = Some (m_content m)).
Proof.
  induction items as [|[topic page] items IH]; intros acc acc' s s'.
  - simpl. unfold ret. intros H. injection H as <- _. intros _ Hall Hnd.
    split; [now split|]. intros _ Hbest m Hm. now apply Hbest.
  - rewrite for_each_cons.
    destruct (search_topic E q acc (topic, page) s) as [[acc1|e] s1] eqn:Hturn;
      [|discriminate].
    intros Hrest Hincl Hall Hnd.
    assert (Hincl' : incl (keys items) catalog).
    { intros x Hx. apply Hincl. now right. }
    assert (Htopic : In topic catalog) by (apply Hincl; now left).
    apply search_topic_shape in Hturn.
    assert (Hall1 : forall t c,
               In (t, c) (all_contents acc1) ->
               nonempty (text c) = true /\ In t catalog).
    { destruct Hturn as [->|(c & Hne & -> & _)]; [exact Hall|].
      intros t c' Hin. apply In_dict_set in Hin as [[-> ->]|Hin];
        [now split|now apply Hall]. }
    assert (Hnd1 : NoDup (keys (all_contents acc1))).
    { destruct Hturn as [->|(c & _ & -> & _)]; [exact Hnd|].
      now apply NoDup_keys_dict_set. }
    destruct (IH _ _ _ _ Hrest Hincl' Hall1 Hnd1) as [Hfirst Hbest'].
    split; [exact Hfirst|]. intros Hnodup Hbest. apply Hbest'.
    + now inversion Hnodup.
    + intros m Hm. inversion Hnodup as [|x l Hnotin Hnodup']. subst.
      destruct Hturn as [->|(c & _ & Hset & [Hsame|[conf Hnew]])].
      * destruct (Hbest m Hm) as [Hl Hn]. split; [exact Hl|].
        intros Hin. apply Hn. now right.
      * rewrite Hsame in Hm. destruct (Hbest m Hm) as [Hl Hn].
        split; [|intros Hin; apply Hn; now right].
        rewrite Hset, lookup_dict_set_other; [exact Hl|].
        intros Heq. apply Hn. left. now rewrite Heq.
      * rewrite Hnew in Hm. injection Hm as <-. cbn [m_topic m_content].
        split; [now rewrite Hset, lookup_dict_set_same|exact Hnotin].
Qed.

(** X10: the second result of [search_all_topics] is a dict (its keys are
    distinct) of catalog topics whose text is not empty; and when the names
    of the catalog are distinct, the content of the best match is the one
    recorded under its topic. *)
Theorem search_all_topics_contents (E : env) (q : string) (s s' : state E)
  (best : option match_) (all : list (string * content)) :
  search_all_topics E q s = (Ok (best, all), s') ->
  (forall t c,
      In (t, c) all ->
      nonempty (text c) = true /\ In t (keys (NOTION_PAGES E)))
  /\ NoDup (keys all)
  /\ (NoDup (keys (NOTION_PAGES E)) ->
      forall m,
        best = Some m -> lookup (m_topic m) all = Some (m_content m)).
Proof.
  unfold search_all_topics. rewrite bind_run.
  destruct (for_each (search_topic E q) (NOTION_PAGES E) scan_start s)
    as [[acc|e] s1] eqn:Hscan; [|discriminate].
  unfold ret. intros H. injection H as <- <- _.
  destruct (search_loop_contents E q (keys (NOTION_PAGES E)) _ _ _ _ _ Hscan)
    as [[Hall Hnd] Hbest].
  - apply incl_refl.
  - intros t c [].
  - constructor.
  - split; [exact Hall|]. split; [exact Hnd|]. intros Hnodup.
    apply Hbest; [exact Hnodup|]. intros m Hm. discriminate.
Qed.

Lemma search_all_topics_contents_witness :
  NoDup (keys (NOTION_PAGES Script.tie_env))
  /\ lookup "A"
       [("A", {| text := "First manual."; images := [] |});
        ("B", {| text := "Second manual."; images := [Script.diagram] |})]
     = Some {| text := "First manual."; images := [] |}.
Proof.
  assert (Hnodup : NoDup (keys (NOTION_PAGES Script.tie_env))).
  { repeat constructor; simpl; intuition discriminate. }
  split; [exact Hnodup|].
  exact (proj2 (proj2 (search_all_topics_contents Script.tie_env "help me"
           (Script.start Script.tie_env 0%nat)
           (snd (search_all_topics Script.tie_env "help me"
                   (Script.start Script.tie_env 0%nat)))
           (Some {| m_topic := "A";
                    m_content := {| text := "First manual."; images := [] |};
                    m_confidence := PInt 75 |})
           [("A", {| text := "First manual."; images := [] |});
            ("B", {| text := "Second manual.";
                     images := [Script.diagram] |})]
           eq_refl)) Hnodup _ eq_refl).
Defined.

(** ** More on the code: the handler *)

Section HandlerFacts.

Variable E : env.

Lemma keyword_loop_last (q : string) (topics : list string) :
  forall (s s' : state E) (response : http),
    keyword_loop E q topics s = (Ok (Some response), s') ->
    exists b topic evs p,
      response = {| status := 200; payload_of := ChatBody b |}
      /\ b_source b = "keyword_match"
      /\ b_topic b = Some topic
      /\ In topic topics
      /\ log s' = (log s ++ evs
                   ++ [Completed MODEL (3 # 10) p (Some (b_response b))])%list.
Proof.
  induction topics as [|topic rest IH]; intros s s' response;
    [discriminate|].
  rewrite keyword_loop_cases.
  destruct (page_url E topic) as [page|e]; [|discriminate]. cbv zeta.
  destruct (notion_page E (extract_page_id page) (world s)) as [[c|] w1];
    [|discriminate].
  assert (Hcont : forall seen w,
             keyword_loop E q rest (after E s w seen)
             = (Ok (Some response), s') ->
             exists b topic' evs p,
               response = {| status := 200; payload_of := ChatBody b |}
               /\ b_source b = "keyword_match"
               /\ b_topic b = Some topic'
               /\ In topic' (topic :: rest)
               /\ log s'
                  = (log s ++ evs
                     ++ [Completed MODEL (3 # 10) p
                           (Some (b_response b))])%list).
  { intros seen w Hrest.
    destruct (IH _ _ _ Hrest) as (b & topic' & evs & p & Hb & Hs & Ht & Hin & Hlog).
    exists b, topic', (seen ++ evs)%list, p. repeat (split; [assumption|]).
    split; [now right|]. rewrite Hlog. unfold after. simpl.
    now rewrite <- !app_assoc. }
  destruct (nonempty (text c)); [|apply Hcont].
  destruct (groq_chat E MODEL (1 # 10) _ w1) as [r w2].
  destruct (relevant_above (verdict_of E r) (PInt 60)) as [[|]|];
    [|apply Hcont|discriminate].
  destruct (groq_chat E MODEL (3 # 10) _ w2) as [[answer|] w3];
    [|discriminate].
  destruct (py_getitem (verdict_of E r) "confidence") as [conf|];
    [|discriminate].
  intros H. injection H as <- <-. eexists. exists topic.
  exists [Fetched (extract_page_id page) (Some c);
          Completed MODEL (1 # 10) (relevance_prompt q (text_preview c)) r].
  eexists.
  split; [reflexivity|]. split; [reflexivity|]. split; [reflexivity|].
  split; [now left|]. reflexivity.
Qed.

Lemma semantic_phase_last (q : string) (s s' : state E) (response : http) :
  semantic_phase E q s = (Ok response, s') ->
  exists b evs p,
    response = {| status := 200; payload_of := ChatBody b |}
    /\ b_source b <> "keyword_match"
    /\ log s' = (log s ++ evs
                 ++ [Completed MODEL (3 # 10) p (Some (b_response b))])%list.
Proof.
  rewrite semantic_phase_run. cbv zeta.
  destruct (for_each (search_topic E q) (NOTION_PAGES E) scan_start _)
    as [[acc|e] s1] eqn:Hscan; [|discriminate].
  destruct (search_loop_fetches E q _ _ _ _ _ Hscan) as (evs1 & Hlog1 & _).
  cbn [log after] in Hlog1.
  assert (Hfall : no_match E q s1 = (Ok response, s') ->
                  exists b evs p,
                    response = {| status := 200; payload_of := ChatBody b |}
                    /\ b_source b <> "keyword_match"
                    /\ log s'
                       = (log s ++ evs
                          ++ [Completed MODEL (3 # 10) p
                                (Some (b_response b))])%list).
  { rewrite no_match_run. cbv zeta.
    destruct (groq_chat E MODEL (3 # 10) _ (world s1)) as [[answer|] w];
      [|discriminate].
    intros H. injection H as <- <-. eexists.
    exists ([Printed "No strong keyword match, searching all topics..."]
            ++ evs1)%list.
    eexists. split; [reflexivity|]. split; [discriminate|].
    cbn [log after b_response]. rewrite Hlog1, <- !app_assoc. reflexivity. }
  destruct (best_match acc) as [best|]; [|exact Hfall].
  destruct (py_gt (m_confidence best) (PInt 50)) as [[|]|];
    [|exact Hfall|discriminate].
  destruct (groq_chat E MODEL (3 # 10) _ (world s1)) as [[answer|] w];
    [|discriminate].
  intros H. injection H as <- <-. eexists.
  exists ([Printed "No strong keyword match, searching all topics..."]
          ++ evs1)%list.
  eexists. split; [reflexivity|]. split; [discriminate|].
  cbn [log after b_response]. rewrite Hlog1, <- !app_assoc. reflexivity.
Qed.

(** [chat] on a query that is true: a string runs the resolution, anything
    else fails at [query.lower()]. *)
Lemma chat_true_query (data query : pyval) (s : state E) :
  py_get data "query" = Ok query ->
  truthy query = true ->
  chat E data s
  = match query with
    | PStr q =>
        match keyword_loop E q (find_relevant_topics E q) s with
        | (Ok (Some response), s1) => (Ok response, s1)
        | (Ok None, s1) => semantic_phase E q s1
        | (Raise e, s1) => (Raise e, s1)
        end
    | _ => (Raise AttributeError, s)
    end.
Proof.
  intros Hq Ht. destruct query as [|b|n|q|items|entries];
    try (unfold chat; rewrite bind_run; unfold lift at 1; rewrite Hq, Ht;
         reflexivity).
  now apply chat_run.
Qed.

End HandlerFacts.

(** X11: every answer of [chat] with a body of the chat form has status
    200, comes after exactly one call of [ask_groq], which is the last call
    of the request, and carries as its response the text that this call
    returned. *)
Theorem chat_response_is_last_completion (E : env) (data : pyval)
  (s s' : state E) (st : Z) (b : body) :
  chat E data s = (Ok {| status := st; payload_of := ChatBody b |}, s') ->
  st = 200%Z
  /\ exists evs p,
       log s' = (log s ++ evs
                 ++ [Completed MODEL (3 # 10) p (Some (b_response b))])%list
       /\ ask_prompts evs = [].
Proof.
  intros Hrun.
  destruct (chat_inv E _ _ _ _ Hrun)
    as [[Hbad _]|(q & evs0 & b' & Hq & Hne & Hlog0 & Hout & Hb)];
    [discriminate|].
  injection Hb as -> <-. split; [reflexivity|].
  assert (Hone : exists p0, ask_prompts evs0 = [p0]).
  { destruct Hout as [(_ & _ & t & c & _ & Hp)
                     |[(_ & _ & m & _ & _ & Hp)|(_ & _ & _ & _ & _ & Hp)]];
      eexists; exact Hp. }
  destruct Hone as [p0 Hp0].
  assert (Hlast : exists evs p,
             log s' = (log s ++ evs
                       ++ [Completed MODEL (3 # 10) p
                             (Some (b_response b))])%list).
  { revert Hrun. rewrite (chat_run E _ _ _ Hq Hne).
    destruct (keyword_loop E q (find_relevant_topics E q) s)
      as [[[found|]|e] s1] eqn:Hloop; [| |discriminate].
    - intros H. injection H as -> <-.
      destruct (keyword_loop_last E _ _ _ _ _ Hloop)
        as (b1 & t & evs & p & Hb1 & _ & _ & _ & Hlog).
      injection Hb1 as <-. now exists evs, p.
    - intros H.
      destruct (keyword_loop_inv E _ _ _ _ _ Hloop) as (evs1 & Hlog1 & _).
      destruct (semantic_phase_last E _ _ _ _ H) as (b1 & evs & p & Hb1 & _ & Hlog).
      injection Hb1 as <-. exists (evs1 ++ evs)%list, p.
      now rewrite Hlog, Hlog1, <- !app_assoc. }
  destruct Hlast as (evs & p & Hlog). exists evs, p. split; [exact Hlog|].
  rewrite Hlog0 in Hlog. apply app_inv_head in Hlog. rewrite Hlog in Hp0.
  rewrite ask_prompts_app in Hp0. simpl in Hp0.
  destruct (ask_prompts evs) as [|x l]; [reflexivity|].
  destruct l; discriminate.
Qed.

Lemma chat_response_is_last_completion_witness :
  exists evs p,
    log (snd (chat Script.battery_env
                (request "How do I maintain my battery?")
                (Script.start Script.battery_env 0%nat)))
    = ([] ++ evs
       ++ [Completed MODEL (3 # 10) p
             (Some (Some "Here is what the documentation says."))])%list
    /\ ask_prompts evs = [].
Proof.
  exact (proj2 (chat_response_is_last_completion Script.battery_env
           (request "How do I maintain my battery?")
           (Script.start Script.battery_env 0%nat)
           (snd (chat Script.battery_env
                   (request "How do I maintain my battery?")
                   (Script.start Script.battery_env 0%nat)))
           200
           {| b_topic := Some "Battery";
              b_response := Some "Here is what the documentation says.";
              b_confidence := PInt 80;
              b_source := "keyword_match";
              b_available_topics := None;
              b_images := [Script.diagram] |} eq_refl)).
Defined.

(** X12: a keyword match always names a topic of the catalog whose
    lower-cased name occurs in the lower-cased query. *)
Theorem keyword_match_topic_occurs_in_query (E : env) (data : pyval)
  (s s' : state E) (st : Z) (b : body) :
  chat E data s = (Ok {| status := st; payload_of := ChatBody b |}, s') ->
  b_source b = "keyword_match" ->
  exists q topic before after,
    py_get data "query" = Ok (PStr q)
    /\ b_topic b = Some topic
    /\ In topic (keys (NOTION_PAGES E))
    /\ lower q = before ++ lower topic ++ after.
Proof.
  intros Hrun Hsrc.
  destruct (chat_inv E _ _ _ _ Hrun)
    as [[Hbad _]|(q & _ & _ & Hq & Hne & _)]; [discriminate|].
  revert Hrun. rewrite (chat_run E _ _ _ Hq Hne).
  destruct (keyword_loop E q (find_relevant_topics E q) s)
    as [[[found|]|e] s1] eqn:Hloop; [| |discriminate].
  - intros H. injection H as -> <-.
    destruct (keyword_loop_last E _ _ _ _ _ Hloop)
      as (b1 & topic & _ & _ & Hb1 & _ & Ht & Hin & _).
    injection Hb1 as Hst Hb. subst.
    pose proof (find_relevant_topics_keys E _ _ Hin) as Hkey.
    rewrite find_relevant_topics_filter in Hin.
    apply filter_In in Hin as [_ Hsub].
    apply str_in_iff in Hsub as (before & after & Hsub).
    now exists q, topic, before, after.
  - intros H.
    destruct (semantic_phase_last E _ _ _ _ H) as (b1 & _ & _ & Hb1 & Hnot & _).
    injection Hb1 as Hst Hb. subst. contradiction.
Qed.

Lemma keyword_match_topic_occurs_in_query_witness :
  exists q topic before after,
    py_get (request "How do I maintain my battery?") "query" = Ok (PStr q)
    /\ Some "Battery" = Some topic
    /\ In topic (keys (NOTION_PAGES Script.battery_env))
    /\ lower q = before ++ lower topic ++ after.
Proof.
  exact (keyword_match_topic_occurs_in_query Script.battery_env
           (request "How do I maintain my battery?")
           (Script.start Script.battery_env 0%nat)
           (snd (chat Script.battery_env
                   (request "How do I maintain my battery?")
                   (Script.start Script.battery_env 0%nat)))
           200
           {| b_topic := Some "Battery";
              b_response := Some "Here is what the documentation says.";
              b_confidence := PInt 80;
              b_source := "keyword_match";
              b_available_topics := None;
              b_images := [Script.diagram] |} eq_refl eq_refl).
Defined.

(** X13: [chat] answers 400 exactly when the query is absent or false in
    Python's sense (null, the empty string, 0, false, an empty list or
    object); then it has called nothing.  Any other answer has status 200
    and a body of the chat form, for a query that is a string. *)
Theorem chat_status_by_query (E : env) (data : pyval) (s s' : state E)
  (response : http) :
  chat E data s = (Ok response, s') ->
  exists query,
    py_get data "query" = Ok query
    /\ if truthy query
       then status response = 200%Z
            /\ (exists b, payload_of response = ChatBody b)
            /\ exists q, query = PStr q
       else response
            = {| status := 400; payload_of := ErrorBody "No query provided" |}
            /\ s' = s.
Proof.
  destruct (py_get data "query") as [query|e] eqn:Hq.
  2: { unfold chat. rewrite bind_run. unfold lift at 1. rewrite Hq.
       discriminate. }
  intros Hrun. exists query. split; [reflexivity|].
  destruct (truthy query) eqn:Ht.
  - revert Hrun. rewrite (chat_true_query E _ _ _ Hq Ht).
    destruct query as [|b|n|q|items|entries]; try discriminate.
    destruct (keyword_loop E q (find_relevant_topics E q) s)
      as [[[found|]|e] s1] eqn:Hloop; [| |discriminate].
    + intros H. injection H as -> <-.
      destruct (keyword_loop_last E _ _ _ _ _ Hloop) as (b1 & t & _ & _ & -> & _).
      split; [reflexivity|]. split; [now exists b1|now exists q].
    + intros H.
      destruct (semantic_phase_last E _ _ _ _ H) as (b1 & _ & _ & -> & _).
      split; [reflexivity|]. split; [now exists b1|now exists q].
  - rewrite (chat_refuses E _ _ _ Hq Ht) in Hrun. injection Hrun as <- <-.
    now split.
Qed.

Lemma chat_status_by_query_witness :
  exists query,
    py_get (PDict [("query", PInt 0)]) "query" = Ok query
    /\ if truthy query
       then False
       else snd (chat Script.battery_env (PDict [("query", PInt 0)])
                   (Script.start Script.battery_env 0%nat))
            = Script.start Script.battery_env 0%nat.
Proof.
  destruct (chat_status_by_query Script.battery_env
              (PDict [("query", PInt 0)])
              (Script.start Script.battery_env 0%nat)
              (snd (chat Script.battery_env (PDict [("query", PInt 0)])
                      (Script.start Script.battery_env 0%nat)))
              {| status := 400; payload_of := ErrorBody "No query provided" |}
              eq_refl) as (query & Hq & H).
  exists query. split; [exact Hq|].
  injection Hq as <-. simpl in *. now destruct H.
Defined.

Section RaiseFacts.

Variable E : env.

Lemma py_getitem_error (v : pyval) (k : string) (e : exn) :
  py_getitem v k = Raise e -> e = KeyError \/ e = TypeError.
Proof.
  unfold py_getitem. destruct v as [| | | | |d]; try (intros H; injection H as <-; now right).
  destruct (lookup k d); [discriminate|]. intros H. injection H as <-. now left.
Qed.

Lemma relevant_above_error (v bound : pyval) (e : exn) :
  relevant_above v bound = Raise e -> e = KeyError \/ e = TypeError.
Proof.
  unfold relevant_above.
  destruct (py_getitem v "relevant") as [rel|e1] eqn:Hr.
  - destruct (truthy rel); [|discriminate].
    destruct (py_getitem v "confidence") as [conf|e2] eqn:Hc.
    + unfold py_gt. destruct (as_number conf), (as_number bound);
        try discriminate; intros H; injection H as <-; now right.
    + intros H. injection H as <-. exact (py_getitem_error _ _ _ Hc).
  - intros H. injection H as <-. exact (py_getitem_error _ _ _ Hr).
Qed.

(** The confidence of a verdict that has passed the test can be read. *)
Lemma relevant_above_confidence (v bound : pyval) (e : exn) :
  relevant_above v bound = Ok true ->
  py_getitem v "confidence" = Raise e -> False.
Proof.
  intros H Hc.
  destruct (relevant_above_true _ _ H) as (rel & c & _ & _ & Hc' & _).
  congruence.
Qed.

Lemma verdict_site (p : string) (r : option (option string))
  (bound : pyval) (n : pynum) (e : exn) :
  as_number bound = Some n ->
  relevant_above (verdict_of E r) bound = Raise e ->
  raise_site E e (Completed MODEL (1 # 10) p r).
Proof.
  intros Hn Hrel. unfold raise_site.
  change (Qeq_bool (1 # 10) (3 # 10)) with false. cbv iota.
  split; [exact (relevant_above_error _ _ _ Hrel)|]. now exists bound, n.
Qed.

Lemma ask_site (p : string) :
  raise_site E GroqError (Completed MODEL (3 # 10) p None).
Proof. unfold raise_site. now split. Qed.

Lemma one_turn (q : string) (acc acc1 : scan) (item : string * string)
  (s s1 : state E) :
  search_topic E q acc item s = (Ok acc1, s1) ->
  for_each (search_topic E q) [item] acc s = (Ok acc1, s1).
Proof. intros H. rewrite for_each_cons, H. reflexivity. Qed.

Lemma search_loop_raise_site (q : string) (items : list (string * string)) :
  forall (acc : scan) (s s' : state E) (e : exn),
    (exists n, as_number (best_confidence acc) = Some n) ->
    for_each (search_topic E q) items acc s = (Raise e, s') ->
    exists evs ev,
      log s' = (log s ++ evs ++ [ev])%list
      /\ raise_site E e ev
      /\ ask_prompts evs = [].
Proof.
  induction items as [|[topic page] items IH]; intros acc s s' e Hn;
    [discriminate|].
  rewrite for_each_cons.
  destruct (search_topic E q acc (topic, page) s) as [[acc1|e1] s1] eqn:Hturn.
  - intros Hrest. apply one_turn in Hturn.
    pose proof (best_confidence_number E q _ _ _ _ _ Hn Hturn) as Hn1.
    destruct (IH _ _ _ _ Hn1 Hrest) as (evs & ev & Hlog & Hsite & Hask).
    destruct (search_loop_fetches E q _ _ _ _ _ Hturn)
      as (evs1 & Hlog1 & _ & Ha1 & _).
    exists (evs1 ++ evs)%list, ev.
    split; [now rewrite Hlog, Hlog1, <- !app_assoc|].
    split; [exact Hsite|]. now rewrite ask_prompts_app, Ha1, Hask.
  - intros H. injection H as <- <-. revert Hturn.
    rewrite search_topic_cases. cbv zeta.
    destruct (notion_page E (extract_page_id page) (world s)) as [[c|] w1].
    2: { intros H. injection H as <- <-.
         exists [], (Fetched (extract_page_id page) None).
         split; [reflexivity|]. split; [now split|reflexivity]. }
    destruct (nonempty (text c)); [|discriminate].
    destruct (groq_chat E MODEL (1 # 10) _ w1) as [r w2].
    destruct (relevant_above (verdict_of E r) (best_confidence acc))
      as [[|]|e2] eqn:Hrel; [|discriminate|].
    + destruct (py_getitem (verdict_of E r) "confidence") as [conf|e3] eqn:Hc;
        [discriminate|].
      destruct (relevant_above_confidence _ _ _ Hrel Hc).
    + intros H. injection H as <- <-. destruct Hn as [n Hn].
      exists [Fetched (extract_page_id page) (Some c)],
        (Completed MODEL (1 # 10) (relevance_prompt q (text_preview c)) r).
      split; [reflexivity|].
      split; [exact (verdict_site _ _ _ _ _ Hn Hrel)|reflexivity].
Qed.

Lemma keyword_loop_raise_site (q : string) (topics : list string) :
  (forall t, In t topics -> In t (keys (NOTION_PAGES E))) ->
  forall (s s' : state E) (e : exn),
    keyword_loop E q topics s = (Raise e, s') ->
    exists evs ev,
      log s' = (log s ++ evs ++ [ev])%list
      /\ raise_site E e ev
      /\ ask_prompts evs = [].
Proof.
  induction topics as [|topic rest IH]; intros Hkeys s s' e; [discriminate|].
  rewrite keyword_loop_cases.
  destruct (page_url E topic) as [page|e1] eqn:Hpage.
  2: { exfalso. unfold page_url in Hpage.
       destruct (lookup_keys topic (NOTION_PAGES E)) as [u Hu];
         [apply Hkeys; now left|].
       rewrite Hu in Hpage. discriminate. }
  cbv zeta.
  destruct (notion_page E (extract_page_id page) (world s)) as [[c|] w1].
  2: { intros H. injection H as <- <-.
       exists [], (Fetched (extract_page_id page) None).
       split; [reflexivity|]. split; [now split|reflexivity]. }
  assert (Hrest : forall w evs0,
             ask_prompts evs0 = [] ->
             keyword_loop E q rest (after E s w evs0) = (Raise e, s') ->
             exists evs ev,
               log s' = (log s ++ evs ++ [ev])%list
               /\ raise_site E e ev
               /\ ask_prompts evs = []).
  { intros w evs0 Ha0 Hrun.
    destruct (IH (fun t Ht => Hkeys t (or_intror Ht)) _ _ _ Hrun)
      as (evs & ev & Hlog & Hsite & Hask).
    exists (evs0 ++ evs)%list, ev. cbn [log after] in Hlog.
    split; [now rewrite Hlog, <- !app_assoc|].
    split; [exact Hsite|]. now rewrite ask_prompts_app, Ha0, Hask. }
  destruct (nonempty (text c)); [|now apply Hrest].
  destruct (groq_chat E MODEL (1 # 10) _ w1) as [r w2].
  destruct (relevant_above (verdict_of E r) (PInt 60)) as [[|]|e2] eqn:Hrel.
  - destruct (groq_chat E MODEL (3 # 10) _ w2) as [[answer|] w3].
    + destruct (py_getitem (verdict_of E r) "confidence") as [conf|e3] eqn:Hc;
        [discriminate|].
      destruct (relevant_above_confidence _ _ _ Hrel Hc).
    + intros H. injection H as <- <-.
      exists [Fetched (extract_page_id page) (Some c);
              Completed MODEL (1 # 10) (relevance_prompt q (text_preview c)) r],
        (Completed MODEL (3 # 10) (keyword_prompt topic c q) None).
      split; [reflexivity|]. split; [apply ask_site|reflexivity].
  - now apply Hrest.
  - intros H. injection H as <- <-.
    exists [Fetched (extract_page_id page) (Some c)],
      (Completed MODEL (1 # 10) (relevance_prompt q (text_preview c)) r).
    split; [reflexivity|].
    split; [now apply verdict_site with (PInt 60) (Fin 60)|reflexivity].
Qed.

Lemma semantic_phase_raise_site (q : string) (s s' : state E) (e : exn) :
  semantic_phase E q s = (Raise e, s') ->
  exists evs ev,
    log s' = (log s ++ evs ++ [ev])%list
    /\ raise_site E e ev
    /\ ask_prompts evs = [].
Proof.
  rewrite semantic_phase_run. cbv zeta.
  destruct (for_each (search_topic E q) (NOTION_PAGES E) scan_start _)
    as [[acc|e1] s1] eqn:Hscan.
  2: { intros H. injection H as <- <-.
       assert (Hn : exists n, as_number (best_confidence scan_start) = Some n)
         by now exists (Fin 0).
       destruct (search_loop_raise_site q _ _ _ _ _ Hn Hscan)
         as (evs & ev & Hlog & Hsite & Hask).
       exists (search_line :: evs), ev. cbn [log after] in Hlog.
       split; [now rewrite Hlog, <- !app_assoc|]. now split. }
  destruct (search_loop_fetches E q _ _ _ _ _ Hscan)
    as (evs1 & Hlog1 & _ & Ha1 & _).
  cbn [log after] in Hlog1.
  assert (Hask : forall p w,
             exists evs ev,
               log (after E s1 w [Completed MODEL (3 # 10) p None])
               = (log s ++ evs ++ [ev])%list
               /\ raise_site E GroqError ev
               /\ ask_prompts evs = []).
  { intros p w. exists (search_line :: evs1), (Completed MODEL (3 # 10) p None).
    cbn [log after]. split; [now rewrite Hlog1, <- !app_assoc|].
    split; [apply ask_site|exact Ha1]. }
  assert (Hfall : no_match E q s1 = (Raise e, s') ->
                  exists evs ev,
                    log s' = (log s ++ evs ++ [ev])%list
                    /\ raise_site E e ev
                    /\ ask_prompts evs = []).
  { rewrite no_match_run. cbv zeta.
    destruct (groq_chat E MODEL (3 # 10) _ (world s1)) as [[answer|] w];
      [discriminate|].
    intros H. injection H as <- <-. apply Hask. }
  destruct (best_match acc) as [best|] eqn:Hbest; [|exact Hfall].
  destruct (py_gt (m_confidence best) (PInt 50)) as [[|]|e2] eqn:Hgt;
    [|exact Hfall|].
  - destruct (groq_chat E MODEL (3 # 10) _ (world s1)) as [[answer|] w];
      [discriminate|].
    intros H. injection H as <- <-. apply Hask.
  - exfalso.
    destruct (for_each_tracked E q (NOTION_PAGES E) (incl_refl _) _ _ _ _ Hscan)
      as (evs & _ & Hkeep).
    destruct (Hkeep [] (tracked_start E q)) as [_ Ht]. rewrite Hbest in Ht.
    destruct Ht as (_ & page & v & _ & _ & Hrel & Hconf).
    destruct (relevant_above_true _ _ Hrel) as (rel & c & _ & _ & Hc & Hgt0).
    rewrite Hconf in Hc. injection Hc as <-.
    destruct (py_gt_numbers _ _ _ Hgt0) as (x & y & Hx & _).
    unfold py_gt in Hgt. rewrite Hx in Hgt. discriminate.
Qed.

End RaiseFacts.

(** X14: where [chat] can raise, once [request.get_json()] has returned the
    body [data] and for a catalog that maps names to URL strings.  Either
    nothing has been called and the exception is the [AttributeError] of
    [data.get] on a body that is not a JSON object, or of [query.lower()] on
    a query that is true but not a string.  Or it is raised right after a
    call, which is the last event of the request and before which nothing
    went through [ask_groq]: by a fetch of a page; by reading [relevant] and
    [confidence] of the verdict that a relevance call has just returned, as
    a [KeyError] or a [TypeError]; or by [ask_groq] itself.  So what the
    call and the decoding inside [check_content_relevance] raise never
    leaves [chat], and nothing is raised once [ask_groq] has returned. *)
Theorem chat_raises (E : env) (data : pyval) (s s' : state E) (e : exn) :
  chat E data s = (Raise e, s') ->
  (s' = s
   /\ e = AttributeError
   /\ (py_get data "query" = Raise AttributeError
       \/ exists query,
            py_get data "query" = Ok query
            /\ truthy query = true
            /\ forall q, query <> PStr q))
  \/ exists evs ev,
       log s' = (log s ++ evs ++ [ev])%list
       /\ raise_site E e ev
       /\ ask_prompts evs = [].
Proof.
  destruct (py_get data "query") as [query|e1] eqn:Hq.
  2: { unfold chat. rewrite bind_run. unfold lift at 1. rewrite Hq.
       intros H. injection H as <- <-.
       assert (e1 = AttributeError) as ->.
       { unfold py_get in Hq. destruct data as [| | | | |d];
           try (now injection Hq as <-).
         destruct (lookup "query" d); discriminate. }
       left. split; [reflexivity|]. split; [reflexivity|]. now left. }
  destruct (truthy query) eqn:Ht;
    [|now rewrite (chat_refuses E _ _ _ Hq Ht)].
  rewrite (chat_true_query E _ _ _ Hq Ht).
  destruct query as [|b|n|q|items|entries];
    try (intros H; injection H as <- <-; left; split; [reflexivity|];
         split; [reflexivity|]; right; eexists; split; [reflexivity|];
         split; [exact Ht|]; intros q; discriminate).
  destruct (keyword_loop E q (find_relevant_topics E q) s)
    as [[[found|]|e1] s1] eqn:Hloop; [discriminate| |]; intros H; right.
  - destruct (keyword_loop_inv E _ _ _ _ _ Hloop) as (evs0 & Hlog0 & Ha0).
    destruct (semantic_phase_raise_site E _ _ _ _ H)
      as (evs & ev & Hlog & Hsite & Hask).
    exists (evs0 ++ evs)%list, ev.
    split; [now rewrite Hlog, Hlog0, <- !app_assoc|].
    split; [exact Hsite|]. now rewrite ask_prompts_app, Ha0, Hask.
  - injection H as <- <-.
    exact (keyword_loop_raise_site E q _ (find_relevant_topics_keys E q)
             _ _ _ Hloop).
Qed.

Lemma chat_raises_witness :
  (snd (chat Script.stringy_env (request "How do I maintain my battery?")
          (Script.start Script.stringy_env 0%nat))
   = Script.start Script.stringy_env 0%nat
   /\ TypeError = AttributeError
   /\ (py_get (request "How do I maintain my battery?") "query"
       = Raise AttributeError
       \/ exists query,
            py_get (request "How do I maintain my battery?") "query"
            = Ok query
            /\ truthy query = true
            /\ forall q, query <> PStr q))
  \/ exists evs ev,
       log (snd (chat Script.stringy_env
                   (request "How do I maintain my battery?")
                   (Script.start Script.stringy_env 0%nat)))
       = (log (Script.start Script.stringy_env 0%nat) ++ evs ++ [ev])%list
       /\ raise_site Script.stringy_env TypeError ev
       /\ ask_prompts evs = [].
Proof.
  exact (chat_raises Script.stringy_env
           (request "How do I maintain my battery?")
           (Script.start Script.stringy_env 0%nat)
           (snd (chat Script.stringy_env
                   (request "How do I maintain my battery?")
                   (Script.start Script.stringy_env 0%nat)))
           TypeError eq_refl).
Defined.

(** X15: [get_topics] counts the topics that it lists, and the fallback of
    [chat] lists the same topics in the same order. *)
Theorem get_topics_agrees_with_fallback (E : env) :
  count (get_topics E) = Z.of_nat (length (topics (get_topics E)))
  /\ forall data s s' st b,
       chat E data s = (Ok {| status := st; payload_of := ChatBody b |}, s') ->
       b_source b = "no_match" ->
       b_available_topics b = Some (topics (get_topics E)).
Proof.
  split.
  - unfold get_topics, keys. simpl. now rewrite length_map.
  - intros data s s' st b Hrun Hsrc.
    destruct (chat_inv E _ _ _ _ Hrun)
      as [[Hbad _]|(q & evs & b' & _ & _ & _ & Hout & Hb)]; [discriminate|].
    injection Hb as _ <-.
    destruct Hout as [(Hs & _)|[(Hs & _)|(_ & _ & _ & _ & Ha & _)]];
      [rewrite Hs in Hsrc; discriminate|rewrite Hs in Hsrc; discriminate|].
    exact Ha.
Qed.

Lemma get_topics_agrees_with_fallback_witness :
  count (get_topics Script.quiet_env) = 2%Z
  /\ Some ["Battery"; "Charger"] = Some (topics (get_topics Script.quiet_env)).
Proof.
  split.
  - exact (proj1 (get_topics_agrees_with_fallback Script.quiet_env)).
  - exact (proj2 (get_topics_agrees_with_fallback Script.quiet_env)
             (request "How do I maintain my battery?")
             (Script.start Script.quiet_env 0%nat)
             (snd (chat Script.quiet_env
                     (request "How do I maintain my battery?")
                     (Script.start Script.quiet_env 0%nat)))
             200%Z
             {| b_topic := None;
                b_response := Some "Here is what the documentation says.";
                b_confidence := PInt 0;
                b_source := "no_match";
                b_available_topics := Some ["Battery"; "Charger"];
                b_images := [] |} eq_refl eq_refl).
Defined.

Lemma num_gt_below_bound (x y : pynum) (bound : Q) :
  num_gt x y = false ->
  num_gt y (Fin bound) = false ->
  y = Fin 0 \/ num_gt y (Fin 0) = true ->
  num_gt x (Fin bound) = false.
Proof.
  intros Hxy Hy Hpos.
  destruct x as [a| | |], y as [b| | |]; simpl in *; try reflexivity;
    try discriminate; try (destruct Hpos; discriminate).
  apply negb_false_iff, Qle_bool_iff. apply negb_false_iff, Qle_bool_iff in Hxy.
  apply negb_false_iff, Qle_bool_iff in Hy. now apply Qle_trans with b.
Qed.

(** A verdict that does not pass against a best confidence that is itself
    not above 50 does not pass against 50. *)
Lemma relevant_above_fifty (v best : pyval) :
  relevant_above v best = Ok false ->
  best = PInt 0 \/ py_gt best (PInt 0) = Ok true ->
  py_gt best (PInt 50) = Ok false ->
  relevant_above v (PInt 50) = Ok false.
Proof.
  unfold relevant_above.
  destruct (py_getitem v "relevant") as [rel|]; [|discriminate].
  destruct (truthy rel); [|reflexivity].
  destruct (py_getitem v "confidence") as [conf|]; [|discriminate].
  intros Hv Hpos Hbest.
  destruct (py_gt_numbers _ _ _ Hv) as (x & y & Hx & Hy & Hxy).
  destruct (py_gt_numbers _ _ _ Hbest) as (y' & b & Hy' & Hb & Hyb).
  assert (y' = y) as -> by congruence. simpl in Hb. injection Hb as <-.
  unfold py_gt. rewrite Hx. simpl. f_equal.
  apply num_gt_below_bound with y; [now symmetry|now symmetry|].
  destruct Hpos as [->|Hpos].
  - left. simpl in Hy. now injection Hy as <-.
  - right. destruct (py_gt_numbers _ _ _ Hpos) as (y2 & z & Hy2 & Hz & Hyz).
    assert (y2 = y) as -> by congruence. simpl in Hz. now injection Hz as <-.
Qed.

(** The search over all topics inside [chat], when it answers. *)
Lemma semantic_phase_scan (E : env) (q : string) (s s' : state E)
  (st : Z) (b : body) :
  semantic_phase E q s
  = (Ok {| status := st; payload_of := ChatBody b |}, s') ->
  exists evs p,
    log s' = (log s ++ search_line :: evs
              ++ [Completed MODEL (3 # 10) p (Some (b_response b))])%list
    /\ fetched_ids evs
       = map (fun item => extract_page_id (snd item)) (NOTION_PAGES E)
    /\ (b_source b = "no_match"
        \/ (b_source b = "semantic_search"
            /\ py_gt (b_confidence b) (PInt 50) = Ok true))
    /\ forall p' r,
         In (Completed MODEL (1 # 10) p' r) evs ->
         relevant_above (verdict_of E r)
           (if String.eqb (b_source b) "no_match"
            then PInt 50 else b_confidence b)
         = Ok false.
Proof.
  rewrite semantic_phase_run. cbv zeta. fold search_line.
  destruct (for_each (search_topic E q) (NOTION_PAGES E) scan_start _)
    as [[acc|e] s1] eqn:Hscan; [|discriminate].
  destruct (search_loop_fetches E q _ _ _ _ _ Hscan) as (evs & Hlog & Hf & _).
  destruct (search_loop_maximal E q _ _ _ _ _ Hscan)
    as (evs' & Hlog' & Hup & Hrec & Hmax).
  rewrite Hlog in Hlog'. apply app_inv_head in Hlog'. subst evs'.
  cbn [log after] in Hlog. specialize (Hrec eq_refl).
  cbn [best_confidence scan_start] in Hup.
  assert (Hfall : py_gt (best_confidence acc) (PInt 50) = Ok false ->
                  no_match E q s1
                  = (Ok {| status := st; payload_of := ChatBody b |}, s') ->
                  exists evs0 p,
                    log s'
                    = (log s ++ search_line :: evs0
                       ++ [Completed MODEL (3 # 10) p
                             (Some (b_response b))])%list
                    /\ fetched_ids evs0
                       = map (fun item => extract_page_id (snd item))
                           (NOTION_PAGES E)
                    /\ (b_source b = "no_match"
                        \/ (b_source b = "semantic_search"
                            /\ py_gt (b_confidence b) (PInt 50) = Ok true))
                    /\ forall p' r,
                         In (Completed MODEL (1 # 10) p' r) evs0 ->
                         relevant_above (verdict_of E r)
                           (if String.eqb (b_source b) "no_match"
                            then PInt 50 else b_confidence b)
                         = Ok false).
  { intros Hlow. rewrite no_match_run. cbv zeta.
    destruct (groq_chat E MODEL (3 # 10) _ (world s1)) as [[answer|] w];
      [|discriminate].
    intros H. injection H as _ <- <-. exists evs. eexists.
    split; [cbn [log after b_response]; rewrite Hlog, <- !app_assoc;
            reflexivity|].
    split; [exact Hf|]. split; [now left|].
    intros p' r Hin. cbn [b_source]. simpl String.eqb.
    apply relevant_above_fifty with (best_confidence acc);
      [exact (Hmax _ _ Hin)|exact Hup|exact Hlow]. }
  destruct (best_match acc) as [best|] eqn:Hbest.
  2: { apply Hfall. now rewrite Hrec. }
  rewrite <- Hrec.
  destruct (py_gt (best_confidence acc) (PInt 50)) as [[|]|] eqn:Hgt;
    [|now apply Hfall|discriminate].
  destruct (groq_chat E MODEL (3 # 10) _ (world s1)) as [[answer|] w];
    [|discriminate].
  intros H. injection H as _ <- <-. exists evs. eexists.
  split; [cbn [log after b_response]; rewrite Hlog, <- !app_assoc;
          reflexivity|].
  split; [exact Hf|]. cbn [b_source b_confidence]. split.
  - right. split; [reflexivity|exact Hgt].
  - intros p' r Hin. simpl String.eqb. exact (Hmax _ _ Hin).
Qed.

(** X16: an answer of [chat] that is not a keyword match comes after the
    search over all topics: after the line that announces it, every page of
    the catalog is fetched once more, in order, whatever the keyword search
    has fetched before, and then the answer is asked for.  In a fallback no
    verdict of that search is relevant above 50; in a semantic match none is
    relevant above the confidence of the answer, which is above 50. *)
Theorem chat_searches_every_page (E : env) (data : pyval) (s s' : state E)
  (st : Z) (b : body) :
  chat E data s = (Ok {| status := st; payload_of := ChatBody b |}, s') ->
  b_source b <> "keyword_match" ->
  exists before evs p,
    log s' = (log s ++ before ++ search_line :: evs
              ++ [Completed MODEL (3 # 10) p (Some (b_response b))])%list
    /\ fetched_ids evs
       = map (fun item => extract_page_id (snd item)) (NOTION_PAGES E)
    /\ (b_source b = "no_match"
        \/ (b_source b = "semantic_search"
            /\ py_gt (b_confidence b) (PInt 50) = Ok true))
    /\ forall p' r,
         In (Completed MODEL (1 # 10) p' r) evs ->
         relevant_above (verdict_of E r)
           (if String.eqb (b_source b) "no_match"
            then PInt 50 else b_confidence b)
         = Ok false.
Proof.
  intros Hrun Hsrc.
  destruct (chat_inv E _ _ _ _ Hrun)
    as [[Hbad _]|(q & _ & _ & Hq & Hne & _)]; [discriminate|].
  revert Hrun. rewrite (chat_run E _ _ _ Hq Hne).
  destruct (keyword_loop E q (find_relevant_topics E q) s)
    as [[[found|]|e] s1] eqn:Hloop; [| |discriminate].
  - intros H. injection H as -> <-.
    destruct (keyword_loop_last E _ _ _ _ _ Hloop)
      as (b1 & _ & _ & _ & Hb1 & Hs & _).
    injection Hb1 as Hst Hb. subst. contradiction.
  - intros H.
    destruct (keyword_loop_inv E _ _ _ _ _ Hloop) as (before & Hlog1 & _).
    destruct (semantic_phase_scan E _ _ _ _ _ H)
      as (evs & p & Hlog & Hf & Hkind & Hmax).
    exists before, evs, p. split; [|now split].
    now rewrite Hlog, Hlog1, <- !app_assoc.
Qed.

Lemma chat_searches_every_page_witness :
  exists before evs p,
    log (snd (chat Script.quiet_env (request "How do I maintain my battery?")
                (Script.start Script.quiet_env 0%nat)))
    = ([] ++ before ++ search_line :: evs
       ++ [Completed MODEL (3 # 10) p
             (Some (Some "Here is what the documentation says."))])%list
    /\ fetched_ids evs = ["id1"; "id2"].
Proof.
  destruct (chat_searches_every_page Script.quiet_env
              (request "How do I maintain my battery?")
              (Script.start Script.quiet_env 0%nat)
              (snd (chat Script.quiet_env
                      (request "How do I maintain my battery?")
                      (Script.start Script.quiet_env 0%nat)))
              200
              {| b_topic := None;
                 b_response := Some "Here is what the documentation says.";
                 b_confidence := PInt 0;
                 b_source := "no_match";
                 b_available_topics := Some ["Battery"; "Charger"];
                 b_images := [] |} eq_refl)
    as (before & evs & p & Hlog & Hf & _); [discriminate|].
  now exists before, evs, p.
Defined.
